(** * ez-reset: the D4 engine, the printer facade and the status decoder

    A shallow embedding of [utils.py], [status.py], [printer.py] and [d4.py]
    of the [ez_reset] package, followed by the properties proved about them.

    Python integers are [Z]; a [bytes] value is a list of [Byte.byte], whose
    elements read back as integers in 0..255 ([Py.byte_val]); a raised
    exception is a value of [Py.exn]. *)

From Stdlib Require Import ZArith List Lia String Ascii Bool DecimalString.
From Stdlib.Strings Require Import Byte.
From stdpp Require Import base option list gmap.
Import ListNotations.
Local Open Scope Z_scope.

(* ===================================================================== *)
(** ** Python primitives used by the sources *)
(* ===================================================================== *)

Module Py.

Abbreviation bytes := (list byte).

Inductive exn : Type :=
| ValueError (msg : string)
| IndexError
| KeyError
| TypeError
| OverflowError
| AssertionError
| StructError
| UnicodeEncodeError
| OSError.

Inductive result (A : Type) : Type :=
| Ok (a : A)
| Raise (e : exn).
Arguments Ok {A} a.
Arguments Raise {A} e.

Definition bind {A B : Type} (m : result A) (k : A -> result B) : result B :=
  match m with
  | Ok a => k a
  | Raise e => Raise e
  end.

Definition byte_val (b : byte) : Z := Z.of_N (Byte.to_N b).

(** The byte whose value is [z mod 256]. *)
Definition byte_of_Z (z : Z) : byte :=
  match Byte.of_N (Z.to_N (z mod 256)) with
  | Some b => b
  | None => x00
  end.

Definition len {A : Type} (l : list A) : Z := Z.of_nat (length l).

(** Index normalisation of a slice bound: a negative bound counts from the
    end, and every bound is clamped to [0, len]. *)
Definition slice_bound (n i : Z) : Z :=
  if i <? 0 then Z.max 0 (i + n) else Z.min i n.

(** [data[lo:hi]] *)
Definition slice {A : Type} (data : list A) (lo hi : Z) : list A :=
  let n := len data in
  let l := slice_bound n lo in
  let h := slice_bound n hi in
  take (Z.to_nat (h - l)) (drop (Z.to_nat l) data).

(** [data[lo:]] *)
Definition slice_from {A : Type} (data : list A) (lo : Z) : list A :=
  drop (Z.to_nat (slice_bound (len data) lo)) data.

(** [data[i]] on a bytes object: an integer, or IndexError. *)
Definition getitem (data : bytes) (i : Z) : result Z :=
  let j := if i <? 0 then i + len data else i in
  if (0 <=? j) && (j <? len data) then
    match data !! Z.to_nat j with
    | Some b => Ok (byte_val b)
    | None => Raise IndexError
    end
  else Raise IndexError.

(** [int.from_bytes(data, "little")] *)
Fixpoint int_from_bytes_little (data : bytes) : Z :=
  match data with
  | [] => 0
  | b :: rest => byte_val b + 256 * int_from_bytes_little rest
  end.

(** [int.from_bytes(data, "big")] *)
Definition int_from_bytes_big (data : bytes) : Z :=
  int_from_bytes_little (rev data).

Fixpoint little_digits (n : nat) (x : Z) : bytes :=
  match n with
  | O => []
  | S n' => byte_of_Z x :: little_digits n' (x / 256)
  end.

(** [x.to_bytes(n, "little")] *)
Definition to_bytes_little (x : Z) (n : nat) : result bytes :=
  if (0 <=? x) && (x <? 256 ^ Z.of_nat n) then Ok (little_digits n x)
  else Raise OverflowError.

(** [x.to_bytes(n, "big")] *)
Definition to_bytes_big (x : Z) (n : nat) : result bytes :=
  if (0 <=? x) && (x <? 256 ^ Z.of_nat n) then Ok (rev (little_digits n x))
  else Raise OverflowError.

(** [bytes(ints)]: every element must lie in range(0, 256). *)
Fixpoint bytes_of_ints (l : list Z) : result bytes :=
  match l with
  | [] => Ok []
  | x :: rest =>
      if (0 <=? x) && (x <? 256) then
        bind (bytes_of_ints rest) (fun r => Ok (byte_of_Z x :: r))
      else Raise (ValueError "bytes must be in range(0, 256)")
  end.

Definition bytes_of_string (s : string) : bytes :=
  map byte_of_ascii (list_ascii_of_string s).

(** [s.encode("ascii")] *)
Definition encode_ascii (s : string) : result bytes :=
  let b := bytes_of_string s in
  if forallb (fun c => byte_val c <? 128) b then Ok b
  else Raise UnicodeEncodeError.

Definition hex_digit (n : Z) : ascii :=
  nth (Z.to_nat n) (list_ascii_of_string "0123456789abcdef") "0"%char.

Definition quote1 : Z := 39.
Definition quote2 : Z := 34.
Definition backslash : Z := 92.

Definition char_of_Z (z : Z) : string := String (ascii_of_byte (byte_of_Z z)) EmptyString.

Definition repr_byte (quote : Z) (b : byte) : string :=
  let v := byte_val b in
  if (v =? quote) || (v =? backslash) then (char_of_Z backslash ++ char_of_Z v)%string
  else if v =? 9 then (char_of_Z backslash ++ "t")%string
  else if v =? 10 then (char_of_Z backslash ++ "n")%string
  else if v =? 13 then (char_of_Z backslash ++ "r")%string
  else if (v <? 32) || (127 <=? v) then
    (char_of_Z backslash ++ "x"
       ++ String (hex_digit (v / 16)) (String (hex_digit (v mod 16)) EmptyString))%string
  else char_of_Z v.

(** [str(data)] of a bytes object: its repr, [b'...']. *)
Definition str_of_bytes (data : bytes) : string :=
  let has q := existsb (fun c => byte_val c =? q) data in
  let quote := if has quote1 && negb (has quote2) then quote2 else quote1 in
  ("b" ++ char_of_Z quote
       ++ fold_right (fun b acc => repr_byte quote b ++ acc) EmptyString data
       ++ char_of_Z quote)%string.

(** [data.startswith(prefix)] *)
Fixpoint startswith (data prefix : bytes) {struct prefix} : bool :=
  match prefix, data with
  | [], _ => true
  | p :: prefix', d :: data' =>
      (byte_val p =? byte_val d) && startswith data' prefix'
  | _ :: _, [] => false
  end.

(** The whitespace [int] skips around a literal given as bytes: space and
    the control characters 9 to 13. *)
Definition is_space (b : byte) : bool :=
  let v := byte_val b in
  (v =? 32) || ((9 <=? v) && (v <=? 13)).

Fixpoint lstrip (data : bytes) : bytes :=
  match data with
  | b :: rest => if is_space b then lstrip rest else data
  | [] => []
  end.

(** The value of a digit of base 16. *)
Definition hex_value (b : byte) : option Z :=
  let v := byte_val b in
  if (48 <=? v) && (v <=? 57) then Some (v - 48)
  else if (97 <=? v) && (v <=? 102) then Some (v - 87)
  else if (65 <=? v) && (v <=? 70) then Some (v - 55)
  else None.

Definition underscore : Z := 95.

(** The digits of a literal, with single underscores between them: the
    value read and what follows the last digit, or [None] where an
    underscore is doubled or is not followed by a digit. *)
Fixpoint hex_digits (acc : Z) (after_underscore : bool) (data : bytes)
  : option (Z * bytes) :=
  match data with
  | b :: rest =>
      match hex_value b with
      | Some d => hex_digits (16 * acc + d) false rest
      | None =>
          if byte_val b =? underscore then
            if after_underscore then None else hex_digits acc true rest
          else if after_underscore then None else Some (acc, data)
      end
  | [] => if after_underscore then None else Some (acc, [])
  end.

Definition invalid_literal (data : bytes) : exn :=
  ValueError ("invalid literal for int() with base 16: "
              ++ substring 0 200 (str_of_bytes (take 200 data)))%string.

(** [int(data, base=16)] on a bytes object: whitespace, a sign, an optional
    [0x] or [0X] that one underscore may follow, digits, whitespace. *)
Definition int_base16 (data : bytes) : result Z :=
  let s := lstrip data in
  let '(sign, s) :=
    match s with
    | b :: rest =>
        if byte_val b =? 43 then (1, rest)
        else if byte_val b =? 45 then (-1, rest)
        else (1, s)
    | [] => (1, s)
    end in
  let s :=
    match s with
    | b0 :: b1 :: rest =>
        if (byte_val b0 =? 48) && ((byte_val b1 =? 120) || (byte_val b1 =? 88))
        then match rest with
             | u :: rest' => if byte_val u =? underscore then rest' else rest
             | [] => rest
             end
        else s
    | _ => s
    end in
  match s with
  | [] => Raise (invalid_literal data)
  | b :: _ =>
      match hex_value b with
      | None => Raise (invalid_literal data)
      | Some _ =>
          match hex_digits 0 false s with
          | Some (v, rest) =>
              match lstrip rest with
              | [] => Ok (sign * v)
              | _ :: _ => Raise (invalid_literal data)
              end
          | None => Raise (invalid_literal data)
          end
      end
  end.

(** [s.split(sep)] for a separator of one character. *)
Fixpoint split (sep : ascii) (s : string) : list string :=
  match s with
  | EmptyString => [EmptyString]
  | String c rest =>
      if Ascii.eqb c sep then EmptyString :: split sep rest
      else
        match split sep rest with
        | hd :: tl => String c hd :: tl
        | [] => [String c EmptyString]
        end
  end.

(** A [dict] of strings, as its items in insertion order. *)
Definition dict : Type := list (string * string).

(** [d[k] = v]: a key already there keeps its place. *)
Fixpoint dict_set (k v : string) (d : dict) : dict :=
  match d with
  | [] => [(k, v)]
  | (k', v') :: rest =>
      if String.eqb k k' then (k', v) :: rest
      else (k', v') :: dict_set k v rest
  end.

Definition decimal (n : nat) : string :=
  NilEmpty.string_of_uint (Nat.to_uint n).

(** [dict(items)] where every item is a list of strings: item number [i]
    must have two elements. *)
Fixpoint dict_update (i : nat) (items : list (list string)) (d : dict)
  : result dict :=
  match items with
  | [] => Ok d
  | [k; v] :: rest => dict_update (S i) rest (dict_set k v d)
  | e :: _ =>
      Raise (ValueError ("dictionary update sequence element #" ++ decimal i
                         ++ " has length " ++ decimal (List.length e)
                         ++ "; 2 is required")%string)
  end.

End Py.

Notation "'let*' x := m 'in' k" := (Py.bind m (fun x => k))
  (at level 10, x name, m at level 100, k at level 200).

(* ===================================================================== *)
(** ** utils.py *)
(* ===================================================================== *)

Module utils.
Import Py.

(** One yielded item: [(header, parameter_length, parameter_data)]. *)
Definition entry : Type := Z * Z * bytes.

(** The passes of the [while index < length] loop.  [index] grows by at
    least 2 per pass, so [budget] passes are never used up when
    [length - index <= budget] (lemma [entries_enough]). *)
Fixpoint entries (budget : nat) (data : bytes) (length index : Z)
  : result (list entry) :=
  match budget with
  | O => Ok []
  | S budget' =>
      if index <? length then
        let* header := getitem data index in
        let index := index + 1 in
        let* parameter_length := getitem data index in
        let index := index + 1 in
        let parameter_data := slice data index (index + parameter_length) in
        let index := index + parameter_length in
        let* rest := entries budget' data length index in
        Ok ((header, parameter_length, parameter_data) :: rest)
      else Ok []
  end.

Definition length_invalid : exn := ValueError "Status payload length invalid".

(** The generator, as the list of the items it yields.  The first [next]
    runs the length check; nothing after it can raise (lemma
    [parse_status_struct_agree]), so consuming the items one by one and
    taking them as a list agree. *)
Definition parse_status_struct (data : bytes) : result (list entry) :=
  let length := int_from_bytes_little (slice data 0 2) in
  if negb (len data =? length + 2) then Raise length_invalid
  else entries (Z.to_nat length) data length 2.

Definition parse_identifier (identifier : string) : result dict :=
  let fields := split ";" identifier in
  dict_update 0
    (map (split ":") (List.filter (fun e => negb (String.eqb e EmptyString)) fields))
    [].

End utils.

(* ===================================================================== *)
(** ** status.py *)
(* ===================================================================== *)

Module status.
Import Py.

Module PrinterState.
Inductive t : Type :=
  | ERROR | SELF_PRINTING | BUSY | WAITING | IDLE | PAUSE | INKDRYING
  | CLEANING | FACTORY_SHIPMENT | MOTOR_DRIVE_OFF | SHUTDOWN
  | WAITPAPERINIT | INIT_PAPER.

  (** [PrinterState(v)], with [_missing_] answering [ERROR]. *)
Definition of_value (v : Z) : t :=
    if v =? 0x00 then ERROR else if v =? 0x01 then SELF_PRINTING
    else if v =? 0x02 then BUSY else if v =? 0x03 then WAITING
    else if v =? 0x04 then IDLE else if v =? 0x05 then PAUSE
    else if v =? 0x06 then INKDRYING else if v =? 0x07 then CLEANING
    else if v =? 0x08 then FACTORY_SHIPMENT
    else if v =? 0x09 then MOTOR_DRIVE_OFF
    else if v =? 0x0A then SHUTDOWN else if v =? 0x0B then WAITPAPERINIT
    else if v =? 0x0C then INIT_PAPER else ERROR.
End PrinterState.

Module PrinterError.
Inductive t : Type :=
  | NONE | FATAL | INTERFACE | PAPERJAM | INKOUT | PAPEROUT | PAPERSIZE
  | PAPERPATH | SERVICEREQ | DOUBLEFEED | INKCOVEROPEN | NOMAINTENANCEBOX
  | COVEROPEN | NOTRAY | CARDLOADING | CDDVDCONFIG | CARTRIDGEOVERFLOW
  | BATTERYVOLTAGE | BATTERYTEMPERATURE | BATTERYEMPTY | SHUTOFF
  | NOT_INITIALFILL | PRINTPACKEND | MAINTENANCEBOXCOVEROPEN | SCANNEROPEN
  | CDRGUIDEOPEN | CDREXIST | CDREXIST_MAINTE | TRAYCLOSE.

  (** [PrinterError(v)], with [_missing_] answering [FATAL]. *)
Definition of_value (v : Z) : t :=
    if v =? -1 then NONE else if v =? 0x00 then FATAL
    else if v =? 0x01 then INTERFACE else if v =? 0x04 then PAPERJAM
    else if v =? 0x05 then INKOUT else if v =? 0x06 then PAPEROUT
    else if v =? 0x0A then PAPERSIZE else if v =? 0x0C then PAPERPATH
    else if v =? 0x10 then SERVICEREQ else if v =? 0x12 then DOUBLEFEED
    else if v =? 0x1A then INKCOVEROPEN
    else if v =? 0x22 then NOMAINTENANCEBOX
    else if v =? 0x25 then COVEROPEN else if v =? 0x29 then NOTRAY
    else if v =? 0x2A then CARDLOADING else if v =? 0x2B then CDDVDCONFIG
    else if v =? 0x2C then CARTRIDGEOVERFLOW
    else if v =? 0x2F then BATTERYVOLTAGE
    else if v =? 0x30 then BATTERYTEMPERATURE
    else if v =? 0x31 then BATTERYEMPTY else if v =? 0x32 then SHUTOFF
    else if v =? 0x33 then NOT_INITIALFILL
    else if v =? 0x34 then PRINTPACKEND
    else if v =? 0x36 then MAINTENANCEBOXCOVEROPEN
    else if v =? 0x37 then SCANNEROPEN else if v =? 0x38 then CDRGUIDEOPEN
    else if v =? 0x44 then CDREXIST else if v =? 0x45 then CDREXIST_MAINTE
    else if v =? 0x46 then TRAYCLOSE else FATAL.
End PrinterError.

Module PaperPath.
Inductive t : Type := UNKNOWN | ROLL | FANFOLD | ROLL_BACK.

  (** [PaperPath(v)], with [_missing_] answering [UNKNOWN]. *)
Definition of_value (v : Z) : t :=
    if v =? -1 then UNKNOWN else if v =? 0x00 then ROLL
    else if v =? 0x01 then FANFOLD else if v =? 0x02 then ROLL_BACK
    else UNKNOWN.
End PaperPath.

Module ConsumableStatus.
Inductive t : Type := OKAY | EMPTY | MISSING | FAIL | UNKNOWN.
End ConsumableStatus.

Module ConsumableLevel.
Record t : Type := Build { level : Z; status : ConsumableStatus.t }.

Definition from_int (level : Z) : t :=
    if level =? 110 then Build (-1) ConsumableStatus.MISSING
    else if level =? 105 then Build (-1) ConsumableStatus.UNKNOWN
    else if (level <? 0) || (100 <? level) then Build (-1) ConsumableStatus.FAIL
    else if level =? 0 then Build level ConsumableStatus.EMPTY
    else Build level ConsumableStatus.OKAY.
End ConsumableLevel.

Module InkColor.
Inductive t : Type :=
  | BLACK | CYAN | MAGENTA | YELLOW | LIGHT_CYAN | LIGHT_MAGENTA
  | DARK_YELLOW | GRAY | LIGHT_BLACK | RED | BLUE | GLOSS_OPTIMIZER
  | LIGHT_GRAY | ORANGE | UNKNOWN.

  (** [InkColor(v)], with [_missing_] answering [UNKNOWN]. *)
Definition of_value (v : Z) : t :=
    if v =? 0 then BLACK else if v =? 1 then CYAN
    else if v =? 2 then MAGENTA else if v =? 3 then YELLOW
    else if v =? 4 then LIGHT_CYAN else if v =? 5 then LIGHT_MAGENTA
    else if v =? 6 then DARK_YELLOW else if v =? 7 then GRAY
    else if v =? 8 then LIGHT_BLACK else if v =? 9 then RED
    else if v =? 10 then BLUE else if v =? 11 then GLOSS_OPTIMIZER
    else if v =? 12 then LIGHT_GRAY else if v =? 13 then ORANGE
    else UNKNOWN.
End InkColor.

Module InkLevel.
Record t : Type :=
    Build { level : Z; status : ConsumableStatus.t; color : InkColor.t }.

Definition from_bytes (entry : bytes) : result t :=
    let* c := getitem entry 1 in
    let color := InkColor.of_value c in
    let* l := getitem entry 2 in
    let consumable_level := ConsumableLevel.from_int l in
    Ok (Build (ConsumableLevel.level consumable_level)
              (ConsumableLevel.status consumable_level) color).
End InkLevel.

Module Status.
Record t : Type := Build {
    state : PrinterState.t;
    error : PrinterError.t;
    source : PaperPath.t;
    levels : list InkLevel.t;
    maintenance_box : ConsumableLevel.t;
    serial : string;
    other : gmap Z bytes
  }.

  (** The windows [parameter_data[i : i + entry_size]] for
      [i in range(start, stop, entry_size)], [entry_size > 0]; at most
      [budget] of them, and [stop] passes always suffice (lemma
      [ink_windows_enough]). *)
Fixpoint ink_windows (budget : nat) (parameter_data : bytes)
      (entry_size i : Z) : list bytes :=
    match budget with
    | O => []
    | S budget' =>
        if i <? len parameter_data then
          slice parameter_data i (i + entry_size)
            :: ink_windows budget' parameter_data entry_size (i + entry_size)
        else []
    end.

Fixpoint ink_levels (windows : list bytes) : result (list InkLevel.t) :=
    match windows with
    | [] => Ok []
    | w :: rest =>
        let* l := InkLevel.from_bytes w in
        let* ls := ink_levels rest in
        Ok (l :: ls)
    end.

Definition range_step_zero : exn := ValueError "range() arg 3 must not be zero".

  (** The body of the [for] loop: one entry applied to the fields read so
      far. *)
Definition apply_entry (st : t) (e : utils.entry) : result t :=
    let '(header, _parameter_length, parameter_data) := e in
    if header =? 0x01 then
      let* v := getitem parameter_data 0 in
      Ok (Build (PrinterState.of_value v) (error st) (source st) (levels st)
                (maintenance_box st) (serial st) (other st))
    else if header =? 0x02 then
      let* v := getitem parameter_data 0 in
      Ok (Build (state st) (PrinterError.of_value v) (source st) (levels st)
                (maintenance_box st) (serial st) (other st))
    else if header =? 0x06 then
      let* v := getitem parameter_data 0 in
      Ok (Build (state st) (error st) (PaperPath.of_value (3 - v)) (levels st)
                (maintenance_box st) (serial st) (other st))
    else if header =? 0x0D then
      let* v := getitem parameter_data 0 in
      Ok (Build (state st) (error st) (source st) (levels st)
                (ConsumableLevel.from_int v) (serial st) (other st))
    else if header =? 0x0F then
      let* entry_size := getitem parameter_data 0 in
      if entry_size =? 0 then Raise range_step_zero
      else
        let* ls := ink_levels (ink_windows (length parameter_data)
                                 parameter_data entry_size 1) in
        Ok (Build (state st) (error st) (source st) ls
                  (maintenance_box st) (serial st) (other st))
    else if header =? 0x40 then
      Ok (Build (state st) (error st) (source st) (levels st)
                (maintenance_box st) (str_of_bytes parameter_data) (other st))
    else
      Ok (Build (state st) (error st) (source st) (levels st)
                (maintenance_box st) (serial st)
                (<[header := parameter_data]> (other st))).

Fixpoint apply_entries (st : t) (es : list utils.entry) : result t :=
    match es with
    | [] => Ok st
    | e :: rest => let* st' := apply_entry st e in apply_entries st' rest
    end.

  (** The values the locals hold before the loop. *)
Definition initial : t :=
    Build PrinterState.IDLE PrinterError.NONE PaperPath.UNKNOWN []
          (ConsumableLevel.Build (-1) ConsumableStatus.UNKNOWN) EmptyString ∅.

Definition from_bytes (data : bytes) : result t :=
    let* es := utils.parse_status_struct data in
    apply_entries initial es.
End Status.

End status.

(* ===================================================================== *)
(** ** control.py, devices.py, printer.py *)
(* ===================================================================== *)

Module control.
Import Py.

(** The [ControlBackend] interface: [send] answers a response or raises,
    and may change the backend. *)
Class ControlBackend (B : Type) : Type := {
  send : bytes -> B -> result bytes * B;
  identify : B -> result string * B
}.

End control.

Module devices.
Import Py.

Record Counter : Type := { addresses : list Z; max : Z }.

(** [reset] is the dict's items in iteration (insertion) order. *)
Record Device : Type := {
  model : bytes;
  key : bytes;
  counters : list Counter;
  reset : list (Z * Z)
}.

End devices.

Module printer.
Import Py control devices.

Section Printer.
Context {B : Type} `{ControlBackend B}.

  (** The bytes [send_command] hands to the backend. *)
Definition command_frame (command payload : bytes) : result bytes :=
    let* l := to_bytes_little (len payload) 2 in
    Ok (command ++ l ++ payload).

Definition send_command (command payload : bytes) (b : B) : result bytes * B :=
    match command_frame command payload with
    | Ok frame => send frame b
    | Raise e => (Raise e, b)
    end.

Definition action_code (action : Z) : result bytes :=
    bytes_of_ints
      [action; Z.lxor action 0xFF;
       Z.lor (Z.land (Z.shiftr action 1) 0x7F) (Z.land (Z.shiftl action 7) 0x80)].

  (** The bytes [send_factory_command] hands to the backend. *)
Definition factory_frame (model : bytes) (action : Z) (payload : bytes)
    : result bytes :=
    let command := bytes_of_string "||" in
    let* code := action_code action in
    command_frame command (model ++ code ++ payload).

Definition send_factory_command (model : bytes) (action : Z) (payload : bytes)
      (b : B) : result bytes * B :=
    match factory_frame model action payload with
    | Ok frame => send frame b
    | Raise e => (Raise e, b)
    end.

  (** The bytes [write_eeprom] hands to the backend. *)
Definition write_eeprom_frame (device : Device) (address value : Z)
    : result bytes :=
    let action := 0x42 in
    let* a := to_bytes_little address 2 in
    let* v := to_bytes_little value 1 in
    let payload := a ++ v ++ key device in
    factory_frame (model device) action payload.

Definition write_eeprom (device : Device) (address value : Z) (b : B)
    : result bytes * B :=
    match write_eeprom_frame device address value with
    | Ok frame => send frame b
    | Raise e => (Raise e, b)
    end.

  (** The [for addr, value in ...items()] loop. *)
Fixpoint reset_items (device : Device) (items : list (Z * Z)) (b : B)
    : result unit * B :=
    match items with
    | [] => (Ok tt, b)
    | (addr, value) :: rest =>
        match write_eeprom device addr value b with
        | (Ok _, b') => reset_items device rest b'
        | (Raise e, b') => (Raise e, b')
        end
    end.

Definition reset_waste (device : Device) (b : B) : result unit * B :=
    reset_items device (reset device) b.

End Printer.

(** A backend that keeps the list of the frames it was sent, around any
    other backend. *)
Record Logged (B : Type) : Type := { inner : B; sent : list bytes }.
Arguments inner {B} _.
Arguments sent {B} _.

#[export] Instance Logged_backend {B : Type} `{ControlBackend B}
  : ControlBackend (Logged B) := {
  send frame s :=
    let '(r, b') := send frame (inner s) in
    (r, {| inner := b'; sent := sent s ++ [frame] |});
  identify s :=
    let '(r, b') := identify (inner s) in
    (r, {| inner := b'; sent := sent s |})
}.

(** A scripted backend: it answers each [send] with the next of its
    prepared results. *)
#[export] Instance Scripted_backend : ControlBackend (list (result bytes)) := {
  send _ script :=
    match script with
    | r :: rest => (r, rest)
    | [] => (Raise OSError, [])
    end;
  identify script := (Ok EmptyString, script)
}.

Section Queries.
Context {B : Type} `{ControlBackend B}.

Definition unknown_response (response expected : bytes) : exn :=
  ValueError ("Unknown response " ++ str_of_bytes response
              ++ " for command " ++ str_of_bytes expected)%string.

Definition status_expected : bytes := bytes_of_string "@BDC ST2" ++ [x0d; x0a].

Definition get_status (b : B) : result status.Status.t * B :=
  let command := bytes_of_string "st" in
  let expected := status_expected in
  match send_command command [x01] b with
  | (Ok response, b') =>
      if negb (startswith response expected) then
        (Raise (unknown_response response expected), b')
      else
        let payload := slice_from response (len expected) in
        (status.Status.from_bytes payload, b')
  | (Raise e, b') => (Raise e, b')
  end.

Definition eeprom_expected : bytes := bytes_of_string "@BDC PS" ++ [x0d; x0a].

Definition read_eeprom (device : Device) (address : Z) (b : B)
  : result Z * B :=
  let action := 0x41 in
  let expected := eeprom_expected in
  match to_bytes_little address 2 with
  | Raise e => (Raise e, b)
  | Ok a =>
      match send_factory_command (model device) action a b with
      | (Ok response, b') =>
          if negb (startswith response expected) then
            (Raise (unknown_response response expected), b')
          else (int_base16 (slice response 16 18), b')
      | (Raise e, b') => (Raise e, b')
      end
  end.

(** The list comprehension of [read_eeprom_multiple]. *)
Fixpoint read_eeprom_each (device : Device) (addresses : list Z) (b : B)
  : result (list Z) * B :=
  match addresses with
  | [] => (Ok [], b)
  | address :: rest =>
      match read_eeprom device address b with
      | (Ok v, b') =>
          match read_eeprom_each device rest b' with
          | (Ok vs, b'') => (Ok (v :: vs), b'')
          | (Raise e, b'') => (Raise e, b'')
          end
      | (Raise e, b') => (Raise e, b')
      end
  end.

Definition read_eeprom_multiple (device : Device) (addresses : list Z) (b : B)
  : result bytes * B :=
  match read_eeprom_each device addresses b with
  | (Ok vs, b') => (bytes_of_ints vs, b')
  | (Raise e, b') => (Raise e, b')
  end.

(** The list comprehension of [get_waste]. *)
Fixpoint get_waste_each (device : Device) (cs : list Counter) (b : B)
  : result (list (Z * Z)) * B :=
  match cs with
  | [] => (Ok [], b)
  | counter :: rest =>
      match read_eeprom_multiple device (addresses counter) b with
      | (Ok raw, b') =>
          match get_waste_each device rest b' with
          | (Ok ws, b'') =>
              (Ok ((int_from_bytes_little raw, max counter) :: ws), b'')
          | (Raise e, b'') => (Raise e, b'')
          end
      | (Raise e, b') => (Raise e, b')
      end
  end.

Definition get_waste (device : Device) (b : B) : result (list (Z * Z)) * B :=
  get_waste_each device (counters device) b.

End Queries.

End printer.

(* ===================================================================== *)
(** ** transport.py *)
(* ===================================================================== *)

Module transport.
Import Py.

(** The [Transport] interface over a scripted device.  [buffered] holds the
    inbound bytes that were already waiting when the engine takes the link
    over, [incoming] the bytes the device delivers after that, in order, and
    [written] the arguments of the [write] calls so far. *)
Record Transport : Type := {
  buffered : bytes;
  incoming : bytes;
  written : list bytes
}.

(** [read(size)] blocks until [size] bytes are there: [None] when the device
    never delivers that many.  A negative size is outside the interface's
    contract; the transfer fails there. *)
Definition read (size : Z) (t : Transport) : option (result bytes * Transport) :=
  if size <? 0 then Some (Raise OSError, t)
  else
    let n := Z.to_nat size in
    let inbound := buffered t ++ incoming t in
    if (length inbound <? n)%nat then None
    else Some (Ok (take n inbound),
               {| buffered := drop n (buffered t);
                  incoming := drop (n - length (buffered t)) (incoming t);
                  written := written t |}).

Definition write (data : bytes) (t : Transport) : Transport :=
  {| buffered := buffered t; incoming := incoming t;
     written := written t ++ [data] |}.

(** [drain()] discards what is buffered at the moment. *)
Definition drain (t : Transport) : Transport :=
  {| buffered := []; incoming := incoming t; written := written t |}.

End transport.

(* ===================================================================== *)
(** ** d4.py *)
(* ===================================================================== *)

Module d4.
Import Py.

Module D4Packet.
Record t : Type := Build {
  psid : option Z;
  ssid : Z;
  credit : Z;
  control : Z;
  payload : bytes
}.
End D4Packet.

Module D4Command.
Inductive t : Type :=
| Init | OpenChannel | CloseChannel | Credit | CreditRequest | Exit
| GetSocketID.

Definition value (c : t) : Z :=
  match c with
  | Init => 0 | OpenChannel => 1 | CloseChannel => 2 | Credit => 3
  | CreditRequest => 4 | Exit => 8 | GetSocketID => 9
  end.
End D4Command.

Module D4Channel.
(** [psid] and [mtu] are [None] until [OpenChannel] sets them. *)
Record t : Type := Build {
  ssid : Z;
  psid : option Z;
  mtu : option Z;
  tx_credits : Z;
  rx_credits : Z;
  rx_credits_max : Z;
  rx_queue : list D4Packet.t
}.

(** [D4Channel.__init__] *)
Definition new (ssid : Z) : t := Build ssid None None 0 0 0x0001 [].

Definition set_tx_credits (v : Z) (c : t) : t :=
  Build (ssid c) (psid c) (mtu c) v (rx_credits c) (rx_credits_max c) (rx_queue c).
Definition set_rx_credits (v : Z) (c : t) : t :=
  Build (ssid c) (psid c) (mtu c) (tx_credits c) v (rx_credits_max c) (rx_queue c).
Definition set_rx_queue (q : list D4Packet.t) (c : t) : t :=
  Build (ssid c) (psid c) (mtu c) (tx_credits c) (rx_credits c) (rx_credits_max c) q.
End D4Channel.

#[export] Instance D4Channel_inhabited : Inhabited D4Channel.t :=
  populate (D4Channel.new 0).

(** What happened on the link, kept beside the engine to state properties
    over; the code reads none of it.  [Sent c p]: [write_packet] wrote [p]
    for channel object [c]; [Delivered c p]: [read_next_packet] queued [p]
    on [c]; [Dropped p]: it discarded [p] (closed socket id);
    [Granted c n]: [CreditRequest] added the granted [n] to [c]. *)
Inductive event : Type :=
| Sent (c : nat) (p : D4Packet.t)
| Delivered (c : nat) (p : D4Packet.t)
| Dropped (p : D4Packet.t)
| Granted (c : nat) (amount : Z).

(** The engine.  The [D4Channel] objects live in [heap] under their
    identity, so that the engine's table and a caller holding the same
    channel see one object; [open_channels] maps a psid to an identity. *)
Record D4 : Type := {
  transport : transport.Transport;
  heap : gmap nat D4Channel.t;
  next_ref : nat;
  open_channels : gmap Z nat;
  trace : list event
}.

Definition chan (c : nat) (s : D4) : D4Channel.t := heap s !!! c.

Definition set_chan (c : nat) (ch : D4Channel.t) (s : D4) : D4 :=
  {| transport := transport s; heap := <[c := ch]> (heap s);
     next_ref := next_ref s; open_channels := open_channels s;
     trace := trace s |}.

Definition set_transport (t : transport.Transport) (s : D4) : D4 :=
  {| transport := t; heap := heap s; next_ref := next_ref s;
     open_channels := open_channels s; trace := trace s |}.

Definition set_open_channels (m : gmap Z nat) (s : D4) : D4 :=
  {| transport := transport s; heap := heap s; next_ref := next_ref s;
     open_channels := m; trace := trace s |}.

Definition log (e : event) (s : D4) : D4 :=
  {| transport := transport s; heap := heap s; next_ref := next_ref s;
     open_channels := open_channels s; trace := trace s ++ [e] |}.

(** How a call ends: it returns, it raises, or it has not returned (blocked
    in [transport.read] for want of input, or still looping when the pass
    budget ran out).  Each carries the engine as the call left it. *)
Inductive outcome (A : Type) : Type :=
| Done (a : A) (s : D4)
| Raised (e : exn) (s : D4)
| Pending (s : D4).
Arguments Done {A} a s.
Arguments Raised {A} e s.
Arguments Pending {A} s.

Definition state_of {A : Type} (o : outcome A) : D4 :=
  match o with
  | Done _ s => s
  | Raised _ s => s
  | Pending s => s
  end.

Definition M (A : Type) : Type := D4 -> outcome A.

Definition ret {A : Type} (a : A) : M A := fun s => Done a s.

Definition bind {A B : Type} (m : M A) (k : A -> M B) : M B :=
  fun s =>
    match m s with
    | Done a s' => k a s'
    | Raised e s' => Raised e s'
    | Pending s' => Pending s'
    end.

Definition raise {A : Type} (e : exn) : M A := fun s => Raised e s.

Definition lift {A : Type} (r : result A) : M A :=
  match r with
  | Ok a => ret a
  | Raise e => raise e
  end.

Definition assert (b : bool) : M unit :=
  if b then ret tt else raise AssertionError.

Definition gets {A : Type} (f : D4 -> A) : M A := fun s => Done (f s) s.

Definition modify (f : D4 -> D4) : M unit := fun s => Done tt (f s).

Notation "x <- m ;; k" := (bind m (fun x => k))
  (at level 100, m at next level, right associativity).
Notation "m ;;; k" := (bind m (fun _ => k))
  (at level 100, k at level 200, right associativity).

(** *** struct.pack and struct.unpack, for the formats the module uses *)

Definition u8 (x : Z) : result bytes :=
  if (0 <=? x) && (x <? 256) then Ok [byte_of_Z x] else Raise StructError.

(** A [B] field given a value that may be [None]. *)
Definition u8_opt (x : option Z) : result bytes :=
  match x with
  | Some v => u8 v
  | None => Raise StructError
  end.

Definition u16be (x : Z) : result bytes :=
  if (0 <=? x) && (x <? 65536) then Ok [byte_of_Z (x / 256); byte_of_Z x]
  else Raise StructError.

Definition be16 (hi lo : byte) : Z := 256 * byte_val hi + byte_val lo.

(** [struct.pack(">BBHBB", psid, ssid, length, credit, control)] *)
Definition pack_BBHBB (psid : option Z) (ssid length credit control : Z)
  : result bytes :=
  let* a := u8_opt psid in
  let* b := u8 ssid in
  let* c := u16be length in
  let* d := u8 credit in
  let* e := u8 control in
  Ok (a ++ b ++ c ++ d ++ e).

(** [struct.unpack(">BBHBB", data)] *)
Definition unpack_BBHBB (data : bytes) : result (Z * Z * Z * Z * Z) :=
  match data with
  | [a; b; c1; c2; d; e] =>
      Ok (byte_val a, byte_val b, be16 c1 c2, byte_val d, byte_val e)
  | _ => Raise StructError
  end.

(** [struct.pack(">BBHHHH", a, b, c, d, e, f)] *)
Definition pack_BBHHHH (a b c d e f : Z) : result bytes :=
  let* a := u8 a in
  let* b := u8 b in
  let* c := u16be c in
  let* d := u16be d in
  let* e := u16be e in
  let* f := u16be f in
  Ok (a ++ b ++ c ++ d ++ e ++ f).

(** [struct.unpack(">BBHHH", data)] *)
Definition unpack_BBHHH (data : bytes) : result (Z * Z * Z * Z * Z) :=
  match data with
  | [a; b; c1; c2; d1; d2; e1; e2] =>
      Ok (byte_val a, byte_val b, be16 c1 c2, be16 d1 d2, be16 e1 e2)
  | _ => Raise StructError
  end.

(** [struct.pack(">BB", psid, ssid)] *)
Definition pack_BB (psid : option Z) (ssid : Z) : result bytes :=
  let* a := u8_opt psid in
  let* b := u8 ssid in
  Ok (a ++ b).

(** [struct.pack(">BBH", psid, ssid, amount)] *)
Definition pack_BBH (psid : option Z) (ssid amount : Z) : result bytes :=
  let* a := u8_opt psid in
  let* b := u8 ssid in
  let* c := u16be amount in
  Ok (a ++ b ++ c).

(** [struct.unpack(">BBH", data)] *)
Definition unpack_BBH (data : bytes) : result (Z * Z * Z) :=
  match data with
  | [a; b; c1; c2] => Ok (byte_val a, byte_val b, be16 c1 c2)
  | _ => Raise StructError
  end.

(** *** The transport, seen from the engine *)

Definition transport_read (size : Z) : M bytes :=
  fun s =>
    match transport.read size (transport s) with
    | None => Pending s
    | Some (Ok data, t) => Done data (set_transport t s)
    | Some (Raise e, t) => Raised e (set_transport t s)
    end.

Definition transport_write (data : bytes) : M unit :=
  modify (fun s => set_transport (transport.write data (transport s)) s).

Definition transport_drain : M unit :=
  modify (fun s => set_transport (transport.drain (transport s)) s).

(** [self.open_channels[psid]] *)
Definition lookup_channel (psid : Z) : M nat :=
  fun s =>
    match open_channels s !! psid with
    | Some c => Done c s
    | None => Raised KeyError s
    end.

(** *** class D4 *)

Definition write_packet (channel : nat) (packet : D4Packet.t) : M unit :=
  let length := 6 + len (D4Packet.payload packet) in
  header <- lift (pack_BBHBB (D4Packet.psid packet) (D4Packet.ssid packet)
                    length (D4Packet.credit packet) (D4Packet.control packet)) ;;
  let data := header ++ D4Packet.payload packet in
  transport_write data ;;;
  modify (fun s =>
    let ch := chan channel s in
    log (Sent channel packet)
        (set_chan channel
           (D4Channel.set_tx_credits (D4Channel.tx_credits ch - 1) ch) s)).

Definition read_next_packet : M unit :=
  header_data <- transport_read 6 ;;
  fields <- lift (unpack_BBHBB header_data) ;;
  let '(psid, ssid, length, credit, control) := fields in
  payload <- transport_read (length - 6) ;;
  let packet := D4Packet.Build (Some psid) ssid credit control payload in
  fun s =>
    match open_channels s !! psid with
    | None => Done tt (log (Dropped packet) s)
    | Some channel =>
        let ch := chan channel s in
        let ch := D4Channel.set_tx_credits (D4Channel.tx_credits ch + credit) ch in
        let ch := D4Channel.set_rx_credits (D4Channel.rx_credits ch - 1) ch in
        let ch := D4Channel.set_rx_queue (D4Channel.rx_queue ch ++ [packet]) ch in
        Done tt (log (Delivered channel packet) (set_chan channel ch s))
    end.

(** [budget] bounds the passes of the [while] loop. *)
Fixpoint read_packet (budget : nat) (channel : nat) : M D4Packet.t :=
  fun s =>
    match D4Channel.rx_queue (chan channel s) with
    | packet :: rest =>
        Done packet
             (set_chan channel (D4Channel.set_rx_queue rest (chan channel s)) s)
    | [] =>
        match budget with
        | O => Pending s
        | S budget' => (read_next_packet ;;; read_packet budget' channel) s
        end
    end.

Definition is_init_or_exit (command : D4Command.t) : bool :=
  match command with
  | D4Command.Init | D4Command.Exit => true
  | _ => false
  end.

Definition command (budget : nat) (command : D4Command.t) (payload : bytes)
  : M bytes :=
  (if is_init_or_exit command then ret tt
   else
     c0 <- lookup_channel 0 ;;
     tx <- gets (fun s => D4Channel.tx_credits (chan c0 s)) ;;
     assert (negb (tx =? 0))) ;;;
  let packet :=
    D4Packet.Build (Some 0x00) 0x00 1 0x00
                   (byte_of_Z (D4Command.value command) :: payload) in
  c0 <- lookup_channel 0x00 ;;
  write_packet c0 packet ;;;
  c0 <- lookup_channel 0x00 ;;
  res <- read_packet budget c0 ;;
  assert (bool_decide (D4Packet.psid res = Some 0)) ;;;
  first <- lift (getitem (D4Packet.payload res) 0) ;;
  (if first =? 0x7F then
     _ <- lift (getitem (D4Packet.payload res) 3) ;; ret tt
   else ret tt) ;;;
  assert (first =? Z.lor (D4Command.value command) 0x80) ;;;
  second <- lift (getitem (D4Packet.payload res) 1) ;;
  assert (second =? 0) ;;;
  ret (slice_from (D4Packet.payload res) 2).

Definition Init (budget : nat) : M unit :=
  resp <- command budget D4Command.Init [x10] ;;
  assert (bool_decide (map byte_val resp = [0x10])).

Definition Exit (budget : nat) : M unit :=
  _ <- command budget D4Command.Exit [] ;; ret tt.

Definition GetSocketID (budget : nat) (name : string) : M Z :=
  encoded <- lift (encode_ascii name) ;;
  resp <- command budget D4Command.GetSocketID encoded ;;
  lift (getitem resp 0).

Definition OpenChannel (budget : nat) (channel : nat) : M unit :=
  psid <- gets (fun s => D4Channel.ssid (chan channel s)) ;;
  ssid <- gets (fun s => D4Channel.ssid (chan channel s)) ;;
  req <- lift (pack_BBHHHH psid ssid 0xFFFF 0xFFFF 0x0000 0x0000) ;;
  res <- command budget D4Command.OpenChannel req ;;
  fields <- lift (unpack_BBHHH res) ;;
  let '(psid, ssid, mtu, _max_credit, credit) := fields in
  own_ssid <- gets (fun s => D4Channel.ssid (chan channel s)) ;;
  assert (ssid =? own_ssid) ;;;
  modify (fun s =>
    let ch := chan channel s in
    let ch := D4Channel.Build (D4Channel.ssid ch) (Some psid) (Some mtu) credit
                (D4Channel.rx_credits ch) (D4Channel.rx_credits_max ch)
                (D4Channel.rx_queue ch) in
    set_open_channels (<[psid := channel]> (open_channels s))
                      (set_chan channel ch s)).

Definition CloseChannel (budget : nat) (channel : nat) : M unit :=
  ch <- gets (chan channel) ;;
  req <- lift (pack_BB (D4Channel.psid ch) (D4Channel.ssid ch)) ;;
  _ <- command budget D4Command.CloseChannel req ;;
  fun s =>
    match D4Channel.psid (chan channel s) with
    | Some psid =>
        match open_channels s !! psid with
        | Some _ => Done tt (set_open_channels (delete psid (open_channels s)) s)
        | None => Raised KeyError s
        end
    | None => Raised KeyError s
    end.

Definition Credit (budget : nat) (channel : nat) (amount : Z) : M unit :=
  ch <- gets (chan channel) ;;
  req <- lift (pack_BBH (D4Channel.psid ch) (D4Channel.ssid ch) amount) ;;
  _ <- command budget D4Command.Credit req ;;
  ret tt.

Definition CreditRequest (budget : nat) (channel : nat) (amount : Z) : M Z :=
  ch <- gets (chan channel) ;;
  req <- lift (pack_BBH (D4Channel.psid ch) (D4Channel.ssid ch) amount) ;;
  resp <- command budget D4Command.CreditRequest req ;;
  fields <- lift (unpack_BBH resp) ;;
  let '(_, _, amount) := fields in
  fun s =>
    match D4Channel.psid (chan channel s) ≫= (fun p => open_channels s !! p) with
    | Some target =>
        let ch := chan target s in
        Done amount
             (log (Granted target amount)
                  (set_chan target
                     (D4Channel.set_tx_credits (D4Channel.tx_credits ch + amount) ch)
                     s))
    | None => Raised KeyError s
    end.

(** [D4.channel]: a new [D4Channel] object for the named socket; the
    identity of the object is returned. *)
Definition channel (budget : nat) (name : string) : M nat :=
  ssid <- GetSocketID budget name ;;
  fun s =>
    let c := next_ref s in
    Done c {| transport := transport s;
              heap := <[c := D4Channel.new ssid]> (heap s);
              next_ref := S c;
              open_channels := open_channels s;
              trace := trace s |}.

Definition mode_escape : bytes :=
  [x00; x00; x00; x1b; x01] ++ bytes_of_string "@EJL 1284.4" ++ [x0a]
    ++ bytes_of_string "@EJL" ++ [x0a] ++ bytes_of_string "@EJL" ++ [x0a].

(** The engine as [D4.__init__] has it before it touches the transport. *)
Definition D4_new (t : transport.Transport) : D4 :=
  {| transport := t;
     heap := {[ 0%nat := D4Channel.set_tx_credits 1 (D4Channel.new 0x00) ]};
     next_ref := 1%nat;
     open_channels := {[ 0x00 := 0%nat ]};
     trace := [] |}.

(** [D4.__init__] *)
Definition D4_init (budget : nat) (t : transport.Transport) : outcome unit :=
  (transport_drain ;;;
   transport_write mode_escape ;;;
   _ <- transport_read 8 ;;
   Init budget) (D4_new t).

(** *** class D4Channel *)

(** [D4Channel.__enter__] *)
Definition channel_enter (budget : nat) (self : nat) : M unit :=
  OpenChannel budget self ;;;
  rx_max <- gets (fun s => D4Channel.rx_credits_max (chan self s)) ;;
  Credit budget self rx_max ;;;
  modify (fun s =>
    let ch := chan self s in
    set_chan self
      (D4Channel.set_rx_credits
         (D4Channel.rx_credits ch + D4Channel.rx_credits_max ch) ch) s).

(** [D4Channel.__exit__] *)
Definition channel_exit (budget : nat) (self : nat) : M bool :=
  CloseChannel budget self ;;;
  ret false.

(** The [while self.d4.CreditRequest(self) < 1] loop, at most [passes]
    times round. *)
Fixpoint credit_wait (passes : nat) (budget : nat) (self : nat) : M unit :=
  match passes with
  | O => fun s => Pending s
  | S passes' =>
      amount <- CreditRequest budget self 0xFFFF ;;
      if amount <? 1 then credit_wait passes' budget self else ret tt
  end.

(** [D4Channel._ensure_credit] *)
Definition _ensure_credit (budget : nat) (self : nat) : M unit :=
  tx <- gets (fun s => D4Channel.tx_credits (chan self s)) ;;
  if tx <? 1 then credit_wait budget budget self else ret tt.

(** One pass of the body of the [while len(data)] loop of
    [D4Channel.write]; it returns what is left of [data].  The [progress]
    callback is left out. *)
Definition write_pass (budget : nat) (self : nat) (data : bytes) : M bytes :=
  ch <- gets (chan self) ;;
  let control := 0 in
  match D4Channel.mtu ch with
  | None => raise TypeError
  | Some mtu =>
      let payload := if mtu - 6 <? len data then slice data 0 (mtu - 6) else data in
      let control := Z.lor control 2 in
      let data := slice_from data (len payload) in
      let credit := Z.min (D4Channel.rx_credits_max ch - D4Channel.rx_credits ch) 0xFF in
      let packet := D4Packet.Build (D4Channel.psid ch) (D4Channel.ssid ch)
                                   credit control payload in
      modify (set_chan self
                (D4Channel.set_rx_credits (D4Channel.rx_credits ch + credit) ch)) ;;;
      _ensure_credit budget self ;;;
      write_packet self packet ;;;
      ret data
  end.

Fixpoint write_loop (passes : nat) (budget : nat) (self : nat) (data : bytes)
  : M unit :=
  match data with
  | [] => ret tt
  | _ :: _ =>
      match passes with
      | O => fun s => Pending s
      | S passes' =>
          rest <- write_pass budget self data ;;
          write_loop passes' budget self rest
      end
  end.

(** [D4Channel.write] *)
Definition channel_write (budget : nat) (self : nat) (data : bytes) : M unit :=
  write_loop budget budget self data.

(** [D4Channel.read] *)
Definition channel_read (budget : nat) (self : nat) : M D4Packet.t :=
  ch <- gets (chan self) ;;
  let credit := D4Channel.rx_credits_max ch - D4Channel.rx_credits ch in
  (if 0xFF <? credit then
     Credit budget self credit ;;;
     modify (fun s =>
       let ch := chan self s in
       set_chan self
         (D4Channel.set_rx_credits (D4Channel.rx_credits ch + credit) ch) s)
   else ret tt) ;;;
  read_packet budget self.

(** *** class D4ControlBackend *)

(** [D4ControlBackend.__enter__]: the engine and the identity of the
    entered control channel. *)
Definition backend_enter (budget : nat) (t : transport.Transport)
  : outcome nat :=
  match D4_init budget t with
  | Done _ s =>
      (c <- channel budget "EPSON-CTRL" ;;
       channel_enter budget c ;;;
       ret c) s
  | Raised e s => Raised e s
  | Pending s => Pending s
  end.

(** [D4ControlBackend.send] *)
Definition backend_send (budget : nat) (channel : nat) (command : bytes)
  : M bytes :=
  channel_write budget channel command ;;;
  res <- channel_read budget channel ;;
  ret (D4Packet.payload res).

(** *** Calls a user of the engine can make, and their runs *)

Inductive call : Type :=
| CallGetSocketID (name : string)
| CallChannel (name : string)
| CallCredit (channel : nat) (amount : Z)
| CallCreditRequest (channel : nat) (amount : Z)
| CallEnter (channel : nat)
| CallExit (channel : nat)
| CallWrite (channel : nat) (data : bytes)
| CallRead (channel : nat).

Definition run_call (budget : nat) (c : call) (s : D4) : D4 :=
  match c with
  | CallGetSocketID name => state_of (GetSocketID budget name s)
  | CallChannel name => state_of (channel budget name s)
  | CallCredit ch amount => state_of (Credit budget ch amount s)
  | CallCreditRequest ch amount => state_of (CreditRequest budget ch amount s)
  | CallEnter ch => state_of (channel_enter budget ch s)
  | CallExit ch => state_of (channel_exit budget ch s)
  | CallWrite ch data => state_of (channel_write budget ch data s)
  | CallRead ch => state_of (channel_read budget ch s)
  end.

(** The channel objects the engine has made so far: the control channel
    and those [channel] returned. *)
Definition allocated (ch : nat) (s : D4) : Prop := (ch < next_ref s)%nat.

(** A call names a channel object that exists, and a channel may be
    entered when it was never opened and the table does not hold it. *)
Definition may_call (c : call) (s : D4) : Prop :=
  match c with
  | CallGetSocketID _ | CallChannel _ => True
  | CallCredit ch _ | CallCreditRequest ch _ | CallExit ch
  | CallWrite ch _ | CallRead ch => allocated ch s
  | CallEnter ch =>
      allocated ch s
      /\ D4Channel.psid (chan ch s) = None
      /\ forall p, open_channels s !! p <> Some ch
  end.

(** The engines a program can hold: a constructed one, and whatever a call
    leaves behind, whether it returned, raised or is still under way. *)
Inductive reachable : D4 -> Prop :=
| reachable_init budget t s :
    D4_init budget t = Done tt s -> reachable s
| reachable_call budget c s :
    reachable s -> may_call c s -> reachable (run_call budget c s).

(** Channel writes and reads, in any interleaving. *)
Inductive io : Type :=
| Write (channel : nat) (data : bytes)
| Read (channel : nat).

Definition run_io (step : nat * io) (s : D4) : D4 :=
  match step with
  | (budget, Write ch data) => state_of (channel_write budget ch data s)
  | (budget, Read ch) => state_of (channel_read budget ch s)
  end.

Definition run_ios (steps : list (nat * io)) (s : D4) : D4 :=
  fold_left (fun s step => run_io step s) steps s.

(** *** Reading the trace *)

(** The events [s'] has after those of [s]. *)
Definition events_since (s s' : D4) : list event :=
  drop (length (trace s)) (trace s').

Definition sent_on (c : nat) (evs : list event) : list D4Packet.t :=
  flat_map (fun e => match e with
                     | Sent c' p => if decide (c' = c) then [p] else []
                     | _ => []
                     end) evs.

Definition delivered_to (c : nat) (evs : list event) : list D4Packet.t :=
  flat_map (fun e => match e with
                     | Delivered c' p => if decide (c' = c) then [p] else []
                     | _ => []
                     end) evs.

Definition granted_to (c : nat) (evs : list event) : list Z :=
  flat_map (fun e => match e with
                     | Granted c' n => if decide (c' = c) then [n] else []
                     | _ => []
                     end) evs.

Definition sum (l : list Z) : Z := fold_right Z.add 0 l.

Definition credits_received (c : nat) (evs : list event) : Z :=
  sum (map D4Packet.credit (delivered_to c evs)).

Definition credits_granted (c : nat) (evs : list event) : Z :=
  sum (granted_to c evs).

Definition packets_sent (c : nat) (evs : list event) : Z :=
  len (sent_on c evs).

(** The spec's fragments: [data] cut into consecutive pieces of [size]
    bytes, the last possibly shorter; [size] is positive. *)
Fixpoint fragments_upto (n : nat) (size : nat) (data : bytes) : list bytes :=
  match n with
  | O => []
  | S n' =>
      match data with
      | [] => []
      | _ => take size data :: fragments_upto n' size (drop size data)
      end
  end.

Definition fragments (size : Z) (data : bytes) : list bytes :=
  fragments_upto (length data) (Z.to_nat size) data.

(** *** D4._get_free_psid *)

Inductive D4Error : Type :=
| MkD4Error (msg : string).

(** [D4._get_free_psid]: the first psid of [range(0x100)] the table does
    not hold. *)
Definition _get_free_psid (s : D4) : D4Error + Z :=
  match List.find (fun i => bool_decide (open_channels s !! i = None))
                  (map Z.of_nat (seq 0 0x100)) with
  | Some i => inr i
  | None => inl (MkD4Error "No free PSIDs to allocate to channel open.")
  end.

End d4.

(* ===================================================================== *)
(** ** Vocabulary of the statements *)
(* ===================================================================== *)

Module props.
Import Py.

(** *** The status decoder *)

(** The declared length of a status payload: its first two bytes, little
    endian. *)
Definition declared_length (data : bytes) : Z :=
  int_from_bytes_little (slice data 0 2).

(** The offsets at which the items of [es] start when the first starts at
    [start], and the offset after the last. *)
Fixpoint offsets (start : Z) (es : list utils.entry) : list Z :=
  match es with
  | [] => []
  | (_, parameter_length, _) :: rest =>
      start :: offsets (start + 2 + parameter_length) rest
  end.

Fixpoint end_offset (start : Z) (es : list utils.entry) : Z :=
  match es with
  | [] => start
  | (_, parameter_length, _) :: rest =>
      end_offset (start + 2 + parameter_length) rest
  end.

(** [e] is the item read at offset [index]: its tag and declared length are
    the two bytes there, and its data is what the buffer still holds of the
    declared length. *)
Definition entry_at (data : bytes) (length index : Z) (e : utils.entry) : Prop :=
  let '(header, parameter_length, parameter_data) := e in
  index < length
  /\ getitem data index = Ok header
  /\ getitem data (index + 1) = Ok parameter_length
  /\ parameter_data = slice data (index + 2) (index + 2 + parameter_length)
  /\ len parameter_data = Z.min parameter_length (len data - (index + 2)).

Definition header_of (e : utils.entry) : Z := fst (fst e).

Definition known_tags : list Z := [0x01; 0x02; 0x06; 0x0D; 0x0F; 0x40].

(** *** The printer facade *)

(** The rotation the third byte of an action code is made of. *)
Definition rotated (a : Z) : Z :=
  Z.lor (Z.land (Z.shiftr a 1) 0x7F) (Z.land (Z.shiftl a 7) 0x80).

Definition action_code_law (a : Z) : bool :=
  match printer.action_code a with
  | Ok [b0; b1; b2] =>
      (byte_val b0 =? a) && (byte_val b1 =? Z.lxor a 0xFF)
      && (byte_val b2 =? rotated a)
  | _ => false
  end.

(** The writes of [items], one after the other, all answered, take the
    backend from the first state to the second. *)
Inductive writes_ok {B : Type} `{control.ControlBackend B}
    (device : devices.Device) : list (Z * Z) -> B -> B -> Prop :=
| writes_ok_nil b : writes_ok device [] b b
| writes_ok_cons addr value rest b r b1 b2 :
    printer.write_eeprom device addr value b = (Ok r, b1) ->
    writes_ok device rest b1 b2 ->
    writes_ok device ((addr, value) :: rest) b b2.

(** [f] is the frame [write_eeprom] sends for the pair [item]. *)
Definition frame_of (device : devices.Device) (item : Z * Z) (f : bytes) : Prop :=
  printer.write_eeprom_frame device (fst item) (snd item) = Ok f.

(** *** The D4 engine *)

Import d4.

(** A call started in a state of [P] ends in [Q] when it returns and in [E]
    when it raises or has not returned. *)
Definition triple {A : Type} (P : D4 -> Prop) (m : M A)
    (Q : A -> D4 -> Prop) (E : D4 -> Prop) : Prop :=
  forall s, P s ->
    match m s with
    | Done a s' => Q a s'
    | Raised _ s' => E s'
    | Pending s' => E s'
    end.

Definition preserves {A : Type} (I : D4 -> Prop) (m : M A) : Prop :=
  triple I m (fun _ => I) I.

(** The bytes [write_packet] puts on the wire for a packet: the header,
    then the payload. *)
Definition frame (p : D4Packet.t) : result bytes :=
  let* header := pack_BBHBB (D4Packet.psid p) (D4Packet.ssid p)
                   (6 + len (D4Packet.payload p)) (D4Packet.credit p)
                   (D4Packet.control p) in
  Ok (header ++ D4Packet.payload p).

(** The changes of state the calls are made of. *)
Definition upd_sent (c : nat) (p : D4Packet.t) (fr : bytes) (s : D4) : D4 :=
  let ch := chan c s in
  log (Sent c p)
      (set_chan c (D4Channel.set_tx_credits (D4Channel.tx_credits ch - 1) ch)
         (set_transport (transport.write fr (transport s)) s)).

Definition upd_delivered (c : nat) (p : D4Packet.t) (s : D4) : D4 :=
  let ch := chan c s in
  log (Delivered c p)
      (set_chan c
         (D4Channel.Build (D4Channel.ssid ch) (D4Channel.psid ch)
            (D4Channel.mtu ch) (D4Channel.tx_credits ch + D4Packet.credit p)
            (D4Channel.rx_credits ch - 1) (D4Channel.rx_credits_max ch)
            (D4Channel.rx_queue ch ++ [p])) s).

Definition upd_popped (c : nat) (rest : list D4Packet.t) (s : D4) : D4 :=
  set_chan c (D4Channel.set_rx_queue rest (chan c s)) s.

Definition upd_granted (c : nat) (amount : Z) (s : D4) : D4 :=
  let ch := chan c s in
  log (Granted c amount)
      (set_chan c (D4Channel.set_tx_credits (D4Channel.tx_credits ch + amount) ch) s).

Definition upd_rx (c : nat) (v : Z) (s : D4) : D4 :=
  set_chan c (D4Channel.set_rx_credits v (chan c s)) s.

(** A property the engine's commands keep: it survives a read from the
    transport, a command packet written on the control channel while that
    channel has credit, the delivery or the discarding of an inbound
    packet, a read from a queue, and a grant of credits. *)
Record CmdStable (I : D4 -> Prop) : Prop := {
  cs_read : forall s t,
    transport.written t = transport.written (transport s) ->
    I s -> I (set_transport t s);
  cs_sent0 : forall s c p fr,
    frame p = Ok fr ->
    open_channels s !! 0 = Some c ->
    D4Channel.tx_credits (chan c s) <> 0 ->
    I s -> I (upd_sent c p fr s);
  cs_delivered : forall s c p q,
    D4Packet.psid p = Some q -> open_channels s !! q = Some c ->
    0 <= D4Packet.credit p < 256 ->
    I s -> I (upd_delivered c p s);
  cs_dropped : forall s p, I s -> I (log (Dropped p) s);
  cs_popped : forall s c p rest,
    D4Channel.rx_queue (chan c s) = p :: rest ->
    I s -> I (upd_popped c rest s);
  cs_granted : forall s c q target amount,
    D4Channel.psid (chan c s) = Some q ->
    open_channels s !! q = Some target ->
    0 <= amount < 65536 ->
    I s -> I (upd_granted target amount s)
}.

(** A property channel writes and reads keep as well: it also survives a
    packet sent on any channel and any change of a channel's rx_credits. *)
Record Stable (I : D4 -> Prop) : Prop := {
  st_cmd : CmdStable I;
  st_sent : forall s c p fr, frame p = Ok fr -> I s -> I (upd_sent c p fr s);
  st_rx : forall s c v, I s -> I (upd_rx c v s)
}.

(** The control channel has credit, if the table holds one. *)
Definition control_credit (s : D4) : Prop :=
  forall c, open_channels s !! 0 = Some c ->
            D4Channel.tx_credits (chan c s) <> 0.

(** [s'] is [s1] after a grant of [amount] credits to the channel the table
    holds at the psid of [c], [s1] being in [I]. *)
Definition granted_step (I : D4 -> Prop) (c : nat) (amount : Z) (s' : D4) : Prop :=
  exists s1 q target,
    I s1
    /\ D4Channel.psid (chan c s1) = Some q
    /\ open_channels s1 !! q = Some target
    /\ 0 <= amount < 65536
    /\ s' = upd_granted target amount s1.

(** What [_ensure_credit] leaves when it returns: credit on the channel, or
    a grant of at least one credit just made. *)
Definition ensured (I : D4 -> Prop) (c : nat) (s' : D4) : Prop :=
  (I s' /\ 1 <= D4Channel.tx_credits (chan c s'))
  \/ exists amount, 1 <= amount /\ granted_step I c amount s'.

(** The credit invariant of the engines a program can hold: every channel
    of the table has tx_credits >= 0 and, once opened, sits at its own
    psid; every channel has rx_credits_max = 1 and rx_credits <= 1; a
    channel never opened has rx_credits <= 0 and no mtu. *)
Record Inv (s : D4) : Prop := {
  inv_table : forall p c,
    open_channels s !! p = Some c ->
    0 <= D4Channel.tx_credits (chan c s)
    /\ forall q, D4Channel.psid (chan c s) = Some q -> q = p;
  inv_rx : forall c,
    D4Channel.rx_credits_max (chan c s) = 1
    /\ D4Channel.rx_credits (chan c s) <= 1;
  inv_unopened : forall c,
    D4Channel.psid (chan c s) = None ->
    D4Channel.rx_credits (chan c s) <= 0 /\ D4Channel.mtu (chan c s) = None
}.

(** The claim of the spec on the credit counters, over the table. *)
Definition credits_in_bounds (s : D4) : Prop :=
  forall p c,
    open_channels s !! p = Some c ->
    0 <= D4Channel.tx_credits (chan c s)
    /\ 0 <= D4Channel.rx_credits (chan c s) <= D4Channel.rx_credits_max (chan c s).

(** What holds of them. *)
Definition credits_bounded_above (s : D4) : Prop :=
  forall p c,
    open_channels s !! p = Some c ->
    0 <= D4Channel.tx_credits (chan c s)
    /\ D4Channel.rx_credits (chan c s) <= D4Channel.rx_credits_max (chan c s).

(** tx_credits of [c] less what the trace accounts for. *)
Definition balance (c : nat) (s : D4) : Z :=
  D4Channel.tx_credits (chan c s)
  - credits_received c (trace s) - credits_granted c (trace s)
  + packets_sent c (trace s).

(** The trace of [s] continues [l]. *)
Definition extends (l : list event) (s : D4) : Prop :=
  exists evs, trace s = l ++ evs.

(** The fields of a channel no command changes. *)
Definition static (ch : D4Channel.t) : Z * option Z * option Z * Z :=
  (D4Channel.ssid ch, D4Channel.psid ch, D4Channel.mtu ch,
   D4Channel.rx_credits_max ch).

(** The rule of the piggybacked credit, replayed over the events of a
    write on [self].  [e] is the credit computed for the pass under way and
    [rx] the channel's rx_credits; a delivery to [self] takes one from
    [rx]; a packet sent on [self] must carry [e], and the next pass then
    computes its credit from [rx] and adds it to [rx]. *)
Fixpoint credit_replay (rx_max : Z) (self : nat) (e rx : Z)
    (evs : list event) : bool :=
  match evs with
  | [] => true
  | Delivered c _ :: rest =>
      credit_replay rx_max self e (if decide (c = self) then rx - 1 else rx) rest
  | Sent c p :: rest =>
      if decide (c = self) then
        (D4Packet.credit p =? e)
        && credit_replay rx_max self (Z.min (rx_max - rx) 0xFF)
             (rx + Z.min (rx_max - rx) 0xFF) rest
      else credit_replay rx_max self e rx rest
  | _ :: rest => credit_replay rx_max self e rx rest
  end.

Definition credit_law (rx_max : Z) (self : nat) (rx : Z) (evs : list event)
  : bool :=
  credit_replay rx_max self (Z.min (rx_max - rx) 0xFF)
                (rx + Z.min (rx_max - rx) 0xFF) evs.

(** The packets sent, on any channel. *)
Definition sent_packets (evs : list event) : list D4Packet.t :=
  flat_map (fun e => match e with
                     | Sent _ p => [p]
                     | _ => []
                     end) evs.

(** The frames written to the transport of [s'] after those of [s]. *)
Definition frames_since (s s' : D4) : list bytes :=
  drop (length (transport.written (transport s)))
       (transport.written (transport s')).

Definition framed (pk : D4Packet.t) (fr : bytes) : Prop := frame pk = Ok fr.

(** Since the trace was [l] and the frames written were [w0], the frames
    written are those of the packets sent, in order, and nothing else. *)
Definition on_wire (w0 : list bytes) (l : list event) (s : D4) : Prop :=
  exists evs frames,
    trace s = l ++ evs
    /\ transport.written (transport s) = w0 ++ frames
    /\ Forall2 framed (sent_packets evs) frames.

(** During a pass of a write on [self] that started with trace [l]: the
    channel is not the one the table holds as control channel, its static
    fields are [st], no packet has been sent on it since, and its
    rx_credits is [rx0] less the packets delivered to it since. *)
Definition quiet (self : nat) (l : list event) (rx0 : Z)
    (st : Z * option Z * option Z * Z) (s : D4) : Prop :=
  open_channels s !! 0 <> Some self
  /\ static (chan self s) = st
  /\ exists evs,
       trace s = l ++ evs
       /\ sent_on self evs = []
       /\ D4Channel.rx_credits (chan self s) = rx0 - len (delivered_to self evs).

(** [pk] is a data packet of channel [ch]: the channel's socket ids and
    control = 2. *)
Definition data_packet (ch : D4Channel.t) (pk : D4Packet.t) : Prop :=
  D4Packet.control pk = 2
  /\ D4Packet.psid pk = D4Channel.psid ch
  /\ D4Packet.ssid pk = D4Channel.ssid ch.

Definition is_done {A : Type} (o : outcome A) : bool :=
  match o with
  | Done _ _ => true
  | _ => false
  end.

(** *** Scripted links, for the examples *)

Definition ints (l : list Z) : bytes := map byte_of_Z l.

Definition link (incoming : bytes) : transport.Transport :=
  {| transport.buffered := []; transport.incoming := incoming;
     transport.written := [] |}.

(** Eight bytes in answer to the mode escape, then the reply to [Init]. *)
Definition script_init : bytes :=
  ints [1; 2; 3; 4; 5; 6; 7; 8] ++ ints [0; 0; 0; 9; 1; 0; 0x80; 0; 0x10].

(** Then the replies to [GetSocketID] (socket 2), to [OpenChannel] (psid 2,
    ssid 2, the given mtu and credit) and to [Credit]. *)
Definition script_open (mtu credit : Z) : bytes :=
  script_init
    ++ ints [0; 0; 0; 9; 1; 0; 0x89; 0; 2]
    ++ ints [0; 0; 0; 16; 1; 0; 0x81; 0; 2; 2; mtu / 256; mtu mod 256; 0; 1;
             credit / 256; credit mod 256]
    ++ ints [0; 0; 0; 8; 1; 0; 0x83; 0].

(** The reply to a [CreditRequest] for that channel, granting [n]. *)
Definition script_grant (n : Z) : bytes :=
  ints [0; 0; 0; 12; 1; 0; 0x84; 0; 2; 2; n / 256; n mod 256].

(** The engine just constructed. *)
Definition engine_constructed : D4 :=
  state_of (D4_init 1 (link script_init)).

(** The engine with the control channel entered, as [D4ControlBackend]
    leaves it; the channel is object 1. *)
Definition engine_entered (mtu credit : Z) (more : bytes) : D4 :=
  state_of (backend_enter 1 (link (script_open mtu credit ++ more))).

(** A data packet for that channel: two bytes of payload, no credit. *)
Definition data_packet_bytes : bytes := ints [2; 2; 0; 8; 0; 0; 65; 66].

(** The engine after the device has sent two data packets in a row on the
    entered channel and both were read: construction, [channel], the
    entering, two reads. *)
Definition engine_overrun_start : D4 :=
  state_of (D4_init 1 (link (script_open 512 1 ++ data_packet_bytes
                               ++ data_packet_bytes))).

Definition engine_overrun : D4 :=
  run_call 1 (CallRead 1)
    (run_call 1 (CallRead 1)
       (run_call 1 (CallEnter 1)
          (run_call 1 (CallChannel "EPSON-CTRL") engine_overrun_start))).

(** The claim of the spec on a write of nothing: some packet goes out on
    the channel, with control = 2. *)
Definition empty_write_emits (budget : nat) (self : nat) (s : D4) : Prop :=
  exists pk,
    In pk (sent_on self
             (events_since s (state_of (channel_write budget self [] s))))
    /\ D4Packet.control pk = 2.

(** The conservation law with the credit fields alone. *)
Definition conserved_by_credit_fields (c : nat) (s s' : D4) : Prop :=
  D4Channel.tx_credits (chan c s')
  = D4Channel.tx_credits (chan c s)
    + credits_received c (events_since s s')
    - packets_sent c (events_since s s').

(** The same construction with no credit in the reply to [Init], then the
    reply to [Exit]. *)
Definition script_init_exit : bytes :=
  ints [1; 2; 3; 4; 5; 6; 7; 8] ++ ints [0; 0; 0; 9; 0; 0; 0x80; 0; 0x10]
    ++ ints [0; 0; 0; 8; 0; 0; 0x88; 0].

(** The replies to [CloseChannel], and to [OpenChannel] and [Credit] once
    more. *)
Definition script_reenter : bytes :=
  ints [0; 0; 0; 8; 1; 0; 0x82; 0]
    ++ ints [0; 0; 0; 16; 1; 0; 0x81; 0; 2; 2; 2; 0; 0; 1; 0; 1]
    ++ ints [0; 0; 0; 8; 1; 0; 0x83; 0].

(** *** Packets on the link *)

(** The fields of a packet fit the six bytes of the header. *)
Definition packable (p : D4Packet.t) : Prop :=
  (exists q, D4Packet.psid p = Some q /\ 0 <= q < 256)
  /\ 0 <= D4Packet.ssid p < 256
  /\ len (D4Packet.payload p) < 65530
  /\ 0 <= D4Packet.credit p < 256
  /\ 0 <= D4Packet.control p < 256.

(** The bytes the device has sent that no read has taken yet. *)
Definition inbound (t : transport.Transport) : bytes :=
  transport.buffered t ++ transport.incoming t.

(** The events of a read from the link: packets delivered or dropped. *)
Definition is_inbound (e : event) : Prop :=
  match e with
  | Delivered _ _ | Dropped _ => True
  | _ => False
  end.

(** The packet [command] sends for a command. *)
Definition command_packet (cmd : D4Command.t) (payload : bytes) : D4Packet.t :=
  D4Packet.Build (Some 0) 0 1 0 (byte_of_Z (D4Command.value cmd) :: payload).

(** [s'] is [s] after the packets of [evs] were read from the link, each
    delivered to a channel of the table or dropped: nothing is written,
    the table and the channels' own fields stay, every delivery takes one
    from the channel's rx_credits and adds the packet's credit to its
    tx_credits. *)
Definition link_read (evs : list event) (s s' : D4) : Prop :=
  trace s' = trace s ++ evs
  /\ Forall is_inbound evs
  /\ transport.written (transport s') = transport.written (transport s)
  /\ open_channels s' = open_channels s
  /\ next_ref s' = next_ref s
  /\ forall c,
       static (chan c s') = static (chan c s)
       /\ D4Channel.rx_credits (chan c s')
          = D4Channel.rx_credits (chan c s) - len (delivered_to c evs)
       /\ D4Channel.tx_credits (chan c s')
          = D4Channel.tx_credits (chan c s) + credits_received c evs.

(** The engine constructed over a link that then delivers [more]. *)
Definition engine_constructed_with (more : bytes) : D4 :=
  state_of (D4_init 1 (link (script_init ++ more))).

(** The reply to [GetSocketID] of [script_open], alone. *)
Definition script_socket : bytes := ints [0; 0; 0; 9; 1; 0; 0x89; 0; 2].

(** The engine after [channel] has made the object of the control
    channel, not yet entered; the replies to [OpenChannel] and [Credit],
    then [more], are still to come. *)
Definition engine_with_channel (more : bytes) : D4 :=
  run_call 1 (CallChannel "EPSON-CTRL")
    (state_of (D4_init 1 (link (script_open 512 1 ++ more)))).

(** The reply to [CloseChannel] for that channel. *)
Definition script_close : bytes := ints [0; 0; 0; 8; 1; 0; 0x82; 0].

(** The data packet of [data_packet_bytes]. *)
Definition data_packet_AB : D4Packet.t :=
  D4Packet.Build (Some 2) 2 0 0 [x41; x42].

(** *** Status payloads *)

(** A call that returns a value. *)
Definition returns {A : Type} (r : result A) : Prop := exists a, r = Ok a.

(** The bytes of one item: tag, length, data. *)
Definition encode_entry (e : utils.entry) : bytes :=
  let '(header, parameter_length, parameter_data) := e in
  byte_of_Z header :: byte_of_Z parameter_length :: parameter_data.

Definition encode_entries (es : list utils.entry) : bytes :=
  flat_map encode_entry es.

(** A status payload: the length of the items on two bytes, little endian,
    then the items. *)
Definition encode_status (es : list utils.entry) : bytes :=
  little_digits 2 (len (encode_entries es)) ++ encode_entries es.

(** An item as the decoder yields them: a tag of one byte and the length
    of its data, below 256. *)
Definition well_formed (e : utils.entry) : Prop :=
  let '(header, parameter_length, parameter_data) := e in
  0 <= header < 256
  /\ parameter_length = len parameter_data
  /\ parameter_length < 256.

(** All the items, but a last item without data. *)
Fixpoint yielded (es : list utils.entry) : list utils.entry :=
  match es with
  | [] => []
  | [(_, _, [])] => []
  | e :: rest => e :: yielded rest
  end.

(** The items [Status.from_bytes] can apply: data for the tags it indexes
    and, in an ink field, a field size other than zero and only fields of
    three bytes or more. *)
Definition entry_ok (e : utils.entry) : bool :=
  let '(header, _, parameter_data) := e in
  if (header =? 0x01) || (header =? 0x02) || (header =? 0x06)
     || (header =? 0x0D) then negb (len parameter_data =? 0)
  else if header =? 0x0F then
    match parameter_data with
    | [] => false
    | size :: fields =>
        let n := byte_val size in
        negb (n =? 0)
        && ((len fields =? 0)
            || ((3 <=? n)
                && ((len fields mod n =? 0) || (3 <=? len fields mod n))))
    end
  else true.

(** The first byte of the data of an item, 0 for no data. *)
Definition head_value (parameter_data : bytes) : Z :=
  match parameter_data with
  | b :: _ => byte_val b
  | [] => 0
  end.

(** The data of the last item of [es] with tag [header]. *)
Fixpoint last_data (header : Z) (es : list utils.entry) : option bytes :=
  match es with
  | [] => None
  | (h, _, d) :: rest =>
      match last_data header rest with
      | Some d' => Some d'
      | None => if h =? header then Some d else None
      end
  end.

(** *** Printer queries *)

(** The frame [get_status] sends: [st], the length 1, the byte 1. *)
Definition status_request : bytes := bytes_of_string "st" ++ [x01; x00; x01].

(** The frame of a factory command whose action code is [code]. *)
Definition factory_request (model code payload : bytes) : bytes :=
  bytes_of_string "||"
    ++ little_digits 2 (len model + 3 + len payload)
    ++ model ++ code ++ payload.

(** The frame [read_eeprom] sends for an address. *)
Definition read_request (device : devices.Device) (address : Z) : bytes :=
  factory_request (devices.model device) [x41; xbe; xa0]
    (little_digits 2 address).

(** The frame [write_eeprom] sends for an address and a value. *)
Definition write_request (device : devices.Device) (address value : Z)
  : bytes :=
  factory_request (devices.model device) [x42; xbd; x21]
    (little_digits 2 address ++ little_digits 1 value ++ devices.key device).

(** *** Device identifiers *)

(** A key or value that holds neither [;] nor [:]. *)
Definition plain (s : string) : Prop :=
  Forall (fun c => c <> ";"%char /\ c <> ":"%char) (list_ascii_of_string s).

(** One field of an identifier, [key:value]. *)
Definition render_field (kv : string * string) : string :=
  (fst kv ++ ":" ++ snd kv)%string.

(** An identifier: every field followed by [;]. *)
Fixpoint render_identifier (items : list (string * string)) : string :=
  match items with
  | [] => EmptyString
  | kv :: rest => (render_field kv ++ ";" ++ render_identifier rest)%string
  end.

(** The dict the items make when set one after the other. *)
Definition dict_of (items : list (string * string)) : dict :=
  fold_left (fun d kv => dict_set (fst kv) (snd kv) d) items [].

(** How often a character occurs in a string. *)
Fixpoint occurrences (c : ascii) (s : string) : nat :=
  match s with
  | EmptyString => O
  | String c' rest =>
      if Ascii.eqb c' c then S (occurrences c rest) else occurrences c rest
  end.

(** *** The table of the engines a program can hold *)

(** Every psid of the table is a byte, and every channel it holds is one
    the engine has made. *)
Definition table_wf (s : D4) : Prop :=
  forall p c,
    open_channels s !! p = Some c -> 0 <= p < 256 /\ allocated c s.

(** *** Queues across calls *)

(** [s'] is [s] after the events [evs]: the table is as it was, and the
    queue of every channel but the one the table holds at psid 0 has
    grown by the packets delivered to that channel. *)
Definition queues_grow (evs : list event) (s s' : D4) : Prop :=
  trace s' = trace s ++ evs
  /\ open_channels s' = open_channels s
  /\ forall c,
       open_channels s !! 0 <> Some c ->
       D4Channel.rx_queue (chan c s')
       = D4Channel.rx_queue (chan c s) ++ delivered_to c evs.

End props.

(* ===================================================================== *)
(** ** Properties *)
(* ===================================================================== *)

Import Py props.

(** *** Bytes and slices *)

Lemma byte_val_range (b : byte) : 0 <= byte_val b < 256.
Proof.
  unfold byte_val. pose proof (Byte.to_N_bounded b). lia.
Qed.

Lemma byte_val_of_Z (z : Z) : 0 <= z < 256 -> byte_val (byte_of_Z z) = z.
Proof.
  intros Hz. unfold byte_of_Z, byte_val.
  rewrite Z.mod_small by lia.
  destruct (Byte.of_N (Z.to_N z)) as [b|] eqn:Hb.
  - apply Byte.to_of_N in Hb. rewrite Hb. lia.
  - apply Byte.of_N_None_iff in Hb. lia.
Qed.

Lemma len_nonneg {A : Type} (l : list A) : 0 <= len l.
Proof. unfold len. lia. Qed.

Lemma getitem_in_range (data : bytes) (i : Z) :
  0 <= i < len data ->
  exists v, getitem data i = Ok v /\ 0 <= v < 256.
Proof.
  intros Hi. unfold getitem.
  replace (i <? 0) with false by (symmetry; apply Z.ltb_ge; lia).
  replace (0 <=? i) with true by (symmetry; apply Z.leb_le; lia).
  replace (i <? len data) with true by (symmetry; apply Z.ltb_lt; lia).
  simpl.
  destruct (data !! Z.to_nat i) as [b|] eqn:Hb.
  - exists (byte_val b). split; [reflexivity | apply byte_val_range].
  - apply lookup_ge_None in Hb. unfold len in Hi. lia.
Qed.

Lemma len_slice {A : Type} (data : list A) (a n : Z) :
  0 <= a <= len data -> 0 <= n ->
  len (slice data a (a + n)) = Z.min n (len data - a).
Proof.
  intros Ha Hn. unfold slice, slice_bound.
  replace (a <? 0) with false by (symmetry; apply Z.ltb_ge; lia).
  replace (a + n <? 0) with false by (symmetry; apply Z.ltb_ge; lia).
  unfold len in *. rewrite length_take, length_drop. lia.
Qed.

(** *** utils.parse_status_struct *)

Lemma entries_spec (data : bytes) (length : Z) :
  length + 2 <= len data ->
  forall (budget : nat) (index : Z),
    0 <= index -> length - index <= Z.of_nat budget ->
    exists es,
      utils.entries budget data length index = Ok es
      /\ Forall2 (entry_at data length) (offsets index es) es
      /\ length <= end_offset index es.
Proof.
  intros Hlen budget. induction budget as [|budget IH]; intros index Hidx Hbud.
  - exists []. simpl. repeat split; [constructor | lia].
  - simpl. destruct (index <? length) eqn:Hlt.
    + apply Z.ltb_lt in Hlt.
      destruct (getitem_in_range data index) as (h & Hh & _); [lia|].
      destruct (getitem_in_range data (index + 1)) as (pl & Hpl & Hplr); [lia|].
      rewrite Hh. simpl. rewrite Hpl. simpl.
      destruct (IH (index + 1 + 1 + pl)) as (es & Hes & Hall & Hend); [lia | lia |].
      rewrite Hes. simpl.
      exists ((h, pl, slice data (index + 1 + 1) (index + 1 + 1 + pl)) :: es).
      replace (index + 1 + 1) with (index + 2) in * by lia.
      split; [reflexivity|]. split.
      * simpl. constructor; [|exact Hall].
        unfold entry_at. repeat split; try assumption.
        apply len_slice; lia.
      * simpl. exact Hend.
    + apply Z.ltb_ge in Hlt. exists []. simpl.
      repeat split; [constructor | lia].
Qed.

Lemma getitem_value (data : bytes) (i v : Z) :
  getitem data i = Ok v -> 0 <= v < 256.
Proof.
  unfold getitem. destruct (_ && _); [|discriminate].
  destruct (data !! _) as [b|]; [|discriminate].
  intros H. injection H as <-. apply byte_val_range.
Qed.

(** The loop of the decoder never uses its budget up. *)
Lemma entries_enough (data : bytes) (length : Z) :
  forall (budget budget' : nat) (index : Z),
    length - index <= Z.of_nat budget ->
    length - index <= Z.of_nat budget' ->
    utils.entries budget data length index
    = utils.entries budget' data length index.
Proof.
  induction budget as [|budget IH]; intros budget' index Hb Hb'.
  - destruct budget' as [|budget']; [reflexivity|]. simpl.
    replace (index <? length) with false by (symmetry; apply Z.ltb_ge; lia).
    reflexivity.
  - destruct budget' as [|budget']; simpl.
    + replace (index <? length) with false by (symmetry; apply Z.ltb_ge; lia).
      reflexivity.
    + destruct (index <? length); [|reflexivity].
      destruct (getitem data index) as [h|e]; [|reflexivity]. simpl.
      destruct (getitem data (index + 1)) as [pl|e] eqn:Hpl; [|reflexivity].
      simpl. apply getitem_value in Hpl.
      rewrite (IH budget' (index + 1 + 1 + pl)) by lia. reflexivity.
Qed.

(** Nor does the cutting of an ink field into windows. *)
Lemma ink_windows_enough (parameter_data : bytes) (entry_size : Z) :
  0 < entry_size ->
  forall (budget budget' : nat) (i : Z),
    len parameter_data - i <= Z.of_nat budget ->
    len parameter_data - i <= Z.of_nat budget' ->
    status.Status.ink_windows budget parameter_data entry_size i
    = status.Status.ink_windows budget' parameter_data entry_size i.
Proof.
  intros Hsize. induction budget as [|budget IH]; intros budget' i Hb Hb'.
  - destruct budget' as [|budget']; [reflexivity|]. simpl.
    replace (i <? len parameter_data) with false
      by (symmetry; apply Z.ltb_ge; lia).
    reflexivity.
  - destruct budget' as [|budget']; simpl.
    + replace (i <? len parameter_data) with false
        by (symmetry; apply Z.ltb_ge; lia).
      reflexivity.
    + destruct (i <? len parameter_data); [|reflexivity].
      f_equal. apply IH; lia.
Qed.

Lemma parse_status_struct_agree (data : bytes) :
  len data = declared_length data + 2 ->
  exists es,
    utils.parse_status_struct data = Ok es
    /\ Forall2 (entry_at data (declared_length data)) (offsets 2 es) es
    /\ declared_length data <= end_offset 2 es.
Proof.
  intros Hlen. unfold utils.parse_status_struct.
  fold (declared_length data).
  replace (len data =? declared_length data + 2) with true
    by (symmetry; apply Z.eqb_eq; exact Hlen).
  simpl. apply entries_spec; lia.
Qed.

Lemma parse_status_struct_differ (data : bytes) :
  len data <> declared_length data + 2 ->
  utils.parse_status_struct data = Raise utils.length_invalid.
Proof.
  intros Hlen. unfold utils.parse_status_struct.
  fold (declared_length data).
  replace (len data =? declared_length data + 2) with false
    by (symmetry; apply Z.eqb_neq; exact Hlen).
  reflexivity.
Qed.

(** C7.  The status TLV decoder fails with the format error
    ("Status payload length invalid") exactly when the length of the input
    differs from the little-endian u16 in its first two bytes plus 2; when
    the lengths agree it raises nothing at all. *)
Theorem parse_status_struct_length_check (data : bytes) :
  (utils.parse_status_struct data = Raise utils.length_invalid
   <-> len data <> declared_length data + 2)
  /\ (len data = declared_length data + 2 ->
      forall e, utils.parse_status_struct data <> Raise e).
Proof.
  split; [split|].
  - intros Hr Hlen. apply parse_status_struct_agree in Hlen.
    destruct Hlen as (es & Hes & _). congruence.
  - apply parse_status_struct_differ.
  - intros Hlen e Hr. apply parse_status_struct_agree in Hlen.
    destruct Hlen as (es & Hes & _). congruence.
Qed.

Lemma parse_status_struct_length_check_witness :
  (len [x01; x00; x07] = declared_length [x01; x00; x07] + 2)
  /\ forall e, utils.parse_status_struct [x01; x00; x07] <> Raise e.
Proof.
  split; [reflexivity|].
  apply (proj2 (parse_status_struct_length_check [x01; x00; x07])).
  reflexivity.
Defined.

(** C10.  When the outer length check passes, the decoder raises nothing:
    it yields one item per pass of its loop, each made of the tag and the
    declared length found at its offset and of as much data as the buffer
    still holds, so an item whose declared length overruns the buffer is
    yielded with shorter data. *)
Theorem parse_status_struct_total (data : bytes) :
  len data = declared_length data + 2 ->
  exists es,
    utils.parse_status_struct data = Ok es
    /\ Forall2 (entry_at data (declared_length data)) (offsets 2 es) es
    /\ declared_length data <= end_offset 2 es.
Proof. apply parse_status_struct_agree. Qed.

Lemma parse_status_struct_total_witness :
  exists es,
    utils.parse_status_struct [x05; x00; x01; xc8; x04; x05; x06] = Ok es
    /\ Forall2 (entry_at [x05; x00; x01; xc8; x04; x05; x06] 5) (offsets 2 es) es
    /\ 5 <= end_offset 2 es.
Proof.
  apply (parse_status_struct_total [x05; x00; x01; xc8; x04; x05; x06]).
  reflexivity.
Defined.

(** The overrunning item of the witness: 200 bytes declared, 3 yielded. *)
Example parse_status_struct_overrun :
  utils.parse_status_struct [x05; x00; x01; xc8; x04; x05; x06]
  = Ok [(1, 200, [x04; x05; x06])].
Proof. reflexivity. Qed.

(** *** status.ConsumableLevel.from_int *)

Import status.

(** C6.  [ConsumableLevel.from_int] maps 110 to (-1, MISSING), 105 to
    (-1, UNKNOWN), any other value below 0 or above 100 to (-1, FAIL), 0 to
    (0, EMPTY) and every value from 1 to 100 to itself with OKAY; so 50
    gives OKAY/50 and 200 gives FAIL/-1. *)
Theorem ConsumableLevel_from_int_mapping (v : Z) :
  (v = 110 ->
   ConsumableLevel.from_int v = ConsumableLevel.Build (-1) ConsumableStatus.MISSING)
  /\ (v = 105 ->
      ConsumableLevel.from_int v = ConsumableLevel.Build (-1) ConsumableStatus.UNKNOWN)
  /\ (v <> 110 -> v <> 105 -> v < 0 \/ 100 < v ->
      ConsumableLevel.from_int v = ConsumableLevel.Build (-1) ConsumableStatus.FAIL)
  /\ (v = 0 ->
      ConsumableLevel.from_int v = ConsumableLevel.Build 0 ConsumableStatus.EMPTY)
  /\ (1 <= v <= 100 ->
      ConsumableLevel.from_int v = ConsumableLevel.Build v ConsumableStatus.OKAY)
  /\ ConsumableLevel.from_int 50 = ConsumableLevel.Build 50 ConsumableStatus.OKAY
  /\ ConsumableLevel.from_int 200 = ConsumableLevel.Build (-1) ConsumableStatus.FAIL.
Proof.
  unfold ConsumableLevel.from_int.
  repeat split; intros; subst; try reflexivity.
  - destruct (Z.eqb_spec v 110); [contradiction|].
    destruct (Z.eqb_spec v 105); [contradiction|].
    destruct (Z.ltb_spec v 0); [reflexivity|].
    destruct (Z.ltb_spec 100 v); [reflexivity|]. lia.
  - destruct (Z.eqb_spec v 110); [lia|].
    destruct (Z.eqb_spec v 105); [lia|].
    destruct (Z.ltb_spec v 0); [lia|].
    destruct (Z.ltb_spec 100 v); [lia|].
    destruct (Z.eqb_spec v 0); [lia|]. reflexivity.
Qed.

Lemma ConsumableLevel_from_int_mapping_witness :
  ConsumableLevel.from_int 110 = ConsumableLevel.Build (-1) ConsumableStatus.MISSING
  /\ ConsumableLevel.from_int 105 = ConsumableLevel.Build (-1) ConsumableStatus.UNKNOWN
  /\ ConsumableLevel.from_int (-3) = ConsumableLevel.Build (-1) ConsumableStatus.FAIL
  /\ ConsumableLevel.from_int 0 = ConsumableLevel.Build 0 ConsumableStatus.EMPTY
  /\ ConsumableLevel.from_int 77 = ConsumableLevel.Build 77 ConsumableStatus.OKAY.
Proof.
  split; [|split; [|split; [|split]]].
  - apply (proj1 (ConsumableLevel_from_int_mapping 110)). reflexivity.
  - apply (proj1 (proj2 (ConsumableLevel_from_int_mapping 105))). reflexivity.
  - apply (proj1 (proj2 (proj2 (ConsumableLevel_from_int_mapping (-3))))); lia.
  - apply (proj1 (proj2 (proj2 (proj2 (ConsumableLevel_from_int_mapping 0))))).
    reflexivity.
  - apply (proj1 (proj2 (proj2 (proj2 (proj2
             (ConsumableLevel_from_int_mapping 77)))))); lia.
Defined.

(** *** status.Status.from_bytes *)

Ltac result_cases :=
  repeat match goal with
  | H : Py.bind ?m _ = Ok _ |- _ =>
      let E := fresh "E" in destruct m eqn:E; simpl in H; [|discriminate H]
  | H : (if ?b then _ else _) = Ok _ |- _ =>
      let E := fresh "E" in destruct b eqn:E; try discriminate H
  | H : Ok _ = Ok _ |- _ => injection H as H; subst
  end.

Lemma apply_entry_fields (st st' : Status.t) (e : utils.entry) :
  Status.apply_entry st e = Ok st' ->
  (header_of e <> 0x01 -> Status.state st' = Status.state st)
  /\ (header_of e <> 0x02 -> Status.error st' = Status.error st)
  /\ (header_of e <> 0x06 -> Status.source st' = Status.source st)
  /\ (header_of e <> 0x0F -> Status.levels st' = Status.levels st)
  /\ (header_of e <> 0x0D ->
      Status.maintenance_box st' = Status.maintenance_box st)
  /\ (header_of e <> 0x40 -> Status.serial st' = Status.serial st)
  /\ (In (header_of e) known_tags -> Status.other st' = Status.other st).
Proof.
  destruct e as [[h pl] pd]. unfold header_of, known_tags. simpl.
  intros Happ.
  destruct (Z.eqb_spec h 1); [result_cases; simpl; intuition congruence|].
  destruct (Z.eqb_spec h 2); [result_cases; simpl; intuition congruence|].
  destruct (Z.eqb_spec h 6); [result_cases; simpl; intuition congruence|].
  destruct (Z.eqb_spec h 13); [result_cases; simpl; intuition congruence|].
  destruct (Z.eqb_spec h 15); [result_cases; simpl; intuition congruence|].
  destruct (Z.eqb_spec h 64); [result_cases; simpl; intuition congruence|].
  result_cases. simpl. intuition congruence.
Qed.

Lemma apply_entries_fields (es : list utils.entry) :
  forall st st',
    Status.apply_entries st es = Ok st' ->
    (~ In 0x01 (map header_of es) -> Status.state st' = Status.state st)
    /\ (~ In 0x02 (map header_of es) -> Status.error st' = Status.error st)
    /\ (~ In 0x06 (map header_of es) -> Status.source st' = Status.source st)
    /\ (~ In 0x0F (map header_of es) -> Status.levels st' = Status.levels st)
    /\ (~ In 0x0D (map header_of es) ->
        Status.maintenance_box st' = Status.maintenance_box st)
    /\ (~ In 0x40 (map header_of es) -> Status.serial st' = Status.serial st)
    /\ (Forall (fun e => In (header_of e) known_tags) es ->
        Status.other st' = Status.other st).
Proof.
  induction es as [|e es IH]; intros st st' Happ; simpl in Happ.
  - injection Happ as <-. repeat split; reflexivity.
  - destruct (Status.apply_entry st e) as [st1|] eqn:He; [|discriminate].
    simpl in Happ.
    destruct (apply_entry_fields _ _ _ He) as (A1 & A2 & A3 & A4 & A5 & A6 & A7).
    destruct (IH _ _ Happ) as (B1 & B2 & B3 & B4 & B5 & B6 & B7).
    simpl.
    repeat split; intros Hn;
      try (rewrite <- ?A1, <- ?A2, <- ?A3, <- ?A4, <- ?A5, <- ?A6 by tauto;
           solve [ apply B1; tauto | apply B2; tauto | apply B3; tauto
                 | apply B4; tauto | apply B5; tauto | apply B6; tauto ]).
    inversion Hn; subst. rewrite <- A7 by assumption. apply B7. assumption.
Qed.

(** C9.  When decoding a status payload succeeds, every field whose tag the
    payload does not carry has its default: state IDLE, error NONE, source
    UNKNOWN, levels the empty list, maintenance_box (-1, UNKNOWN), serial
    the empty string, and other the empty map when no unknown tag occurs. *)
Theorem Status_from_bytes_defaults (data : bytes) (st : Status.t) :
  Status.from_bytes data = Ok st ->
  exists es,
    utils.parse_status_struct data = Ok es
    /\ (~ In 0x01 (map header_of es) -> Status.state st = PrinterState.IDLE)
    /\ (~ In 0x02 (map header_of es) -> Status.error st = PrinterError.NONE)
    /\ (~ In 0x06 (map header_of es) -> Status.source st = PaperPath.UNKNOWN)
    /\ (~ In 0x0F (map header_of es) -> Status.levels st = [])
    /\ (~ In 0x0D (map header_of es) ->
        Status.maintenance_box st
        = ConsumableLevel.Build (-1) ConsumableStatus.UNKNOWN)
    /\ (~ In 0x40 (map header_of es) -> Status.serial st = EmptyString)
    /\ (Forall (fun e => In (header_of e) known_tags) es ->
        Status.other st = ∅).
Proof.
  unfold Status.from_bytes. intros Hst.
  destruct (utils.parse_status_struct data) as [es|] eqn:Hes; [|discriminate].
  simpl in Hst. exists es. split; [reflexivity|].
  exact (apply_entries_fields es _ _ Hst).
Qed.

(** A payload with a state entry (BUSY) and nothing else. *)
Lemma Status_from_bytes_defaults_witness :
  exists st,
    Status.from_bytes [x03; x00; x01; x01; x02] = Ok st
    /\ Status.state st = PrinterState.BUSY
    /\ Status.error st = PrinterError.NONE
    /\ Status.source st = PaperPath.UNKNOWN
    /\ Status.levels st = []
    /\ Status.maintenance_box st
       = ConsumableLevel.Build (-1) ConsumableStatus.UNKNOWN
    /\ Status.serial st = EmptyString
    /\ Status.other st = ∅.
Proof.
  eexists. split; [reflexivity|].
  destruct (Status_from_bytes_defaults
              [x03; x00; x01; x01; x02] _ eq_refl)
    as (es & Hes & _ & H2 & H3 & H4 & H5 & H6 & H7).
  injection Hes as <-.
  split; [reflexivity|].
  split; [apply H2; simpl; intuition discriminate|].
  split; [apply H3; simpl; intuition discriminate|].
  split; [apply H4; simpl; intuition discriminate|].
  split; [apply H5; simpl; intuition discriminate|].
  split; [apply H6; simpl; intuition discriminate|].
  apply H7. repeat constructor.
Defined.

(** *** printer.Printer *)

Import control devices printer.

Lemma action_code_law_all :
  forallb action_code_law (map Z.of_nat (seq 0 256)) = true.
Proof. vm_compute. reflexivity. Qed.

Lemma action_code_bytes (a : Z) :
  0 <= a <= 255 ->
  exists b0 b1 b2,
    printer.action_code a = Ok [b0; b1; b2]
    /\ byte_val b0 = a
    /\ byte_val b1 = Z.lxor a 0xFF
    /\ byte_val b2 = rotated a.
Proof.
  intros Ha.
  assert (Hin : In a (map Z.of_nat (seq 0 256))).
  { apply in_map_iff. exists (Z.to_nat a). split; [lia|].
    apply in_seq. lia. }
  pose proof (proj1 (forallb_forall _ _) action_code_law_all a Hin) as Hlaw.
  unfold action_code_law in Hlaw.
  destruct (printer.action_code a) as [[|b0 [|b1 [|b2 [|? ?]]]]|];
    try discriminate Hlaw.
  apply andb_prop in Hlaw. destruct Hlaw as [Hlaw H2].
  apply andb_prop in Hlaw. destruct Hlaw as [H0 H1].
  exists b0, b1, b2. repeat split; try apply Z.eqb_eq; assumption.
Qed.

Lemma to_bytes_little_fits (x : Z) (n : nat) :
  0 <= x < 256 ^ Z.of_nat n -> to_bytes_little x n = Ok (little_digits n x).
Proof.
  intros Hx. unfold to_bytes_little.
  replace (0 <=? x) with true by (symmetry; apply Z.leb_le; lia).
  replace (x <? 256 ^ Z.of_nat n) with true by (symmetry; apply Z.ltb_lt; lia).
  reflexivity.
Qed.

Lemma to_bytes_little_overflow (x : Z) (n : nat) :
  256 ^ Z.of_nat n <= x -> to_bytes_little x n = Raise OverflowError.
Proof.
  intros Hx. unfold to_bytes_little.
  replace (x <? 256 ^ Z.of_nat n) with false by (symmetry; apply Z.ltb_ge; lia).
  rewrite andb_false_r. reflexivity.
Qed.

(** C5.  For an action byte [a] in 0..255 the facade builds the action code
    [a, a XOR 0xFF, ((a >> 1) & 0x7F) | ((a << 7) & 0x80)] and hands the
    backend the frame ["||" | length:u16le | model | action code | payload],
    whatever the model and the payload (a frame body of 65536 bytes or more
    has no u16 length: the send then raises OverflowError and reaches no
    backend).  Action 0x41 gives 0xBE, 0xA0 and action 0x42 gives 0xBD,
    0x21. *)
Theorem factory_action_code {B : Type} `{ControlBackend B}
    (a : Z) (model payload : bytes) (b : B) :
  0 <= a <= 255 ->
  exists code,
    printer.action_code a = Ok code
    /\ map byte_val code = [a; Z.lxor a 0xFF; rotated a]
    /\ (len (model ++ code ++ payload) < 65536 ->
        printer.send_factory_command model a payload b
        = send (bytes_of_string "||"
                  ++ little_digits 2 (len (model ++ code ++ payload))
                  ++ model ++ code ++ payload) b)
    /\ (65536 <= len (model ++ code ++ payload) ->
        printer.send_factory_command model a payload b = (Raise OverflowError, b))
    /\ (a = 0x41 -> map byte_val code = [0x41; 0xBE; 0xA0])
    /\ (a = 0x42 -> map byte_val code = [0x42; 0xBD; 0x21]).
Proof.
  intros Ha.
  destruct (action_code_bytes a Ha) as (b0 & b1 & b2 & Hcode & H0 & H1 & H2).
  exists [b0; b1; b2].
  assert (Hmap : map byte_val [b0; b1; b2] = [a; Z.lxor a 0xFF; rotated a]).
  { simpl. rewrite H0, H1, H2. reflexivity. }
  split; [exact Hcode|]. split; [exact Hmap|].
  unfold printer.send_factory_command, printer.factory_frame,
    printer.command_frame.
  rewrite Hcode. simpl Py.bind.
  split; [|split; [|split]].
  - intros Hfit. rewrite to_bytes_little_fits.
    + reflexivity.
    + pose proof (len_nonneg (model ++ [b0; b1; b2] ++ payload)).
      assert (Hpow : 256 ^ Z.of_nat 2 = 65536) by reflexivity.
      rewrite Hpow. simpl app in *. lia.
  - intros Hbig. rewrite to_bytes_little_overflow; [reflexivity|].
    assert (Hpow : 256 ^ Z.of_nat 2 = 65536) by reflexivity.
    rewrite Hpow. simpl app in *. lia.
  - intros ->. rewrite Hmap. reflexivity.
  - intros ->. rewrite Hmap. reflexivity.
Qed.

(** The read of EEPROM address 0x0010 on a device whose model bytes are
    [4C 4A], sent to a logging backend. *)
Lemma factory_action_code_witness :
  exists code,
    printer.action_code 0x41 = Ok code
    /\ map byte_val code = [0x41; 0xBE; 0xA0]
    /\ printer.sent
         (snd (printer.send_factory_command (B := printer.Logged (list (result bytes)))
                 [x4c; x4a] 0x41 [x10; x00]
                 {| printer.inner := [Ok []]; printer.sent := [] |}))
       = [[x7c; x7c; x07; x00; x4c; x4a] ++ code ++ [x10; x00]].
Proof.
  assert (Ha : 0 <= 0x41 <= 255) by lia.
  destruct (factory_action_code (B := printer.Logged (list (result bytes)))
              0x41 [x4c; x4a] [x10; x00]
              {| printer.inner := [Ok []]; printer.sent := [] |} Ha)
    as (code & Hcode & _ & Hsend & _ & H41 & _).
  exists code. split; [exact Hcode|]. split; [apply H41; reflexivity|].
  injection Hcode as <-.
  rewrite Hsend by (vm_compute; reflexivity).
  reflexivity.
Defined.

Section ResetWaste.
Context {B : Type} `{ControlBackend B}.

Lemma write_eeprom_logged (device : Device) (addr value : Z)
    (s s' : printer.Logged B) (r : result bytes) :
  printer.write_eeprom device addr value s = (r, s') ->
  (exists e, printer.write_eeprom_frame device addr value = Raise e
             /\ r = Raise e /\ s' = s)
  \/ (exists f, printer.write_eeprom_frame device addr value = Ok f
                /\ printer.sent s' = printer.sent s ++ [f]).
Proof.
  unfold printer.write_eeprom.
  destruct (printer.write_eeprom_frame device addr value) as [f|e].
  - intros Hs. right. exists f. split; [reflexivity|].
    simpl in Hs. destruct (send f (printer.inner s)) as [r0 b0].
    injection Hs as _ <-. reflexivity.
  - intros Hs. left. exists e. injection Hs as <- <-. auto.
Qed.

Lemma writes_ok_logged (device : Device) (items : list (Z * Z))
    (s s' : printer.Logged B) :
  writes_ok device items s s' ->
  exists frames,
    Forall2 (frame_of device) items frames
    /\ printer.sent s' = printer.sent s ++ frames.
Proof.
  induction 1 as [s|addr value rest s r s1 s2 Hw Hrest (frames & Hall & Hsent)].
  - exists []. split; [constructor|]. rewrite app_nil_r. reflexivity.
  - destruct (write_eeprom_logged _ _ _ _ _ _ Hw)
      as [(e & _ & Hr & _)|(f & Hf & Hs1)]; [discriminate|].
    exists (f :: frames). split.
    + constructor; [exact Hf | exact Hall].
    + rewrite Hsent, Hs1, <- app_assoc. reflexivity.
Qed.

Lemma reset_items_run (device : Device) (items : list (Z * Z)) :
  forall s : printer.Logged B,
    match printer.reset_items device items s with
    | (Ok _, s') => writes_ok device items s s'
    | (Raise e, s') =>
        exists pre addr value post s1,
          items = pre ++ (addr, value) :: post
          /\ writes_ok device pre s s1
          /\ printer.write_eeprom device addr value s1 = (Raise e, s')
    end.
Proof.
  induction items as [|[addr value] rest IH]; intros s; simpl.
  - constructor.
  - destruct (printer.write_eeprom device addr value s) as [[r|e] s1] eqn:Hw.
    + specialize (IH s1).
      destruct (printer.reset_items device rest s1) as [[u|e] s2].
      * econstructor; eassumption.
      * destruct IH as (pre & a & v & post & s3 & -> & Hpre & Hfail).
        exists ((addr, value) :: pre), a, v, post, s3.
        split; [reflexivity|]. split; [|exact Hfail].
        econstructor; eassumption.
    + exists [], addr, value, rest, s. split; [reflexivity|].
      split; [constructor | exact Hw].
Qed.

(** C8.  [reset_waste] writes the pairs of the profile's reset map one
    after the other, one [write_eeprom] each: when it returns, every write
    was answered and the backend was sent exactly one frame per pair, in
    order.  When it raises, the error is the one of the first failing write
    and the backend was sent nothing for the pairs after it. *)
Theorem reset_waste_sequential (device : Device) (s : printer.Logged B) :
  match printer.reset_waste device s with
  | (Ok _, s') =>
      writes_ok device (reset device) s s'
      /\ exists frames,
           Forall2 (frame_of device) (reset device) frames
           /\ printer.sent s' = printer.sent s ++ frames
  | (Raise e, s') =>
      exists pre addr value post s1 frames,
        reset device = pre ++ (addr, value) :: post
        /\ writes_ok device pre s s1
        /\ printer.write_eeprom device addr value s1 = (Raise e, s')
        /\ Forall2 (frame_of device) pre frames
        /\ (printer.sent s' = printer.sent s ++ frames
            \/ exists f, frame_of device (addr, value) f
                         /\ printer.sent s' = printer.sent s ++ frames ++ [f])
  end.
Proof.
  unfold printer.reset_waste.
  pose proof (reset_items_run device (reset device) s) as Hrun.
  destruct (printer.reset_items device (reset device) s) as [[u|e] s'].
  - split; [exact Hrun|]. apply writes_ok_logged. exact Hrun.
  - destruct Hrun as (pre & addr & value & post & s1 & Hitems & Hpre & Hfail).
    destruct (writes_ok_logged _ _ _ _ Hpre) as (frames & Hall & Hsent).
    exists pre, addr, value, post, s1, frames.
    repeat (split; [assumption|]).
    destruct (write_eeprom_logged _ _ _ _ _ _ Hfail)
      as [(e' & _ & _ & ->)|(f & Hf & Hs')].
    + left. exact Hsent.
    + right. exists f. split; [exact Hf|].
      rewrite Hs', Hsent, <- app_assoc. reflexivity.
Qed.

End ResetWaste.

(** Three pairs, the second write refused by the device: one frame per
    attempted pair, none for the third. *)
Example reset_waste_stops :
  let device := {| model := [x4c]; key := [x6b]; counters := [];
                   reset := [(0x10, 0); (0x11, 0); (0x12, 0)] |} in
  let s := {| printer.inner := [Ok []; Raise OSError; Ok []];
              printer.sent := [] |} in
  fst (printer.reset_waste device s) = Raise OSError
  /\ map (map byte_val) (printer.sent (snd (printer.reset_waste device s)))
     = [[0x7c; 0x7c; 0x08; 0x00; 0x4c; 0x42; 0xbd; 0x21; 0x10; 0x00; 0x00; 0x6b];
        [0x7c; 0x7c; 0x08; 0x00; 0x4c; 0x42; 0xbd; 0x21; 0x11; 0x00; 0x00; 0x6b]].
Proof. vm_compute. split; reflexivity. Qed.

(** *** The D4 engine: rules for calls *)

Import d4.

Section Triples.
Context {A : Type}.

Lemma triple_bind {B : Type} (P : D4 -> Prop) (m : M A) (Q : A -> D4 -> Prop)
    (k : A -> M B) (Q' : B -> D4 -> Prop) (E : D4 -> Prop) :
  triple P m Q E ->
  (forall a, triple (Q a) (k a) Q' E) ->
  triple P (bind m k) Q' E.
Proof.
  intros Hm Hk s Hs. unfold bind. specialize (Hm s Hs).
  destruct (m s) as [a s'|e s'|s']; try assumption.
  exact (Hk a s' Hm).
Qed.

Lemma triple_conseq (P P' : D4 -> Prop) (m : M A) (Q Q' : A -> D4 -> Prop)
    (E E' : D4 -> Prop) :
  triple P m Q E ->
  (forall s, P' s -> P s) ->
  (forall a s, Q a s -> Q' a s) ->
  (forall s, E s -> E' s) ->
  triple P' m Q' E'.
Proof.
  intros Hm HP HQ HE s Hs. specialize (Hm s (HP s Hs)).
  destruct (m s); auto.
Qed.

Lemma triple_ret (P : D4 -> Prop) (a : A) (Q : A -> D4 -> Prop) (E : D4 -> Prop) :
  (forall s, P s -> Q a s) -> triple P (ret a) Q E.
Proof. intros H s Hs. simpl. auto. Qed.

Lemma triple_raise (P : D4 -> Prop) (e : exn) (Q : A -> D4 -> Prop)
    (E : D4 -> Prop) :
  (forall s, P s -> E s) -> triple P (raise e) Q E.
Proof. intros H s Hs. simpl. auto. Qed.

Lemma triple_lift (P : D4 -> Prop) (r : result A) (Q : A -> D4 -> Prop)
    (E : D4 -> Prop) :
  (forall a s, r = Ok a -> P s -> Q a s) ->
  (forall s, P s -> E s) ->
  triple P (lift r) Q E.
Proof. intros HQ HE s Hs. destruct r; simpl; auto. Qed.

Lemma triple_gets (P : D4 -> Prop) (f : D4 -> A) (Q : A -> D4 -> Prop)
    (E : D4 -> Prop) :
  (forall s, P s -> Q (f s) s) -> triple P (gets f) Q E.
Proof. intros H s Hs. simpl. auto. Qed.

(** A fact that does not depend on the state can be taken out of the
    precondition. *)
Lemma triple_pure (phi : Prop) (P : D4 -> Prop) (m : M A)
    (Q : A -> D4 -> Prop) (E : D4 -> Prop) :
  (phi -> triple P m Q E) -> triple (fun s => phi /\ P s) m Q E.
Proof. intros H s [Hphi Hs]. exact (H Hphi s Hs). Qed.

End Triples.

Lemma triple_assert (P : D4 -> Prop) (b : bool) (Q : unit -> D4 -> Prop)
    (E : D4 -> Prop) :
  (forall s, b = true -> P s -> Q tt s) ->
  (forall s, P s -> E s) ->
  triple P (assert b) Q E.
Proof. intros HQ HE s Hs. destruct b; simpl; auto. Qed.

Lemma triple_modify (P : D4 -> Prop) (f : D4 -> D4) (Q : unit -> D4 -> Prop)
    (E : D4 -> Prop) :
  (forall s, P s -> Q tt (f s)) -> triple P (modify f) Q E.
Proof. intros H s Hs. simpl. auto. Qed.

Lemma triple_lookup_channel (P : D4 -> Prop) (psid : Z) (Q : nat -> D4 -> Prop)
    (E : D4 -> Prop) :
  (forall s c, open_channels s !! psid = Some c -> P s -> Q c s) ->
  (forall s, P s -> E s) ->
  triple P (lookup_channel psid) Q E.
Proof.
  intros HQ HE s Hs. unfold lookup_channel.
  destruct (open_channels s !! psid) eqn:Hc; auto.
Qed.

(** *** Channels in the heap *)

Lemma chan_set_chan_eq (c : nat) (ch : D4Channel.t) (s : D4) :
  chan c (set_chan c ch s) = ch.
Proof. unfold chan, set_chan. simpl. apply lookup_total_insert_eq. Qed.

Lemma chan_set_chan_ne (c c' : nat) (ch : D4Channel.t) (s : D4) :
  c' <> c -> chan c (set_chan c' ch s) = chan c s.
Proof.
  intros Hne. unfold chan, set_chan. simpl.
  apply lookup_total_insert_ne. exact Hne.
Qed.

Lemma chan_set_chan (c c' : nat) (ch : D4Channel.t) (s : D4) :
  chan c (set_chan c' ch s) = if decide (c' = c) then ch else chan c s.
Proof.
  destruct (decide (c' = c)) as [->|Hne].
  - apply chan_set_chan_eq.
  - apply chan_set_chan_ne. exact Hne.
Qed.

Lemma chan_upd_sent (c c' : nat) (p : D4Packet.t) (fr : bytes) (s : D4) :
  chan c (upd_sent c' p fr s)
  = if decide (c' = c)
    then D4Channel.set_tx_credits (D4Channel.tx_credits (chan c s) - 1) (chan c s)
    else chan c s.
Proof.
  unfold upd_sent. change (chan c (log ?e ?s)) with (chan c s).
  rewrite chan_set_chan.
  change (chan c (set_transport ?t s)) with (chan c s).
  destruct (decide (c' = c)) as [->|]; reflexivity.
Qed.

Lemma chan_upd_delivered (c c' : nat) (p : D4Packet.t) (s : D4) :
  chan c (upd_delivered c' p s)
  = if decide (c' = c)
    then D4Channel.Build (D4Channel.ssid (chan c s)) (D4Channel.psid (chan c s))
           (D4Channel.mtu (chan c s))
           (D4Channel.tx_credits (chan c s) + D4Packet.credit p)
           (D4Channel.rx_credits (chan c s) - 1)
           (D4Channel.rx_credits_max (chan c s))
           (D4Channel.rx_queue (chan c s) ++ [p])
    else chan c s.
Proof.
  unfold upd_delivered. change (chan c (log ?e ?s)) with (chan c s).
  rewrite chan_set_chan. destruct (decide (c' = c)) as [->|]; reflexivity.
Qed.

Lemma chan_upd_popped (c c' : nat) (rest : list D4Packet.t) (s : D4) :
  chan c (upd_popped c' rest s)
  = if decide (c' = c) then D4Channel.set_rx_queue rest (chan c s)
    else chan c s.
Proof.
  unfold upd_popped. rewrite chan_set_chan.
  destruct (decide (c' = c)) as [->|]; reflexivity.
Qed.

Lemma chan_upd_granted (c c' : nat) (amount : Z) (s : D4) :
  chan c (upd_granted c' amount s)
  = if decide (c' = c)
    then D4Channel.set_tx_credits (D4Channel.tx_credits (chan c s) + amount)
           (chan c s)
    else chan c s.
Proof.
  unfold upd_granted. change (chan c (log ?e ?s)) with (chan c s).
  rewrite chan_set_chan. destruct (decide (c' = c)) as [->|]; reflexivity.
Qed.

Lemma chan_upd_rx (c c' : nat) (v : Z) (s : D4) :
  chan c (upd_rx c' v s)
  = if decide (c' = c) then D4Channel.set_rx_credits v (chan c s)
    else chan c s.
Proof.
  unfold upd_rx. rewrite chan_set_chan.
  destruct (decide (c' = c)) as [->|]; reflexivity.
Qed.

(** *** What the engine's commands keep *)

Lemma be16_range (hi lo : byte) : 0 <= be16 hi lo < 65536.
Proof.
  unfold be16. pose proof (byte_val_range hi). pose proof (byte_val_range lo).
  lia.
Qed.

Lemma read_written (size : Z) (t t' : transport.Transport) (r : result bytes) :
  transport.read size t = Some (r, t') ->
  transport.written t' = transport.written t.
Proof.
  unfold transport.read. destruct (size <? 0).
  - intros H. injection H as _ <-. reflexivity.
  - destruct (_ <? _)%nat; [discriminate|].
    intros H. injection H as _ <-. reflexivity.
Qed.

Section Commands.
Variable I : D4 -> Prop.
Hypothesis HI : CmdStable I.

Lemma transport_read_keeps (size : Z) : preserves I (transport_read size).
Proof.
  intros s Hs. unfold transport_read.
  destruct (transport.read size (transport s)) as [[[data|e] t]|] eqn:Hread;
    try (apply (cs_read I HI); [exact (read_written _ _ _ _ Hread) | exact Hs]).
  exact Hs.
Qed.

(** A command packet, sent on the control channel while it has credit. *)
Lemma write_packet_control (c : nat) (p : D4Packet.t) :
  triple (fun s => I s /\ open_channels s !! 0 = Some c
                   /\ D4Channel.tx_credits (chan c s) <> 0)
         (write_packet c p) (fun _ => I) I.
Proof.
  intros s (Hs & Hc & Htx). unfold write_packet, bind.
  destruct (pack_BBHBB _ _ _ _ _) as [header|e] eqn:Hpack; simpl; [|exact Hs].
  apply (cs_sent0 I HI s c p (header ++ D4Packet.payload p)); try assumption.
  unfold frame. rewrite Hpack. reflexivity.
Qed.

Lemma read_next_packet_keeps : preserves I read_next_packet.
Proof.
  intros s Hs. unfold read_next_packet, bind.
  pose proof (transport_read_keeps 6 s Hs) as H6.
  destruct (transport_read 6 s) as [header s1|e s1|s1]; try exact H6.
  destruct (unpack_BBHBB header) as [[[[[psid ssid] length] credit] control]|e]
    eqn:Hunpack; simpl; [|exact H6].
  pose proof (transport_read_keeps (length - 6) s1 H6) as Hp.
  destruct (transport_read (length - 6) s1) as [payload s2|e s2|s2]; try exact Hp.
  destruct (open_channels s2 !! psid) as [c|] eqn:Hc.
  - change (I (upd_delivered c
                 (D4Packet.Build (Some psid) ssid credit control payload) s2)).
    apply (cs_delivered I HI s2 c _ psid); try assumption; try reflexivity.
    simpl. unfold unpack_BBHBB in Hunpack.
    destruct header as [|a [|b [|c1 [|c2 [|d [|e0 [|? ?]]]]]]]; try discriminate.
    injection Hunpack as _ _ _ <- _. apply byte_val_range.
  - apply (cs_dropped I HI). exact Hp.
Qed.

Lemma read_packet_keeps (budget : nat) (c : nat) :
  preserves I (read_packet budget c).
Proof.
  induction budget as [|budget IH]; intros s Hs; simpl.
  - destruct (D4Channel.rx_queue (chan c s)) as [|p rest] eqn:Hq; [exact Hs|].
    apply (cs_popped I HI s c p rest Hq Hs).
  - destruct (D4Channel.rx_queue (chan c s)) as [|p rest] eqn:Hq.
    + unfold bind. pose proof (read_next_packet_keeps s Hs) as Hn.
      destruct (read_next_packet s) as [[] s1|e s1|s1]; try exact Hn.
      exact (IH s1 Hn).
    + apply (cs_popped I HI s c p rest Hq Hs).
Qed.

Ltac keeps :=
  repeat first
    [ apply triple_bind with (Q := fun _ => I); [|intros ?]
    | apply triple_ret; solve [auto]
    | apply triple_raise; solve [auto]
    | apply triple_lift; solve [auto]
    | apply triple_assert; solve [auto]
    | apply triple_gets; solve [auto]
    | apply read_packet_keeps
    | apply triple_lookup_channel; solve [auto]
    | match goal with
      | |- triple _ (if ?b then _ else _) _ _ => destruct b
      end ].

Lemma command_guard (command : D4Command.t) :
  triple (fun s => I s /\ (is_init_or_exit command = true -> control_credit s))
    (if is_init_or_exit command then ret tt
     else
       c0 <- lookup_channel 0 ;;
       tx <- gets (fun s => D4Channel.tx_credits (chan c0 s)) ;;
       assert (negb (tx =? 0)))
    (fun _ s => I s /\ control_credit s) I.
Proof.
  intros s [Hs Hg]. destruct (is_init_or_exit command); simpl.
  - split; [exact Hs | apply Hg; reflexivity].
  - unfold bind, lookup_channel.
    destruct (open_channels s !! 0) as [c0|] eqn:Hc0; [|exact Hs].
    simpl. destruct (Z.eqb_spec (D4Channel.tx_credits (chan c0 s)) 0) as [|Hne];
      simpl; [exact Hs|].
    split; [exact Hs|]. intros c Hc. congruence.
Qed.

Lemma command_guarded (budget : nat) (cmd : D4Command.t) (payload : bytes) :
  triple (fun s => I s /\ (is_init_or_exit cmd = true -> control_credit s))
         (command budget cmd payload) (fun _ => I) I.
Proof.
  unfold command.
  eapply triple_bind; [apply command_guard|]. intros ?.
  eapply triple_bind with
    (Q := fun c0 s => I s /\ open_channels s !! 0 = Some c0
                      /\ D4Channel.tx_credits (chan c0 s) <> 0).
  { apply triple_lookup_channel.
    - intros s c Hc [Hs Hg]. auto.
    - intros s [Hs _]. exact Hs. }
  intros c0.
  eapply triple_bind; [apply write_packet_control|]. intros ?.
  keeps.
Qed.

Lemma command_keeps (budget : nat) (cmd : D4Command.t) (payload : bytes) :
  is_init_or_exit cmd = false ->
  preserves I (command budget cmd payload).
Proof.
  intros Hcmd. eapply triple_conseq; [apply command_guarded| |auto|auto].
  intros s Hs. split; [exact Hs|]. rewrite Hcmd. discriminate.
Qed.

Lemma GetSocketID_keeps (budget : nat) (name : string) :
  preserves I (GetSocketID budget name).
Proof.
  unfold GetSocketID, preserves.
  apply triple_bind with (Q := fun _ => I); [keeps|]. intros encoded.
  apply triple_bind with (Q := fun _ => I);
    [apply command_keeps; reflexivity|].
  intros resp. keeps.
Qed.

Lemma Credit_keeps (budget : nat) (c : nat) (amount : Z) :
  preserves I (Credit budget c amount).
Proof.
  unfold Credit, preserves.
  apply triple_bind with (Q := fun _ => I); [keeps|]. intros ch.
  apply triple_bind with (Q := fun _ => I); [keeps|]. intros req.
  apply triple_bind with (Q := fun _ => I);
    [apply command_keeps; reflexivity|].
  intros resp. keeps.
Qed.

Lemma granted_step_keeps (c : nat) (amount : Z) (s : D4) :
  granted_step I c amount s -> I s.
Proof.
  intros (s1 & q & target & Hs1 & Hq & Ht & Ha & ->).
  exact (cs_granted I HI s1 c q target amount Hq Ht Ha Hs1).
Qed.

Lemma CreditRequest_grants (budget : nat) (c : nat) (amount : Z) :
  triple I (CreditRequest budget c amount) (granted_step I c) I.
Proof.
  unfold CreditRequest.
  apply triple_bind with (Q := fun _ => I); [keeps|]. intros ch.
  apply triple_bind with (Q := fun _ => I); [keeps|]. intros req.
  apply triple_bind with (Q := fun _ => I);
    [apply command_keeps; reflexivity|].
  intros resp.
  apply triple_bind with
    (Q := fun fields s => I s /\ 0 <= snd fields < 65536).
  { apply triple_lift; [|auto]. intros fields s Hf Hs. split; [exact Hs|].
    unfold unpack_BBH in Hf.
    destruct resp as [|a [|b [|c1 [|c2 [|? ?]]]]]; try discriminate.
    injection Hf as <-. simpl. apply be16_range. }
  intros [[f1 f2] granted] s [Hs Hrange]. simpl in Hrange.
  destruct (D4Channel.psid (chan c s)) as [q|] eqn:Hq; simpl; [|exact Hs].
  destruct (open_channels s !! q) as [target|] eqn:Ht; [|exact Hs].
  exists s, q, target. auto.
Qed.

Lemma credit_wait_grants (passes budget : nat) (c : nat) :
  triple I (credit_wait passes budget c)
         (fun _ s => exists amount, 1 <= amount /\ granted_step I c amount s) I.
Proof.
  induction passes as [|passes IH]; simpl.
  - intros s Hs. exact Hs.
  - eapply triple_bind; [apply CreditRequest_grants|]. intros amount.
    destruct (Z.ltb_spec amount 1) as [Hlt|Hge].
    + eapply triple_conseq; [apply IH| |auto|auto].
      intros s. apply granted_step_keeps.
    + intros s Hs. simpl. exists amount. auto.
Qed.

Lemma ensure_credit_ensures (budget : nat) (c : nat) :
  triple I (_ensure_credit budget c) (fun _ => ensured I c) I.
Proof.
  unfold _ensure_credit.
  apply triple_bind with
    (Q := fun tx s => I s /\ tx = D4Channel.tx_credits (chan c s)).
  { apply triple_gets. auto. }
  intros tx. destruct (Z.ltb_spec tx 1) as [Hlt|Hge].
  - eapply triple_conseq; [apply credit_wait_grants| |auto|auto].
    + intros s [Hs _]. exact Hs.
    + intros ? s Hs. right. exact Hs.
  - intros s [Hs ->]. simpl. left. auto.
Qed.

Lemma ensured_keeps (c : nat) (s : D4) : ensured I c s -> I s.
Proof.
  intros [[Hs _]|(amount & _ & Hg)]; [exact Hs|].
  exact (granted_step_keeps c amount s Hg).
Qed.

Lemma ensure_credit_keeps (budget : nat) (c : nat) :
  preserves I (_ensure_credit budget c).
Proof.
  eapply triple_conseq; [apply ensure_credit_ensures|auto| |auto].
  intros ? s. apply ensured_keeps.
Qed.

End Commands.

(** *** What channel writes and reads keep *)

Section Channels.
Variable I : D4 -> Prop.
Hypothesis HS : Stable I.

Let HI : CmdStable I := st_cmd I HS.

Lemma write_packet_keeps (c : nat) (p : D4Packet.t) :
  preserves I (write_packet c p).
Proof.
  intros s Hs. unfold write_packet, bind.
  destruct (pack_BBHBB _ _ _ _ _) as [header|e] eqn:Hpack; simpl; [|exact Hs].
  apply (st_sent I HS s c p (header ++ D4Packet.payload p)); [|exact Hs].
  unfold frame. rewrite Hpack. reflexivity.
Qed.

Lemma write_pass_keeps (budget : nat) (self : nat) (data : bytes) :
  preserves I (write_pass budget self data).
Proof.
  unfold write_pass, preserves.
  apply triple_bind with (Q := fun ch s => I s /\ ch = chan self s).
  { apply triple_gets. auto. }
  intros ch. destruct (D4Channel.mtu ch) as [mtu|].
  - apply triple_bind with (Q := fun _ => I).
    { apply triple_modify. intros s [Hs ->].
      apply (st_rx I HS s self). exact Hs. }
    intros ?. apply triple_bind with (Q := fun _ => I).
    { apply ensure_credit_keeps. exact HI. }
    intros ?. apply triple_bind with (Q := fun _ => I).
    { apply write_packet_keeps. }
    intros ?. apply triple_ret. auto.
  - apply triple_raise. intros s [Hs _]. exact Hs.
Qed.

Lemma write_loop_keeps (passes budget : nat) (self : nat) :
  forall data, preserves I (write_loop passes budget self data).
Proof.
  induction passes as [|passes IH]; intros [|b data]; simpl;
    try (intros s Hs; exact Hs).
  eapply triple_bind; [apply write_pass_keeps|]. intros rest. apply IH.
Qed.

Lemma channel_write_keeps (budget : nat) (self : nat) (data : bytes) :
  preserves I (channel_write budget self data).
Proof. apply write_loop_keeps. Qed.

Lemma channel_read_keeps (budget : nat) (self : nat) :
  preserves I (channel_read budget self).
Proof.
  unfold channel_read, preserves.
  apply triple_bind with (Q := fun _ => I); [apply triple_gets; auto|].
  intros ch. apply triple_bind with (Q := fun _ => I).
  - destruct (0xFF <? _).
    + apply triple_bind with (Q := fun _ => I).
      { apply Credit_keeps. exact HI. }
      intros ?. apply triple_modify. intros s Hs.
      apply (st_rx I HS s self). exact Hs.
    + apply triple_ret. auto.
  - intros ?. apply read_packet_keeps. exact HI.
Qed.

End Channels.

Lemma triple_state_of {A : Type} (P : D4 -> Prop) (m : M A)
    (Q : A -> D4 -> Prop) (E R : D4 -> Prop) (s : D4) :
  triple P m Q E -> P s ->
  (forall a s', Q a s' -> R s') -> (forall s', E s' -> R s') ->
  R (state_of (m s)).
Proof.
  intros Hm Hs HQ HE. specialize (Hm s Hs).
  destruct (m s); simpl; eauto.
Qed.

Lemma preserves_state_of {A : Type} (I : D4 -> Prop) (m : M A) (s : D4) :
  preserves I m -> I s -> I (state_of (m s)).
Proof. intros Hm Hs. apply (triple_state_of I m (fun _ => I) I I s); auto. Qed.

(** *** Credit conservation *)

Lemma sent_on_app (c : nat) (l1 l2 : list event) :
  sent_on c (l1 ++ l2) = sent_on c l1 ++ sent_on c l2.
Proof. unfold sent_on. apply flat_map_app. Qed.

Lemma delivered_to_app (c : nat) (l1 l2 : list event) :
  delivered_to c (l1 ++ l2) = delivered_to c l1 ++ delivered_to c l2.
Proof. unfold delivered_to. apply flat_map_app. Qed.

Lemma granted_to_app (c : nat) (l1 l2 : list event) :
  granted_to c (l1 ++ l2) = granted_to c l1 ++ granted_to c l2.
Proof. unfold granted_to. apply flat_map_app. Qed.

Lemma sum_app (l1 l2 : list Z) : sum (l1 ++ l2) = sum l1 + sum l2.
Proof.
  unfold sum. induction l1 as [|x l1 IH]; simpl; [reflexivity|].
  rewrite IH. lia.
Qed.

Lemma credits_received_app (c : nat) (l1 l2 : list event) :
  credits_received c (l1 ++ l2) = credits_received c l1 + credits_received c l2.
Proof.
  unfold credits_received. rewrite delivered_to_app, map_app. apply sum_app.
Qed.

Lemma credits_granted_app (c : nat) (l1 l2 : list event) :
  credits_granted c (l1 ++ l2) = credits_granted c l1 + credits_granted c l2.
Proof. unfold credits_granted. rewrite granted_to_app. apply sum_app. Qed.

Lemma packets_sent_app (c : nat) (l1 l2 : list event) :
  packets_sent c (l1 ++ l2) = packets_sent c l1 + packets_sent c l2.
Proof.
  unfold packets_sent, len. rewrite sent_on_app, length_app. lia.
Qed.

Lemma extends_log (l : list event) (e : event) (s : D4) :
  extends l s -> extends l (log e s).
Proof.
  intros [evs Hevs]. exists (evs ++ [e]). simpl. rewrite Hevs.
  symmetry. apply app_assoc.
Qed.

(** The balance of a channel and the growth of the trace survive every
    change of state channel writes and reads are made of. *)
Ltac balance_step :=
  rewrite ?credits_received_app, ?credits_granted_app, ?packets_sent_app;
  unfold balance, credits_received, credits_granted, packets_sent, len in *;
  simpl;
  repeat match goal with
         | |- context [decide (?a = ?b)] => destruct (decide (a = b))
         end;
  simpl; lia.

Lemma balance_stable (c : nat) (k : Z) (l : list event) :
  Stable (fun s => balance c s = k /\ extends l s).
Proof.
  assert (Hsent : forall s c' p fr,
            balance c s = k /\ extends l s ->
            balance c (upd_sent c' p fr s) = k
            /\ extends l (upd_sent c' p fr s)).
  { intros s c' p fr [Hb He]. split; [|apply extends_log; exact He].
    unfold balance. rewrite chan_upd_sent. simpl trace. balance_step. }
  split; [split|intros s c' p fr _; apply Hsent|].
  - intros s t _ Hs. exact Hs.
  - intros s c' p fr _ _ _. apply Hsent.
  - intros s c' p q _ _ _ [Hb He]. split; [|apply extends_log; exact He].
    unfold balance. rewrite chan_upd_delivered. simpl trace. balance_step.
  - intros s p [Hb He]. split; [|apply extends_log; exact He].
    unfold balance. change (chan c (log ?e ?s)) with (chan c s). simpl trace.
    balance_step.
  - intros s c' p rest _ [Hb He]. split; [|exact He].
    unfold balance. rewrite chan_upd_popped.
    change (trace (upd_popped c' rest s)) with (trace s). balance_step.
  - intros s c0 q target amount _ _ _ [Hb He].
    split; [|apply extends_log; exact He].
    unfold balance. rewrite chan_upd_granted. simpl trace. balance_step.
  - intros s c' v [Hb He]. split; [|exact He].
    unfold balance. rewrite chan_upd_rx.
    change (trace (upd_rx c' v s)) with (trace s). balance_step.
Qed.

Lemma run_io_balance (c : nat) (k : Z) (l : list event) (step : nat * io)
    (s : D4) :
  balance c s = k /\ extends l s ->
  balance c (run_io step s) = k /\ extends l (run_io step s).
Proof.
  intros Hs. destruct step as [budget [ch data|ch]]; simpl.
  - apply (preserves_state_of (fun s => balance c s = k /\ extends l s)
             (channel_write budget ch data)); [|exact Hs].
    apply channel_write_keeps, balance_stable.
  - apply (preserves_state_of (fun s => balance c s = k /\ extends l s)
             (channel_read budget ch)); [|exact Hs].
    apply channel_read_keeps, balance_stable.
Qed.

Lemma run_ios_balance (c : nat) (k : Z) (l : list event)
    (steps : list (nat * io)) :
  forall s,
    balance c s = k /\ extends l s ->
    balance c (run_ios steps s) = k /\ extends l (run_ios steps s).
Proof.
  induction steps as [|step steps IH]; intros s Hs; simpl; [exact Hs|].
  apply IH. apply run_io_balance. exact Hs.
Qed.

(** From a kept balance to the change of tx_credits. *)
Lemma balance_change (c : nat) (s s' : D4) :
  balance c s' = balance c s -> extends (trace s) s' ->
  D4Channel.tx_credits (chan c s')
  = D4Channel.tx_credits (chan c s)
    + credits_received c (events_since s s')
    + credits_granted c (events_since s s')
    - packets_sent c (events_since s s').
Proof.
  intros Hb [evs Hevs]. unfold events_since. rewrite Hevs.
  rewrite drop_app_length.
  unfold balance in Hb. rewrite Hevs in Hb.
  rewrite credits_received_app, credits_granted_app, packets_sent_app in Hb.
  lia.
Qed.

Lemma extends_refl (s : D4) : extends (trace s) s.
Proof. exists []. symmetry. apply app_nil_r. Qed.

(** C3, as the code has it.  Over any finite interleaving of channel
    writes and reads, on any channels and from any state, the final
    tx_credits of a channel is its initial tx_credits, plus the credit
    fields of the packets delivered to it, plus the credits granted to it
    by CreditRequest replies, minus the number of packets sent on it. *)
Theorem credit_conservation (c : nat) (steps : list (nat * io)) (s : D4) :
  D4Channel.tx_credits (chan c (run_ios steps s))
  = D4Channel.tx_credits (chan c s)
    + credits_received c (events_since s (run_ios steps s))
    + credits_granted c (events_since s (run_ios steps s))
    - packets_sent c (events_since s (run_ios steps s)).
Proof.
  destruct (run_ios_balance c (balance c s) (trace s) steps s) as [Hb He].
  { split; [reflexivity | apply extends_refl]. }
  apply balance_change; assumption.
Qed.

(** *** Packets sent and frames written *)

Lemma sent_packets_app (l1 l2 : list event) :
  sent_packets (l1 ++ l2) = sent_packets l1 ++ sent_packets l2.
Proof. unfold sent_packets. apply flat_map_app. Qed.

Lemma on_wire_log (w0 : list bytes) (l : list event) (e : event) (s : D4) :
  sent_packets [e] = [] -> on_wire w0 l s -> on_wire w0 l (log e s).
Proof.
  intros He (evs & frames & Htr & Hw & Hall).
  exists (evs ++ [e]), frames. simpl. rewrite Htr, <- app_assoc.
  split; [reflexivity|]. split; [exact Hw|].
  rewrite sent_packets_app, He, app_nil_r. exact Hall.
Qed.

(** Every packet sent is a frame written, in the same order, and nothing
    else is written. *)
Lemma on_wire_stable (w0 : list bytes) (l : list event) :
  Stable (on_wire w0 l).
Proof.
  assert (Hsent : forall s c p fr,
            frame p = Ok fr -> on_wire w0 l s -> on_wire w0 l (upd_sent c p fr s)).
  { intros s c p fr Hfr (evs & frames & Htr & Hw & Hall).
    exists (evs ++ [Sent c p]), (frames ++ [fr]). simpl.
    rewrite Htr, Hw, <- !app_assoc.
    split; [reflexivity|]. split; [reflexivity|].
    rewrite sent_packets_app. apply Forall2_app; [exact Hall|].
    simpl. constructor; [exact Hfr | constructor]. }
  split; [split|exact Hsent|].
  - intros s t Ht (evs & frames & Htr & Hw & Hall).
    exists evs, frames. simpl. rewrite Ht. auto.
  - intros s c p fr Hfr _ _. apply Hsent. exact Hfr.
  - intros s c p q _ _ _ Hs.
    apply (on_wire_log w0 l (Delivered c p)); [reflexivity|]. exact Hs.
  - intros s p Hs. apply on_wire_log; [reflexivity | exact Hs].
  - intros s c p rest _ Hs. exact Hs.
  - intros s c q target amount _ _ _ Hs.
    apply (on_wire_log w0 l (Granted target amount)); [reflexivity|]. exact Hs.
  - intros s c v Hs. exact Hs.
Qed.

Lemma on_wire_refl (s : D4) :
  on_wire (transport.written (transport s)) (trace s) s.
Proof.
  exists [], []. rewrite !app_nil_r. repeat split. constructor.
Qed.

Lemma on_wire_since (s s' : D4) :
  on_wire (transport.written (transport s)) (trace s) s' ->
  Forall2 framed (sent_packets (events_since s s')) (frames_since s s').
Proof.
  intros (evs & frames & Htr & Hw & Hall).
  unfold events_since, frames_since. rewrite Htr, Hw, !drop_app_length.
  exact Hall.
Qed.

Lemma channel_write_on_wire (budget : nat) (self : nat) (data : bytes) (s : D4) :
  Forall2 framed
    (sent_packets (events_since s (state_of (channel_write budget self data s))))
    (frames_since s (state_of (channel_write budget self data s))).
Proof.
  apply on_wire_since.
  apply (preserves_state_of
           (on_wire (transport.written (transport s)) (trace s))
           (channel_write budget self data)); [|apply on_wire_refl].
  apply channel_write_keeps, on_wire_stable.
Qed.

(** *** The credit invariant *)

Lemma chan_set_transport (c : nat) (t : transport.Transport) (s : D4) :
  chan c (set_transport t s) = chan c s.
Proof. reflexivity. Qed.

Lemma chan_set_open_channels (c : nat) (m : gmap Z nat) (s : D4) :
  chan c (set_open_channels m s) = chan c s.
Proof. reflexivity. Qed.

Lemma chan_log (c : nat) (e : event) (s : D4) : chan c (log e s) = chan c s.
Proof. reflexivity. Qed.

Ltac chan_norm :=
  repeat (progress
    (rewrite ?chan_upd_sent, ?chan_upd_delivered, ?chan_upd_popped,
       ?chan_upd_granted, ?chan_upd_rx, ?chan_set_transport,
       ?chan_set_open_channels, ?chan_log, ?chan_set_chan in *));
  cbn [open_channels upd_sent upd_delivered upd_popped upd_granted upd_rx
       log set_chan set_transport set_open_channels] in *.

Ltac chan_cases :=
  chan_norm;
  repeat match goal with
         | |- context [decide (?a = ?b)] => destruct (decide (a = b)); try subst
         | H : context [decide (?a = ?b)] |- _ =>
             destruct (decide (a = b)); try subst
         end;
  simpl in *.

Lemma Inv_cmd_stable : CmdStable Inv.
Proof.
  split.
  - intros s t _ [H1 H2 H3]. split; assumption.
  - intros s c p fr _ Hc Htx [H1 H2 H3].
    destruct (H1 0 c Hc) as [Hc0 _].
    split; intros;
      change (open_channels (upd_sent c p fr s)) with (open_channels s) in *.
    + destruct (H1 _ _ H) as [Ht Hq]. chan_cases; split; auto; lia.
    + destruct (H2 c0). chan_cases; auto.
    + chan_cases; apply H3; assumption.
  - intros s c p q Hp Hc Hcr [H1 H2 H3].
    split; intros;
      change (open_channels (upd_delivered c p s)) with (open_channels s) in *.
    + destruct (H1 _ _ H) as [Ht Hq]. chan_cases; split; auto; lia.
    + destruct (H2 c0). chan_cases; split; auto; lia.
    + pose proof (H3 c0) as H3c. chan_cases; auto.
      destruct (H3c H); split; auto; lia.
  - intros s p [H1 H2 H3]. split; assumption.
  - intros s c p rest Hq [H1 H2 H3].
    split; intros;
      change (open_channels (upd_popped c rest s)) with (open_channels s) in *.
    + destruct (H1 _ _ H) as [Ht Hq']. chan_cases; split; auto.
    + destruct (H2 c0). chan_cases; auto.
    + chan_cases; apply H3; assumption.
  - intros s c q target amount Hq Ht Ha [H1 H2 H3].
    split; intros;
      change (open_channels (upd_granted target amount s))
        with (open_channels s) in *.
    + destruct (H1 _ _ H) as [Htx Hq']. chan_cases; split; auto; lia.
    + destruct (H2 c0). chan_cases; auto.
    + chan_cases; apply H3; assumption.
Qed.

Lemma CmdStable_and (I J : D4 -> Prop) :
  CmdStable I -> CmdStable J -> CmdStable (fun s => I s /\ J s).
Proof.
  intros HI HJ. split.
  - intros s t Ht [Hi Hj].
    split; [apply (cs_read I HI) | apply (cs_read J HJ)]; assumption.
  - intros s c p fr Hfr Hc Htx [Hi Hj].
    split; [apply (cs_sent0 I HI) | apply (cs_sent0 J HJ)]; assumption.
  - intros s c p q Hp Hc Hcr [Hi Hj].
    split; [apply (cs_delivered I HI s c p q)
           | apply (cs_delivered J HJ s c p q)]; assumption.
  - intros s p [Hi Hj].
    split; [apply (cs_dropped I HI) | apply (cs_dropped J HJ)]; assumption.
  - intros s c p rest Hq [Hi Hj].
    split; [apply (cs_popped I HI s c p) | apply (cs_popped J HJ s c p)];
      assumption.
  - intros s c q target amount Hq Ht Ha [Hi Hj].
    split; [apply (cs_granted I HI s c q) | apply (cs_granted J HJ s c q)];
      assumption.
Qed.

(** No command raises a channel's rx_credits, changes the table or changes
    the fields [OpenChannel] sets. *)
Lemma rx_bound_cmd_stable (c : nat) (k : Z) :
  CmdStable (fun s => D4Channel.rx_credits (chan c s) <= k).
Proof.
  split; intros; chan_cases; try assumption; lia.
Qed.

Lemma psid_cmd_stable (c : nat) (v : option Z) :
  CmdStable (fun s => D4Channel.psid (chan c s) = v).
Proof.
  split; intros; chan_cases; first [assumption | reflexivity | congruence].
Qed.

Lemma table_cmd_stable (P : gmap Z nat -> Prop) :
  CmdStable (fun s => P (open_channels s)).
Proof.
  split; intros; assumption.
Qed.

(** A data packet may go out on a channel of the table that has credit. *)
Lemma write_packet_inv (c : nat) (p : D4Packet.t) :
  triple (fun s => Inv s
                   /\ ((exists q, open_channels s !! q = Some c) ->
                       1 <= D4Channel.tx_credits (chan c s)))
         (write_packet c p) (fun _ => Inv) Inv.
Proof.
  intros s [HInv Htx]. unfold write_packet, bind.
  destruct (pack_BBHBB _ _ _ _ _) as [header|e]; simpl; [|exact HInv].
  destruct HInv as [H1 H2 H3].
  change (Inv (upd_sent c p (header ++ D4Packet.payload p) s)).
  split; intros.
  - chan_norm. destruct (H1 _ _ H) as [Ht Hq].
    destruct (decide (c = c0)) as [->|]; simpl; split; auto.
    assert (1 <= D4Channel.tx_credits (chan c0 s)) by (apply Htx; eauto). lia.
  - destruct (H2 c0). chan_cases; auto.
  - chan_cases; apply H3; assumption.
Qed.

(** After [_ensure_credit], a channel of the table has credit. *)
Lemma ensured_credit (self : nat) (s : D4) :
  ensured Inv self s ->
  Inv s /\ ((exists q, open_channels s !! q = Some self) ->
            1 <= D4Channel.tx_credits (chan self s)).
Proof.
  intros Hens. split; [exact (ensured_keeps Inv Inv_cmd_stable self s Hens)|].
  intros [p Hp].
  destruct Hens as [[_ Htx]|(amount & Ha & s1 & q & target & Hs1 & Hq & Ht & _ & ->)];
    [exact Htx|].
  change (open_channels (upd_granted target amount s1))
    with (open_channels s1) in Hp.
  destruct (inv_table s1 Hs1 p self Hp) as [Htx Hpsid].
  specialize (Hpsid q Hq). subst q.
  assert (target = self) by congruence. subst target.
  rewrite chan_upd_granted. destruct (decide (self = self)); [|contradiction].
  simpl. lia.
Qed.

Lemma write_pass_inv (budget : nat) (self : nat) (data : bytes) :
  preserves Inv (write_pass budget self data).
Proof.
  unfold write_pass, preserves.
  apply triple_bind with (Q := fun ch s => Inv s /\ ch = chan self s).
  { apply triple_gets. auto. }
  intros ch. destruct (D4Channel.mtu ch) as [mtu|] eqn:Hmtu.
  - apply triple_bind with (Q := fun _ => Inv).
    { apply triple_modify. intros s [[H1 H2 H3] ->].
      change (Inv (upd_rx self
                     (D4Channel.rx_credits (chan self s)
                      + Z.min (D4Channel.rx_credits_max (chan self s)
                               - D4Channel.rx_credits (chan self s)) 255) s)).
      split; intros;
        change (open_channels (upd_rx self ?v s)) with (open_channels s) in *;
        rewrite ?chan_upd_rx in *.
      - destruct (H1 _ _ H). destruct (decide (self = c)); simpl; auto.
      - destruct (H2 c) as [Hmax Hrx].
        destruct (decide (self = c)) as [->|]; simpl; split; auto. lia.
      - destruct (decide (self = c)) as [->|]; simpl in *; [|apply H3; assumption].
        destruct (H3 c H) as [_ Hnone]. congruence. }
    intros ?. apply triple_bind with
      (Q := fun _ s => Inv s
                       /\ ((exists q, open_channels s !! q = Some self) ->
                           1 <= D4Channel.tx_credits (chan self s))).
    { eapply triple_conseq;
        [apply (ensure_credit_ensures Inv Inv_cmd_stable)|auto| |auto].
      intros ? s. apply ensured_credit. }
    intros ?. apply triple_bind with (Q := fun _ => Inv).
    { apply write_packet_inv. }
    intros ?. apply triple_ret. auto.
  - apply triple_raise. intros s [Hs _]. exact Hs.
Qed.

Lemma write_loop_inv (passes budget : nat) (self : nat) :
  forall data, preserves Inv (write_loop passes budget self data).
Proof.
  induction passes as [|passes IH]; intros [|b data]; simpl;
    try (intros s Hs; exact Hs).
  eapply triple_bind; [apply write_pass_inv|]. intros rest. apply IH.
Qed.

Lemma Credit_unopened (budget : nat) (c : nat) (amount : Z) (s : D4) :
  D4Channel.psid (chan c s) = None ->
  Credit budget c amount s = Raised StructError s.
Proof.
  intros Hpsid. unfold Credit, bind, gets. rewrite Hpsid. reflexivity.
Qed.

Lemma channel_read_inv (budget : nat) (self : nat) :
  preserves Inv (channel_read budget self).
Proof.
  unfold channel_read, preserves.
  apply triple_bind with (Q := fun ch s => Inv s /\ ch = chan self s).
  { apply triple_gets. auto. }
  intros ch. apply triple_bind with (Q := fun _ => Inv).
  - destruct (0xFF <? _) eqn:Hbig; [|apply triple_ret; tauto].
    intros s [Hs ->].
    destruct (D4Channel.psid (chan self s)) as [q|] eqn:Hpsid.
    + pose (J := fun s' => Inv s'
                 /\ (D4Channel.rx_credits (chan self s')
                     <= D4Channel.rx_credits (chan self s)
                    /\ D4Channel.psid (chan self s') = Some q)).
      assert (HJ : CmdStable J).
      { apply CmdStable_and; [apply Inv_cmd_stable|].
        apply CmdStable_and;
          [apply rx_bound_cmd_stable | apply psid_cmd_stable]. }
      assert (Hs0 : J s) by (unfold J; auto with zarith).
      pose proof (Credit_keeps J HJ budget self
                    (D4Channel.rx_credits_max (chan self s)
                     - D4Channel.rx_credits (chan self s)) s Hs0) as Hc.
      unfold bind.
      destruct (Credit budget self _ s) as [[] s1|e s1|s1];
        try (destruct Hc as [Hc _]; exact Hc).
      destruct Hc as ([H1 H2 H3] & Hrx & Hq). simpl.
      destruct (inv_rx s Hs self) as [Hmax _].
      change (Inv (upd_rx self
                     (D4Channel.rx_credits (chan self s1)
                      + (D4Channel.rx_credits_max (chan self s)
                         - D4Channel.rx_credits (chan self s))) s1)).
      split; intros;
        change (open_channels (upd_rx self ?v s1)) with (open_channels s1) in *;
        rewrite ?chan_upd_rx in *.
      * destruct (H1 _ _ H). destruct (decide (self = c)); simpl; auto.
      * destruct (H2 c) as [Hmax' Hrx'].
        destruct (decide (self = c)) as [->|]; simpl; split; auto. lia.
      * destruct (decide (self = c)) as [->|]; simpl in *;
          [congruence | apply H3; assumption].
    + unfold bind. rewrite Credit_unopened by exact Hpsid. exact Hs.
  - intros ?. apply read_packet_keeps. apply Inv_cmd_stable.
Qed.

(** [OpenChannel] on a channel never opened that the table does not hold. *)
Lemma OpenChannel_inv (budget : nat) (self : nat) :
  triple (fun s => Inv s /\ D4Channel.psid (chan self s) = None
                   /\ forall p, open_channels s !! p <> Some self)
         (OpenChannel budget self)
         (fun _ s => Inv s /\ D4Channel.rx_credits (chan self s) <= 0
                     /\ D4Channel.psid (chan self s) <> None)
         Inv.
Proof.
  pose (J := fun s => Inv s
              /\ (D4Channel.rx_credits (chan self s) <= 0
                  /\ (fun m => forall p, m !! p <> Some self) (open_channels s))).
  assert (HJ : CmdStable J).
  { apply CmdStable_and; [apply Inv_cmd_stable|].
    apply CmdStable_and; [apply rx_bound_cmd_stable|].
    apply (table_cmd_stable (fun m => forall p, m !! p <> Some self)). }
  assert (HJInv : forall s, J s -> Inv s) by (intros s [Hs _]; exact Hs).
  unfold OpenChannel.
  apply triple_bind with (Q := fun _ => J).
  { apply triple_gets. intros s (Hs & Hpsid & Htab). split; [exact Hs|].
    split; [|exact Htab]. apply (inv_unopened s Hs self Hpsid). }
  intros psid. apply triple_bind with (Q := fun _ => J).
  { apply triple_gets. auto. }
  intros ssid. apply triple_bind with (Q := fun _ => J).
  { apply triple_lift; auto. }
  intros req. apply triple_bind with (Q := fun _ => J).
  { eapply triple_conseq;
      [apply (command_keeps J HJ budget D4Command.OpenChannel req); reflexivity
      |auto|auto|auto]. }
  intros res. apply triple_bind with
    (Q := fun fields s => J s /\ 0 <= snd fields).
  { apply triple_lift; [|auto]. intros fields s Hf Hs. split; [exact Hs|].
    unfold unpack_BBHHH in Hf.
    destruct res as [|a [|b [|c1 [|c2 [|d1 [|d2 [|e1 [|e2 [|? ?]]]]]]]]];
      try discriminate.
    injection Hf as <-. simpl. apply be16_range. }
  intros [[[[p ssid'] mtu] maxc] credit]. simpl snd.
  apply triple_bind with (Q := fun _ s => J s /\ 0 <= credit).
  { apply triple_gets. auto. }
  intros own. apply triple_bind with (Q := fun _ s => J s /\ 0 <= credit).
  { apply triple_assert; [auto|]. intros s [Hs _]. auto. }
  intros ?. apply triple_modify.
  intros s [([H1 H2 H3] & Hrx & Htab) Hcredit].
  set (ch := D4Channel.Build (D4Channel.ssid (chan self s)) (Some p) (Some mtu)
               credit (D4Channel.rx_credits (chan self s))
               (D4Channel.rx_credits_max (chan self s))
               (D4Channel.rx_queue (chan self s))).
  change (Inv (set_open_channels (<[p := self]> (open_channels s))
                 (set_chan self ch s))
          /\ D4Channel.rx_credits
               (chan self (set_open_channels (<[p := self]> (open_channels s))
                             (set_chan self ch s))) <= 0
          /\ D4Channel.psid
               (chan self (set_open_channels (<[p := self]> (open_channels s))
                             (set_chan self ch s))) <> None).
  change (chan ?x (set_open_channels ?m ?s0)) with (chan x s0).
  rewrite chan_set_chan_eq. split; [|split; [exact Hrx | discriminate]].
  split; intros;
    change (chan ?x (set_open_channels ?m ?s0)) with (chan x s0) in *;
    rewrite chan_set_chan in *.
  - simpl in H. rewrite lookup_insert in H.
    destruct (decide (p = p0)) as [->|Hne].
    + injection H as <-. destruct (decide (self = self)); [|contradiction].
      simpl. split; [exact Hcredit|]. intros q Hq. congruence.
    + destruct (decide (self = c)) as [->|]; [exfalso; exact (Htab _ H)|].
      apply H1. exact H.
  - destruct (H2 c). destruct (decide (self = c)) as [->|]; simpl; auto.
  - destruct (decide (self = c)) as [->|]; simpl in *;
      [discriminate | apply H3; assumption].
Qed.

Lemma channel_enter_inv (budget : nat) (self : nat) :
  triple (fun s => Inv s /\ D4Channel.psid (chan self s) = None
                   /\ forall p, open_channels s !! p <> Some self)
         (channel_enter budget self) (fun _ => Inv) Inv.
Proof.
  pose (J := fun s => Inv s
              /\ (D4Channel.rx_credits (chan self s) <= 0
                  /\ (fun s => D4Channel.psid (chan self s) <> None) s)).
  assert (HJ : CmdStable J).
  { apply CmdStable_and; [apply Inv_cmd_stable|].
    apply CmdStable_and; [apply rx_bound_cmd_stable|].
    split; intros; chan_cases; assumption. }
  unfold channel_enter.
  eapply triple_bind; [apply OpenChannel_inv|]. intros ?.
  apply triple_bind with (Q := fun _ => J).
  { apply triple_gets. intros s (Hs & Hrx & Hpsid). unfold J. auto. }
  intros rx_max. apply triple_bind with (Q := fun _ => J).
  { eapply triple_conseq; [apply (Credit_keeps J HJ)|auto|auto|].
    intros s [Hs _]. exact Hs. }
  intros ?. apply triple_modify. intros s ([H1 H2 H3] & Hrx & Hpsid).
  change (Inv (upd_rx self
                 (D4Channel.rx_credits (chan self s)
                  + D4Channel.rx_credits_max (chan self s)) s)).
  split; intros;
    change (open_channels (upd_rx self ?v s)) with (open_channels s) in *;
    rewrite ?chan_upd_rx in *.
  - destruct (H1 _ _ H). destruct (decide (self = c)); simpl; auto.
  - destruct (H2 c) as [Hmax Hrx'].
    destruct (decide (self = c)) as [->|]; simpl; split; auto. lia.
  - destruct (decide (self = c)) as [->|]; simpl in *;
      [contradiction | apply H3; assumption].
Qed.

Lemma CloseChannel_inv (budget : nat) (self : nat) :
  preserves Inv (CloseChannel budget self).
Proof.
  unfold CloseChannel, preserves.
  apply triple_bind with (Q := fun _ => Inv); [apply triple_gets; auto|].
  intros ch. apply triple_bind with (Q := fun _ => Inv);
    [apply triple_lift; auto|].
  intros req. apply triple_bind with (Q := fun _ => Inv).
  { apply command_keeps; [apply Inv_cmd_stable | reflexivity]. }
  intros ? s Hs.
  destruct (D4Channel.psid (chan self s)) as [q|]; [|exact Hs].
  destruct (open_channels s !! q) as [c|]; [|exact Hs].
  destruct Hs as [H1 H2 H3]. split; intros;
    change (chan ?x (set_open_channels ?m ?s0)) with (chan x s0) in *; auto.
  simpl in H. apply lookup_delete_Some in H. destruct H as [_ H].
  apply H1. exact H.
Qed.

Lemma channel_inv (budget : nat) (name : string) :
  preserves Inv (channel budget name).
Proof.
  unfold channel, preserves.
  apply triple_bind with (Q := fun _ => Inv).
  { apply GetSocketID_keeps. apply Inv_cmd_stable. }
  intros ssid s [H1 H2 H3].
  assert (Hchan : forall c,
            chan c {| transport := transport s;
                      heap := <[next_ref s := D4Channel.new ssid]> (heap s);
                      next_ref := S (next_ref s);
                      open_channels := open_channels s;
                      trace := trace s |}
            = if decide (next_ref s = c) then D4Channel.new ssid else chan c s).
  { intros c. unfold chan. simpl. rewrite lookup_total_insert.
    reflexivity. }
  split; intros; rewrite Hchan in *; simpl open_channels in *.
  - destruct (decide (next_ref s = c)); simpl.
    + split; [lia | discriminate].
    + apply H1. exact H.
  - destruct (decide (next_ref s = c)); simpl; [split; [reflexivity | lia]|].
    apply H2.
  - destruct (decide (next_ref s = c)); simpl in *;
      [split; [lia | reflexivity] | apply H3; assumption].
Qed.

Lemma D4_new_inv (t : transport.Transport) :
  Inv (D4_new t) /\ control_credit (D4_new t).
Proof.
  assert (Hchan : forall c,
            chan c (D4_new t)
            = if decide (0%nat = c)
              then D4Channel.set_tx_credits 1 (D4Channel.new 0)
              else D4Channel.new 0).
  { intros c. unfold chan, D4_new. simpl.
    rewrite lookup_total_singleton. reflexivity. }
  split; [split|]; intros; rewrite ?Hchan in *.
  - unfold D4_new in H. simpl in H.
    apply lookup_singleton_Some in H. destruct H as [<- <-].
    simpl. split; [lia | discriminate].
  - destruct (decide (0%nat = c)); simpl; split; (reflexivity || lia).
  - destruct (decide (0%nat = c)); simpl; split; (reflexivity || lia).
  - intros c Hc. unfold D4_new in Hc. simpl in Hc.
    apply lookup_singleton_Some in Hc. destruct Hc as [_ <-].
    rewrite Hchan. simpl. discriminate.
Qed.

Lemma D4_init_inv (budget : nat) (t : transport.Transport) (s : D4) :
  D4_init budget t = Done tt s -> Inv s.
Proof.
  intros Hinit.
  assert (Ht : triple (fun s => Inv s /\ control_credit s)
                 (transport_drain ;;;
                  transport_write mode_escape ;;;
                  _ <- transport_read 8 ;;
                  Init budget)
                 (fun _ => Inv) Inv).
  { apply triple_bind with (Q := fun _ s => Inv s /\ control_credit s).
    { apply triple_modify. intros s0 [[H1 H2 H3] Hc].
      split; [split|]; assumption. }
    intros ?. apply triple_bind with (Q := fun _ s => Inv s /\ control_credit s).
    { apply triple_modify. intros s0 [[H1 H2 H3] Hc].
      split; [split|]; assumption. }
    intros ?. apply triple_bind with (Q := fun _ s => Inv s /\ control_credit s).
    { intros s0 [[H1 H2 H3] Hc]. unfold transport_read.
      destruct (transport.read 8 (transport s0)) as [[[data|e] t0]|];
        try (split; assumption).
      split; [split|]; assumption. }
    intros ?. unfold Init.
    apply triple_bind with (Q := fun _ => Inv).
    { eapply triple_conseq;
        [apply (command_guarded Inv Inv_cmd_stable)| |auto|auto].
      intros s0 [Hs Hc]. auto. }
    intros resp. apply triple_assert; auto. }
  specialize (Ht (D4_new t) (D4_new_inv t)).
  unfold D4_init in Hinit. rewrite Hinit in Ht. exact Ht.
Qed.

Lemma run_call_inv (budget : nat) (c : call) (s : D4) :
  Inv s -> may_call c s -> Inv (run_call budget c s).
Proof.
  intros Hs Hmay.
  destruct c as [name|name|ch amount|ch amount|ch|ch|ch data|ch]; simpl.
  - apply preserves_state_of; [|exact Hs].
    apply GetSocketID_keeps, Inv_cmd_stable.
  - apply preserves_state_of; [|exact Hs]. apply channel_inv.
  - apply preserves_state_of; [|exact Hs].
    apply Credit_keeps, Inv_cmd_stable.
  - apply (triple_state_of Inv (CreditRequest budget ch amount)
             (granted_step Inv ch) Inv Inv s); auto.
    + apply CreditRequest_grants, Inv_cmd_stable.
    + intros a s'. apply granted_step_keeps, Inv_cmd_stable.
  - simpl in Hmay. destruct Hmay as [_ Hmay].
    apply (triple_state_of _ (channel_enter budget ch)
             (fun _ => Inv) Inv Inv s (channel_enter_inv budget ch)); auto.
  - unfold channel_exit.
    apply (preserves_state_of Inv); [|exact Hs].
    apply triple_bind with (Q := fun _ => Inv); [apply CloseChannel_inv|].
    intros ?. apply triple_ret. auto.
  - apply preserves_state_of; [|exact Hs]. apply write_loop_inv.
  - apply preserves_state_of; [|exact Hs]. apply channel_read_inv.
Qed.

Lemma reachable_inv (s : D4) : reachable s -> Inv s.
Proof.
  induction 1 as [budget t s Hinit|budget c s Hreach IH Hmay].
  - exact (D4_init_inv budget t s Hinit).
  - apply run_call_inv; assumption.
Qed.

(** C1, as the code has it.  In every engine a program can hold (a
    constructed engine, then any calls among GetSocketID, Credit,
    CreditRequest, channel creation, the entering of a channel never opened
    before, channel exit, write and read, whatever the device sends), every
    channel of the table, control channel 0 included, has tx_credits >= 0
    and rx_credits <= rx_credits_max. *)
Theorem credits_stay_bounded (s : D4) :
  reachable s -> credits_bounded_above s.
Proof.
  intros Hreach p c Hc. pose proof (reachable_inv s Hreach) as Hs.
  destruct (inv_table s Hs p c Hc) as [Htx _].
  destruct (inv_rx s Hs c) as [Hmax Hrx].
  split; [exact Htx | lia].
Qed.

(** *** The packets of a channel write *)

Ltac chan_split :=
  chan_norm;
  repeat match goal with
         | |- context [decide (?a = ?a)] =>
             destruct (decide (a = a)); [|contradiction]
         | H : context [decide (?a = ?a)] |- _ =>
             destruct (decide (a = a)); [|contradiction]
         | |- context [decide (?a = ?b)] => destruct (decide (a = b)) as [->|]
         | H : context [decide (?a = ?b)] |- _ =>
             destruct (decide (a = b)) as [->|]
         end;
  simpl in *.

Lemma quiet_cmd_stable (self : nat) (l : list event) (rx0 : Z)
    (st : Z * option Z * option Z * Z) :
  CmdStable (quiet self l rx0 st).
Proof.
  split.
  - intros s t _ Hq. exact Hq.
  - intros s c p fr _ Hc _ (Hctl & Hst & evs & Htr & Hsent & Hrx).
    assert (Hne : c <> self) by congruence.
    split; [exact Hctl|]. split.
    + chan_split; [contradiction | exact Hst].
    + exists (evs ++ [Sent c p]). simpl trace. rewrite Htr, <- app_assoc.
      split; [reflexivity|]. rewrite sent_on_app, delivered_to_app, Hsent.
      chan_split; try contradiction. simpl.
      destruct (decide (c = self)); [contradiction|].
      split; [reflexivity|]. rewrite app_nil_r. exact Hrx.
  - intros s c p q _ _ _ (Hctl & Hst & evs & Htr & Hsent & Hrx).
    split; [exact Hctl|]. split.
    + chan_split; exact Hst.
    + exists (evs ++ [Delivered c p]). simpl trace. rewrite Htr, <- app_assoc.
      split; [reflexivity|]. rewrite sent_on_app, delivered_to_app, Hsent.
      simpl. split; [reflexivity|].
      unfold len in *. rewrite length_app.
      chan_split; simpl; lia.
  - intros s p (Hctl & Hst & evs & Htr & Hsent & Hrx).
    split; [exact Hctl|]. split; [exact Hst|].
    exists (evs ++ [Dropped p]). simpl trace. rewrite Htr, <- app_assoc.
    split; [reflexivity|]. rewrite sent_on_app, delivered_to_app, Hsent.
    simpl. split; [reflexivity|]. rewrite app_nil_r. exact Hrx.
  - intros s c p rest _ (Hctl & Hst & evs & Htr & Hsent & Hrx).
    split; [exact Hctl|]. split.
    + chan_split; exact Hst.
    + exists evs. split; [exact Htr|]. split; [exact Hsent|].
      chan_split; exact Hrx.
  - intros s c q target amount _ _ _ (Hctl & Hst & evs & Htr & Hsent & Hrx).
    split; [exact Hctl|]. split.
    + chan_split; exact Hst.
    + exists (evs ++ [Granted target amount]). simpl trace.
      rewrite Htr, <- app_assoc.
      split; [reflexivity|]. rewrite sent_on_app, delivered_to_app, Hsent.
      simpl. split; [reflexivity|]. rewrite app_nil_r.
      chan_split; exact Hrx.
Qed.

(** One pass: the packet it sends, and what it leaves. *)
Lemma write_pass_events (budget : nat) (self : nat) (data : bytes) (s0 : D4)
    (m : Z) :
  D4Channel.mtu (chan self s0) = Some m ->
  open_channels s0 !! 0 <> Some self ->
  let ch := chan self s0 in
  let credit := Z.min (D4Channel.rx_credits_max ch - D4Channel.rx_credits ch) 0xFF in
  let payload := if m - 6 <? len data then slice data 0 (m - 6) else data in
  let pkt := D4Packet.Build (D4Channel.psid ch) (D4Channel.ssid ch) credit 2
                            payload in
  match write_pass budget self data s0 with
  | Done rest s' =>
      rest = slice_from data (len payload)
      /\ open_channels s' !! 0 <> Some self
      /\ static (chan self s') = static ch
      /\ exists evs,
           trace s' = trace s0 ++ evs ++ [Sent self pkt]
           /\ sent_on self evs = []
           /\ D4Channel.rx_credits (chan self s')
              = D4Channel.rx_credits ch + credit - len (delivered_to self evs)
  | Raised _ s' | Pending s' =>
      quiet self (trace s0) (D4Channel.rx_credits ch + credit) (static ch) s'
  end.
Proof.
  intros Hmtu Hctl. cbv zeta.
  unfold write_pass, bind, gets. rewrite Hmtu.
  cbn [modify]. change (Z.lor 0 2) with 2.
  set (credit := Z.min (D4Channel.rx_credits_max (chan self s0)
                        - D4Channel.rx_credits (chan self s0)) 255).
  set (payload := if m - 6 <? len data then slice data 0 (m - 6) else data).
  set (pkt := D4Packet.Build _ _ credit 2 payload).
  set (s1 := set_chan self _ s0).
  assert (Hq1 : quiet self (trace s0)
                  (D4Channel.rx_credits (chan self s0) + credit)
                  (static (chan self s0)) s1).
  { split; [exact Hctl|]. split.
    - unfold s1. rewrite chan_set_chan_eq. reflexivity.
    - exists []. rewrite app_nil_r. split; [reflexivity|].
      split; [reflexivity|]. unfold s1. rewrite chan_set_chan_eq. simpl.
      unfold len. simpl. lia. }
  pose proof (ensure_credit_keeps _ (quiet_cmd_stable self (trace s0)
                (D4Channel.rx_credits (chan self s0) + credit)
                (static (chan self s0)))
                budget self s1 Hq1) as Hq2.
  destruct (_ensure_credit budget self s1) as [[] s2|e s2|s2]; try exact Hq2.
  unfold write_packet, bind.
  destruct (pack_BBHBB _ _ _ _ _) as [header|e]; simpl lift; cbv beta iota.
  - cbn [ret transport_write modify].
    destruct Hq2 as (Hctl2 & Hst2 & evs & Htr & Hsent & Hrx).
    split; [reflexivity|]. split; [exact Hctl2|]. split.
    + chan_split; exact Hst2.
    + exists evs. simpl trace. rewrite Htr, <- app_assoc.
      split; [reflexivity|]. split; [exact Hsent|].
      chan_split; exact Hrx.
  - exact Hq2.
Qed.

(** *** Fragments *)

Lemma fragments_upto_enough (size : nat) :
  (0 < size)%nat ->
  forall (n n' : nat) (data : bytes),
    (length data <= n)%nat -> (length data <= n')%nat ->
    fragments_upto n size data = fragments_upto n' size data.
Proof.
  intros Hsize. induction n as [|n IH]; intros n' data Hn Hn'.
  - destruct data; [|simpl in Hn; lia]. destruct n'; reflexivity.
  - destruct n' as [|n'].
    + destruct data; [reflexivity | simpl in Hn'; lia].
    + simpl. destruct data as [|b data]; [reflexivity|].
      f_equal. apply IH; rewrite length_drop; simpl in *; lia.
Qed.

Lemma fragments_nil (size : Z) : fragments size [] = [].
Proof. reflexivity. Qed.

Lemma fragments_cons (size : Z) (b : byte) (data : bytes) :
  0 < size ->
  fragments size (b :: data)
  = take (Z.to_nat size) (b :: data)
      :: fragments size (drop (Z.to_nat size) (b :: data)).
Proof.
  intros Hsize. unfold fragments. simpl length.
  cbn [fragments_upto]. f_equal.
  apply fragments_upto_enough; [lia| |lia].
  rewrite length_drop. simpl. lia.
Qed.

(** The fragments are a cutting of the data: put end to end they give it
    back, each has between 1 and [size] bytes, and all but the last have
    [size]. *)
Lemma fragments_upto_concat (size : nat) :
  (0 < size)%nat ->
  forall (n : nat) (data : bytes),
    (length data <= n)%nat -> concat (fragments_upto n size data) = data.
Proof.
  intros Hsize. induction n as [|n IH]; intros data Hn.
  - destruct data; [reflexivity | simpl in Hn; lia].
  - simpl. destruct data as [|b data]; [reflexivity|].
    cbn [concat]. rewrite IH.
    + apply take_drop.
    + rewrite length_drop. simpl in *. lia.
Qed.

Lemma fragments_concat (size : Z) (data : bytes) :
  0 < size -> concat (fragments size data) = data.
Proof. intros Hsize. apply fragments_upto_concat; lia. Qed.

Lemma fragments_upto_sizes (size : nat) :
  (0 < size)%nat ->
  forall (n : nat) (data : bytes) (i : nat) (f : bytes),
    (length data <= n)%nat ->
    fragments_upto n size data !! i = Some f ->
    (0 < length f <= size)%nat
    /\ (S i < length (fragments_upto n size data) -> length f = size)%nat.
Proof.
  intros Hsize. induction n as [|n IH]; intros data i f Hn Hf.
  - simpl in Hf. discriminate.
  - simpl in Hf |- *. destruct data as [|b data]; [discriminate|].
    destruct i as [|i].
    + simpl in Hf. injection Hf as <-. rewrite length_take. simpl length.
      split; [lia|]. intros Hmore.
      destruct n as [|n]; [simpl in Hmore; lia|].
      simpl in Hmore.
      destruct (drop size (b :: data)) as [|b' rest] eqn:Hdrop;
        [simpl in Hmore; lia|].
      assert (Hlen : length (drop size (b :: data)) = S (length rest))
        by (rewrite Hdrop; reflexivity).
      rewrite length_drop in Hlen. simpl in Hlen. lia.
    + simpl in Hf.
      destruct (IH (drop size (b :: data)) i f) as [H1 H2]; [|exact Hf|].
      * rewrite length_drop. simpl in *. lia.
      * split; [exact H1|]. intros Hmore. apply H2. simpl in Hmore. lia.
Qed.

Lemma fragments_sizes (size : Z) (data : bytes) (i : nat) (f : bytes) :
  0 < size ->
  fragments size data !! i = Some f ->
  0 < len f <= size
  /\ ((S i < length (fragments size data))%nat -> len f = size).
Proof.
  intros Hsize Hf. unfold fragments in *.
  destruct (fragments_upto_sizes (Z.to_nat size) ltac:(lia)
              (length data) data i f ltac:(lia) Hf) as [H1 H2].
  unfold len. split; [lia|]. intros Hmore. specialize (H2 Hmore). lia.
Qed.

Lemma pass_payload (m : Z) (data : bytes) :
  6 < m ->
  (if m - 6 <? len data then slice data 0 (m - 6) else data)
  = take (Z.to_nat (m - 6)) data.
Proof.
  intros Hm. destruct (Z.ltb_spec (m - 6) (len data)) as [Hlt|Hge].
  - unfold slice, slice_bound.
    replace (0 <? 0) with false by reflexivity.
    replace (m - 6 <? 0) with false by (symmetry; apply Z.ltb_ge; lia).
    pose proof (len_nonneg data).
    rewrite (Z.min_l 0) by lia. rewrite (Z.min_l (m - 6)) by lia.
    rewrite Z.sub_0_r. reflexivity.
  - symmetry. apply take_ge. unfold len in Hge. lia.
Qed.

Lemma pass_rest (m : Z) (data : bytes) :
  6 < m ->
  slice_from data (len (take (Z.to_nat (m - 6)) data))
  = drop (Z.to_nat (m - 6)) data.
Proof.
  intros Hm. unfold slice_from, slice_bound, len.
  rewrite length_take.
  replace (Z.of_nat (Z.to_nat (m - 6) `min` length data) <? 0) with false
    by (symmetry; apply Z.ltb_ge; lia).
  rewrite Z.min_l by lia. rewrite Nat2Z.id.
  destruct (Nat.le_gt_cases (Z.to_nat (m - 6)) (length data)) as [Hle|Hgt].
  - rewrite Nat.min_l by exact Hle. reflexivity.
  - rewrite Nat.min_r by lia. rewrite !drop_ge by lia. reflexivity.
Qed.

(** *** The rule of the piggybacked credit *)

Lemma credit_replay_quiet (rx_max : Z) (self : nat) (e : Z)
    (evs rest : list event) :
  sent_on self evs = [] ->
  forall rx,
    credit_replay rx_max self e rx (evs ++ rest)
    = credit_replay rx_max self e (rx - len (delivered_to self evs)) rest.
Proof.
  induction evs as [|ev evs IH]; intros Hsent rx.
  - simpl. f_equal. unfold len. simpl. lia.
  - simpl in Hsent. apply app_eq_nil in Hsent. destruct Hsent as [Hev Hsent].
    destruct ev as [c p|c p|p|c n]; simpl.
    + destruct (decide (c = self)); [discriminate|].
      rewrite IH by exact Hsent. reflexivity.
    + rewrite IH by exact Hsent. f_equal.
      destruct (decide (c = self)); unfold len; simpl; lia.
    + rewrite IH by exact Hsent. reflexivity.
    + rewrite IH by exact Hsent. reflexivity.
Qed.

Lemma credit_replay_quiet_only (rx_max : Z) (self : nat) (e rx : Z)
    (evs : list event) :
  sent_on self evs = [] -> credit_replay rx_max self e rx evs = true.
Proof.
  intros Hsent. rewrite <- (app_nil_r evs).
  rewrite credit_replay_quiet by exact Hsent. reflexivity.
Qed.

(** *** A whole write *)

Lemma static_fields (ch ch' : D4Channel.t) :
  static ch' = static ch ->
  D4Channel.ssid ch' = D4Channel.ssid ch
  /\ D4Channel.psid ch' = D4Channel.psid ch
  /\ D4Channel.mtu ch' = D4Channel.mtu ch
  /\ D4Channel.rx_credits_max ch' = D4Channel.rx_credits_max ch.
Proof. unfold static. intros H. injection H. auto. Qed.

Lemma write_loop_events (m : Z) (self : nat) (budget : nat) :
  6 < m ->
  forall (passes : nat) (data : bytes) (s0 : D4),
    D4Channel.mtu (chan self s0) = Some m ->
    open_channels s0 !! 0 <> Some self ->
    exists evs,
      trace (state_of (write_loop passes budget self data s0)) = trace s0 ++ evs
      /\ static (chan self (state_of (write_loop passes budget self data s0)))
         = static (chan self s0)
      /\ map D4Packet.payload (sent_on self evs)
           `prefix_of` fragments (m - 6) data
      /\ Forall (data_packet (chan self s0)) (sent_on self evs)
      /\ credit_law (D4Channel.rx_credits_max (chan self s0)) self
           (D4Channel.rx_credits (chan self s0)) evs = true
      /\ (is_done (write_loop passes budget self data s0) = true ->
          map D4Packet.payload (sent_on self evs) = fragments (m - 6) data
          /\ D4Channel.rx_credits
               (chan self (state_of (write_loop passes budget self data s0)))
             = D4Channel.rx_credits (chan self s0)
               + sum (map D4Packet.credit (sent_on self evs))
               - len (delivered_to self evs)).
Proof.
  intros Hm. induction passes as [|passes IH]; intros data s0 Hmtu Hctl.
  - exists []. rewrite app_nil_r. destruct data as [|b data]; simpl.
    + repeat split; try reflexivity; try constructor.
      unfold len. simpl. lia.
    + repeat split; try reflexivity; try constructor.
      * apply prefix_nil.
      * discriminate.
      * discriminate.
  - destruct data as [|b data].
    { exists []. rewrite app_nil_r. simpl.
      repeat split; try reflexivity; try constructor.
      unfold len. simpl. lia. }
    cbn [write_loop]. unfold bind.
    pose proof (write_pass_events budget self (b :: data) s0 m Hmtu Hctl) as Hp.
    cbv zeta in Hp. rewrite pass_payload in Hp by exact Hm.
    set (e0 := Z.min (D4Channel.rx_credits_max (chan self s0)
                      - D4Channel.rx_credits (chan self s0)) 255) in *.
    destruct (write_pass budget self (b :: data) s0) as [rest s1|e s1|s1].
    + destruct Hp as (-> & Hctl1 & Hst1 & evs1 & Htr1 & Hsent1 & Hrx1).
      rewrite pass_rest by exact Hm.
      destruct (static_fields _ _ Hst1) as (Hssid & Hpsid & Hmtu1 & Hmax).
      rewrite Hmtu in Hmtu1.
      destruct (IH (drop (Z.to_nat (m - 6)) (b :: data)) s1 Hmtu1 Hctl1)
        as (evs2 & Htr2 & Hst2 & Hpre2 & Hall2 & Hlaw2 & Hdone2).
      set (pkt := D4Packet.Build _ _ e0 2 _) in Htr1.
      exists (evs1 ++ [Sent self pkt] ++ evs2).
      split; [rewrite Htr2, Htr1, <- !app_assoc; reflexivity|].
      split; [rewrite Hst2; exact Hst1|].
      rewrite !sent_on_app, Hsent1. simpl sent_on.
      destruct (decide (self = self)); [|contradiction]. simpl app.
      rewrite fragments_cons by lia.
      split; [|split; [|split]].
      * simpl map. apply prefix_cons. exact Hpre2.
      * constructor.
        -- unfold data_packet, pkt. simpl. auto.
        -- eapply Forall_impl; [exact Hall2|].
           intros pk (H1 & H2 & H3). unfold data_packet.
           rewrite <- Hpsid, <- Hssid. auto.
      * unfold credit_law. fold e0.
        rewrite credit_replay_quiet by exact Hsent1.
        simpl. destruct (decide (self = self)); [|contradiction].
        rewrite Z.eqb_refl. simpl.
        unfold credit_law in Hlaw2. rewrite Hmax, Hrx1 in Hlaw2.
        exact Hlaw2.
      * intros Hdone. destruct (Hdone2 Hdone) as [Hfr Hrx2].
        split; [simpl map; rewrite Hfr; reflexivity|].
        rewrite Hrx2, Hrx1. rewrite !delivered_to_app. simpl delivered_to.
        unfold len. rewrite !length_app. simpl. unfold sum. simpl. lia.
    + destruct Hp as (Hctl1 & Hst1 & evs1 & Htr1 & Hsent1 & Hrx1).
      exists evs1. simpl. rewrite Hsent1.
      repeat split; try assumption; try constructor.
      * apply prefix_nil.
      * apply credit_replay_quiet_only. exact Hsent1.
      * discriminate.
      * discriminate.
    + destruct Hp as (Hctl1 & Hst1 & evs1 & Htr1 & Hsent1 & Hrx1).
      exists evs1. simpl. rewrite Hsent1.
      repeat split; try assumption; try constructor.
      * apply prefix_nil.
      * apply credit_replay_quiet_only. exact Hsent1.
      * discriminate.
      * discriminate.
Qed.

Lemma u8_ok (x : Z) : 0 <= x < 256 -> u8 x = Ok [byte_of_Z x].
Proof.
  intros Hx. unfold u8.
  replace (0 <=? x) with true by (symmetry; apply Z.leb_le; lia).
  replace (x <? 256) with true by (symmetry; apply Z.ltb_lt; lia).
  reflexivity.
Qed.

Lemma u16be_ok (x : Z) :
  0 <= x < 65536 -> u16be x = Ok [byte_of_Z (x / 256); byte_of_Z x].
Proof.
  intros Hx. unfold u16be.
  replace (0 <=? x) with true by (symmetry; apply Z.leb_le; lia).
  replace (x <? 65536) with true by (symmetry; apply Z.ltb_lt; lia).
  reflexivity.
Qed.

Lemma pack_BBHBB_ok (p ssid length credit control : Z) :
  0 <= p < 256 -> 0 <= ssid < 256 -> 0 <= length < 65536 ->
  0 <= credit < 256 -> 0 <= control < 256 ->
  exists header, pack_BBHBB (Some p) ssid length credit control = Ok header.
Proof.
  intros Hp Hs Hl Hc Hk. unfold pack_BBHBB, u8_opt.
  rewrite !u8_ok, u16be_ok by assumption. simpl. eauto.
Qed.

Lemma fragments_count (size : Z) (b : byte) (data : bytes) :
  0 < size ->
  len (fragments size (b :: data))
  = 1 + len (fragments size (drop (Z.to_nat size) (b :: data))).
Proof.
  intros Hsize. rewrite fragments_cons by exact Hsize.
  unfold len. simpl length. lia.
Qed.

(** With credit for every fragment, a write returns without a word from
    the device. *)
Lemma write_loop_progress (m p : Z) (self : nat) (budget : nat) :
  6 < m <= 65535 -> 0 <= p < 256 ->
  forall (passes : nat) (data : bytes) (s0 : D4),
    D4Channel.mtu (chan self s0) = Some m ->
    D4Channel.psid (chan self s0) = Some p ->
    0 <= D4Channel.ssid (chan self s0) < 256 ->
    D4Channel.rx_credits (chan self s0) <= D4Channel.rx_credits_max (chan self s0) ->
    len (fragments (m - 6) data) <= D4Channel.tx_credits (chan self s0) ->
    len (fragments (m - 6) data) <= Z.of_nat passes ->
    exists pkts s',
      write_loop passes budget self data s0 = Done tt s'
      /\ trace s' = trace s0 ++ map (Sent self) pkts
      /\ transport.incoming (transport s') = transport.incoming (transport s0).
Proof.
  intros Hm Hp. induction passes as [|passes IH];
    intros data s0 Hmtu Hpsid Hssid Hrx Htx Hpasses.
  - destruct data as [|b data].
    + exists [], s0. simpl. rewrite app_nil_r. auto.
    + rewrite fragments_count in Hpasses by lia.
      pose proof (len_nonneg (fragments (m - 6)
                                (drop (Z.to_nat (m - 6)) (b :: data)))). lia.
  - destruct data as [|b data].
    + exists [], s0. simpl. rewrite app_nil_r. auto.
    + rewrite fragments_count in Htx, Hpasses by lia.
      pose proof (len_nonneg (fragments (m - 6)
                                (drop (Z.to_nat (m - 6)) (b :: data)))) as Hnn.
      cbn [write_loop]. unfold bind at 1.
      unfold write_pass, bind, gets. rewrite Hmtu. cbn [modify].
      rewrite pass_payload by lia. rewrite pass_rest by lia.
      change (Z.lor 0 2) with 2.
      set (credit := Z.min (D4Channel.rx_credits_max (chan self s0)
                            - D4Channel.rx_credits (chan self s0)) 255).
      set (payload := take (Z.to_nat (m - 6)) (b :: data)).
      set (s1 := set_chan self _ s0).
      assert (Hch1 : chan self s1
                     = D4Channel.set_rx_credits
                         (D4Channel.rx_credits (chan self s0) + credit)
                         (chan self s0)).
      { unfold s1. apply chan_set_chan_eq. }
      unfold _ensure_credit, bind, gets. rewrite Hch1.
      cbn [D4Channel.tx_credits D4Channel.set_rx_credits].
      replace (D4Channel.tx_credits (chan self s0) <? 1) with false
        by (symmetry; apply Z.ltb_ge; lia).
      cbn [ret]. unfold write_packet, bind.
      cbn [D4Packet.psid D4Packet.ssid D4Packet.credit D4Packet.control
           D4Packet.payload].
      destruct (pack_BBHBB_ok p (D4Channel.ssid (chan self s0))
                  (6 + len payload) credit 2) as [header Hheader];
        try lia.
      { unfold payload, len. rewrite length_take. lia. }
      rewrite Hpsid, Hheader. cbn [lift ret transport_write modify].
      set (pkt := D4Packet.Build (Some p) _ credit 2 payload).
      set (s2 := log (Sent self pkt) _).
      assert (Hch2 : chan self s2
                     = D4Channel.set_tx_credits
                         (D4Channel.tx_credits (chan self s0) - 1)
                         (D4Channel.set_rx_credits
                            (D4Channel.rx_credits (chan self s0) + credit)
                            (chan self s0))).
      { unfold s2. rewrite chan_log, chan_set_chan_eq, chan_set_transport, Hch1.
        reflexivity. }
      assert (Hcredit : credit <= D4Channel.rx_credits_max (chan self s0)
                                  - D4Channel.rx_credits (chan self s0))
        by (unfold credit; lia).
      destruct (IH (drop (Z.to_nat (m - 6)) (b :: data)) s2)
        as (pkts & s' & Hrun & Htr & Hin).
      { rewrite Hch2. exact Hmtu. }
      { rewrite Hch2. exact Hpsid. }
      { rewrite Hch2. exact Hssid. }
      { rewrite Hch2. simpl. lia. }
      { rewrite Hch2. simpl. lia. }
      { lia. }
      exists (pkt :: pkts), s'. split; [exact Hrun|]. split.
      * rewrite Htr. unfold s2. simpl. rewrite <- app_assoc. reflexivity.
      * rewrite Hin. reflexivity.
Qed.

(** With an mtu of 6 a write of something never returns: every pass sends
    an empty payload and leaves the data as it was. *)
Lemma mtu_stable (self : nat) (v : option Z) :
  Stable (fun s => D4Channel.mtu (chan self s) = v).
Proof.
  split; [split|..]; intros; chan_split; assumption.
Qed.

Lemma write_loop_mtu6 (self : nat) (budget : nat) :
  forall (passes : nat) (data : bytes) (s0 : D4),
    data <> [] ->
    D4Channel.mtu (chan self s0) = Some 6 ->
    is_done (write_loop passes budget self data s0) = false.
Proof.
  induction passes as [|passes IH]; intros data s0 Hdata Hmtu;
    destruct data as [|b data]; try contradiction; [reflexivity|].
  cbn [write_loop]. unfold bind.
  pose proof (write_pass_keeps _ (mtu_stable self (Some 6)) budget self
                (b :: data) s0 Hmtu) as Hkeep.
  destruct (write_pass budget self (b :: data) s0) as [rest s1|e s1|s1] eqn:Hpass;
    try reflexivity.
  assert (Hrest : rest = b :: data).
  { unfold write_pass, bind, gets in Hpass. rewrite Hmtu in Hpass.
    cbn [modify] in Hpass.
    destruct (_ensure_credit budget self _) as [[] s2|e s2|s2];
      try discriminate.
    destruct (write_packet self _ s2) as [[] s3|e s3|s3]; try discriminate.
    simpl in Hpass. injection Hpass as <- _. reflexivity. }
  subst rest. apply IH; [discriminate | exact Hkeep].
Qed.

Lemma events_since_app (s s' : D4) (evs : list event) :
  trace s' = trace s ++ evs -> events_since s s' = evs.
Proof.
  intros Htr. unfold events_since. rewrite Htr. apply drop_app_length.
Qed.

Lemma sent_on_map_Sent (self : nat) (pkts : list D4Packet.t) :
  sent_on self (map (Sent self) pkts) = pkts.
Proof.
  induction pkts as [|pk pkts IH]; simpl; [reflexivity|].
  destruct (decide (self = self)); [|contradiction].
  simpl. f_equal. exact IH.
Qed.

Lemma channel_write_balance (budget : nat) (self : nat) (data : bytes)
    (c : nat) (s : D4) :
  D4Channel.tx_credits (chan c (state_of (channel_write budget self data s)))
  = D4Channel.tx_credits (chan c s)
    + credits_received c
        (events_since s (state_of (channel_write budget self data s)))
    + credits_granted c
        (events_since s (state_of (channel_write budget self data s)))
    - packets_sent c
        (events_since s (state_of (channel_write budget self data s))).
Proof.
  destruct (preserves_state_of
              (fun s' => balance c s' = balance c s /\ extends (trace s) s')
              (channel_write budget self data) s) as [Hb He].
  - apply channel_write_keeps, balance_stable.
  - split; [reflexivity | apply extends_refl].
  - apply balance_change; assumption.
Qed.

(** C4, as the code has it.  On an opened channel with mtu m > 6 that the
    table does not hold as its control channel, a write sends the payload
    in consecutive fragments of m - 6 bytes (the last possibly shorter), in
    order: what has gone out so far is always a first part of that list,
    and all of it once the write has returned.  Every packet carries the
    channel's socket ids and control = 2; its credit is
    min(rx_credits_max - rx_credits, 0xFF) for the rx_credits its pass
    started with, and rx_credits grows by it; tx_credits drops by one per
    packet sent (and grows by what the device grants meanwhile).  The
    frames written to the transport are those of the packets sent, in
    order.  With credit for every fragment the write returns, and sends
    nothing else. *)
Theorem channel_write_fragments (budget : nat) (self : nat) (data : bytes)
    (s : D4) (m : Z) :
  D4Channel.mtu (chan self s) = Some m ->
  6 < m ->
  open_channels s !! 0 <> Some self ->
  let o := channel_write budget self data s in
  let evs := events_since s (state_of o) in
  let pkts := sent_on self evs in
  map D4Packet.payload pkts `prefix_of` fragments (m - 6) data
  /\ (is_done o = true -> map D4Packet.payload pkts = fragments (m - 6) data)
  /\ Forall (data_packet (chan self s)) pkts
  /\ credit_law (D4Channel.rx_credits_max (chan self s)) self
       (D4Channel.rx_credits (chan self s)) evs = true
  /\ (is_done o = true ->
      D4Channel.rx_credits (chan self (state_of o))
      = D4Channel.rx_credits (chan self s)
        + sum (map D4Packet.credit pkts) - len (delivered_to self evs))
  /\ D4Channel.tx_credits (chan self (state_of o))
     = D4Channel.tx_credits (chan self s)
       + credits_received self evs + credits_granted self evs - len pkts
  /\ Forall2 framed (sent_packets evs) (frames_since s (state_of o))
  /\ (forall p,
        D4Channel.psid (chan self s) = Some p -> 0 <= p < 256 ->
        0 <= D4Channel.ssid (chan self s) < 256 -> m <= 65535 ->
        D4Channel.rx_credits (chan self s)
        <= D4Channel.rx_credits_max (chan self s) ->
        len (fragments (m - 6) data) <= D4Channel.tx_credits (chan self s) ->
        len (fragments (m - 6) data) <= Z.of_nat budget ->
        is_done o = true /\ evs = map (Sent self) pkts).
Proof.
  intros Hmtu Hm Hctl o evs pkts.
  destruct (write_loop_events m self budget Hm budget data s Hmtu Hctl)
    as (evs' & Htr & Hst & Hpre & Hall & Hlaw & Hdone).
  assert (Hevs : evs = evs') by (apply events_since_app; exact Htr).
  subst pkts. rewrite Hevs.
  split; [exact Hpre|].
  split; [intros Hd; apply (Hdone Hd)|].
  split; [exact Hall|].
  split; [exact Hlaw|].
  split; [intros Hd; apply (Hdone Hd)|].
  split; [rewrite <- Hevs; apply channel_write_balance|].
  split; [rewrite <- Hevs; apply channel_write_on_wire|].
  - intros p Hpsid Hp Hssid Hm' Hrx Htx Hbud.
    destruct (write_loop_progress m p self budget (conj Hm Hm') Hp budget data s
                Hmtu Hpsid Hssid Hrx Htx Hbud)
      as (pkts & s' & Hrun & Htr' & _).
    assert (Ho : o = Done tt s') by exact Hrun.
    split; [rewrite Ho; reflexivity|].
    rewrite <- Hevs. subst evs. rewrite Ho. simpl state_of.
    rewrite (events_since_app s s' _ Htr'), sent_on_map_Sent. reflexivity.
Qed.

(** A write of three bytes on the entered control channel (mtu 512, one
    credit): one packet, the three bytes in it. *)
Lemma channel_write_fragments_witness :
  let s := engine_entered 512 1 [] in
  let o := channel_write 1 1%nat [x01; x02; x03] s in
  is_done o = true
  /\ map D4Packet.payload (sent_on 1%nat (events_since s (state_of o)))
     = [[x01; x02; x03]]
  /\ Forall (data_packet (chan 1%nat s))
            (sent_on 1%nat (events_since s (state_of o))).
Proof.
  intros s o. subst o.
  assert (Hmtu : D4Channel.mtu (chan 1%nat s) = Some 512)
    by (vm_compute; reflexivity).
  assert (Hm : 6 < 512) by lia.
  assert (Hctl : open_channels s !! 0 <> Some 1%nat)
    by (vm_compute; discriminate).
  destruct (channel_write_fragments 1 1%nat [x01; x02; x03] s 512 Hmtu Hm Hctl)
    as (_ & Hdone & Hall & _ & _ & _ & _ & Hgo).
  assert (Hpsid : D4Channel.psid (chan 1%nat s) = Some 2)
    by (vm_compute; reflexivity).
  assert (Hssid : D4Channel.ssid (chan 1%nat s) = 2)
    by (vm_compute; reflexivity).
  assert (Hrx : D4Channel.rx_credits (chan 1%nat s) = 1)
    by (vm_compute; reflexivity).
  assert (Hmax : D4Channel.rx_credits_max (chan 1%nat s) = 1)
    by (vm_compute; reflexivity).
  assert (Htx : D4Channel.tx_credits (chan 1%nat s) = 1)
    by (vm_compute; reflexivity).
  assert (Hlen : len (fragments (512 - 6) [x01; x02; x03]) = 1)
    by (vm_compute; reflexivity).
  destruct (Hgo 2 Hpsid) as [Hd _];
    rewrite ?Hssid, ?Hrx, ?Hmax, ?Htx, ?Hlen; try lia.
  split; [exact Hd|]. split; [|exact Hall].
  rewrite (Hdone Hd). reflexivity.
Defined.

(** With an mtu of 6 the claim of C4 fails: on the entered channel, with
    credit, a write of one byte never returns whatever the budget; with a
    budget of 3 it has sent one packet, with an empty payload. *)
Lemma channel_write_mtu6_never_returns :
  let s := engine_entered 6 1 [] in
  D4Channel.mtu (chan 1%nat s) = Some 6
  /\ D4Channel.tx_credits (chan 1%nat s) = 1
  /\ ~ (exists budget, is_done (channel_write budget 1%nat [x01] s) = true)
  /\ map D4Packet.payload
       (sent_on 1%nat (events_since s (state_of (channel_write 3 1%nat [x01] s))))
     = [[]].
Proof.
  intros s.
  assert (Hmtu : D4Channel.mtu (chan 1%nat s) = Some 6)
    by (vm_compute; reflexivity).
  split; [exact Hmtu|]. split; [vm_compute; reflexivity|]. split.
  - intros [budget Hdone]. unfold channel_write in Hdone.
    rewrite write_loop_mtu6 in Hdone; [discriminate|discriminate|exact Hmtu].
  - vm_compute. reflexivity.
Qed.

Lemma write_loop_control (self : nat) (budget : nat) :
  forall (passes : nat) (data : bytes) (s0 : D4),
    open_channels s0 !! 0 <> Some self ->
    exists evs,
      trace (state_of (write_loop passes budget self data s0)) = trace s0 ++ evs
      /\ Forall (fun pk => D4Packet.control pk = 2) (sent_on self evs).
Proof.
  induction passes as [|passes IH]; intros data s0 Hctl.
  - exists []. rewrite app_nil_r. destruct data; simpl; split; auto.
  - destruct data as [|b data].
    { exists []. rewrite app_nil_r. simpl. split; auto. }
    cbn [write_loop]. unfold bind.
    destruct (D4Channel.mtu (chan self s0)) as [m|] eqn:Hmtu.
    + pose proof (write_pass_events budget self (b :: data) s0 m Hmtu Hctl) as Hp.
      cbv zeta in Hp.
      destruct (write_pass budget self (b :: data) s0) as [rest s1|e s1|s1].
      * destruct Hp as (_ & Hctl1 & _ & evs1 & Htr1 & Hsent1 & _).
        destruct (IH rest s1 Hctl1) as (evs2 & Htr2 & Hall2).
        eexists (evs1 ++ [Sent self _] ++ evs2).
        split; [rewrite Htr2, Htr1, <- !app_assoc; reflexivity|].
        rewrite !sent_on_app, Hsent1. simpl sent_on.
        destruct (decide (self = self)); [|contradiction]. simpl app.
        constructor; [reflexivity | exact Hall2].
      * destruct Hp as (_ & _ & evs1 & Htr1 & Hsent1 & _).
        exists evs1. simpl. rewrite Hsent1. auto.
      * destruct Hp as (_ & _ & evs1 & Htr1 & Hsent1 & _).
        exists evs1. simpl. rewrite Hsent1. auto.
    + unfold write_pass, bind, gets. rewrite Hmtu. simpl.
      exists []. rewrite app_nil_r. auto.
Qed.

(** C2, as the code has it.  A write of a zero-length payload returns at
    once and leaves the engine as it was: no packet goes out and no frame
    is written.  Every packet a write does send on its channel has
    control = 2. *)
Theorem channel_write_empty (budget : nat) (self : nat) (s : D4) :
  channel_write budget self [] s = Done tt s
  /\ frames_since s (state_of (channel_write budget self [] s)) = []
  /\ (forall data,
        open_channels s !! 0 <> Some self ->
        Forall (fun pk => D4Packet.control pk = 2)
               (sent_on self
                  (events_since s (state_of (channel_write budget self data s))))).
Proof.
  assert (Hempty : channel_write budget self [] s = Done tt s)
    by (unfold channel_write; destruct budget; reflexivity).
  split; [exact Hempty|]. split.
  - rewrite Hempty. unfold frames_since. simpl. apply drop_all.
  - intros data Hctl.
    destruct (write_loop_control self budget budget data s Hctl)
      as (evs & Htr & Hall).
    unfold channel_write. rewrite (events_since_app _ _ _ Htr). exact Hall.
Qed.

Lemma channel_write_empty_witness :
  let s := engine_entered 512 1 [] in
  channel_write 1 1%nat [] s = Done tt s
  /\ Forall (fun pk => D4Packet.control pk = 2)
            (sent_on 1%nat
               (events_since s (state_of (channel_write 1 1%nat [x01; x02] s)))).
Proof.
  intros s.
  assert (Hctl : open_channels s !! 0 <> Some 1%nat)
    by (vm_compute; discriminate).
  destruct (channel_write_empty 1 1%nat s) as (Hempty & _ & Hall).
  split; [exact Hempty | exact (Hall [x01; x02] Hctl)].
Defined.

(** The claim of C2 fails on the entered channel: a write of nothing sends
    no packet and writes no frame. *)
Lemma channel_write_empty_emits_nothing :
  let s := engine_entered 512 1 [] in
  open_channels s !! 2 = Some 1%nat
  /\ frames_since s (state_of (channel_write 1 1%nat [] s)) = []
  /\ ~ empty_write_emits 1 1%nat s.
Proof.
  intros s. split; [vm_compute; reflexivity|].
  split; [vm_compute; reflexivity|].
  intros (pk & Hin & _). vm_compute in Hin. exact Hin.
Qed.

(** The claim of C3 fails when a write has to ask for credit: the channel
    starts with none, the device grants one, the packet goes out, and
    tx_credits ends at 0 where the credit fields alone give -1. *)
Lemma credit_conservation_needs_grants :
  let s := engine_entered 512 0 (script_grant 1) in
  let s' := run_ios [(1%nat, Write 1%nat [x01])] s in
  D4Channel.tx_credits (chan 1%nat s) = 0
  /\ D4Channel.tx_credits (chan 1%nat s') = 0
  /\ packets_sent 1%nat (events_since s s') = 1
  /\ credits_granted 1%nat (events_since s s') = 1
  /\ ~ conserved_by_credit_fields 1%nat s s'.
Proof.
  intros s s'. repeat split; try (vm_compute; reflexivity).
  unfold conserved_by_credit_fields. vm_compute. discriminate.
Qed.

Lemma reachable_engine_overrun : reachable engine_overrun.
Proof.
  unfold engine_overrun.
  apply reachable_call; [|vm_compute; lia].
  apply reachable_call; [|vm_compute; lia].
  apply reachable_call.
  - apply reachable_call; [|exact I].
    apply (reachable_init 1 (link (script_open 512 1 ++ data_packet_bytes
                                     ++ data_packet_bytes))).
    vm_compute. reflexivity.
  - split; [vm_compute; lia|]. split; [vm_compute; reflexivity|].
    intros p Hp.
    assert (Htab : open_channels
                     (run_call 1 (CallChannel "EPSON-CTRL") engine_overrun_start)
                   = {[ 0 := 0%nat ]}) by (vm_compute; reflexivity).
    rewrite Htab in Hp. apply lookup_singleton_Some in Hp.
    destruct Hp as [_ Hp]. discriminate Hp.
Qed.

(** The claim of C1 fails when the device sends more than it was given
    credit for: the entered channel advertised one credit, the device sent
    two packets with well-formed headers, the engine queued both, and the
    channel's rx_credits is -1. *)
Lemma credits_in_bounds_fails :
  reachable engine_overrun
  /\ open_channels engine_overrun !! 2 = Some 1%nat
  /\ D4Channel.rx_credits (chan 1%nat engine_overrun) = -1
  /\ ~ credits_in_bounds engine_overrun.
Proof.
  assert (Htab : open_channels engine_overrun !! 2 = Some 1%nat)
    by (vm_compute; reflexivity).
  assert (Hrx : D4Channel.rx_credits (chan 1%nat engine_overrun) = -1)
    by (vm_compute; reflexivity).
  split; [exact reachable_engine_overrun|].
  repeat split; try assumption.
  intros Hbounds. destruct (Hbounds 2 1%nat Htab) as [_ [Hlo _]].
  rewrite Hrx in Hlo. lia.
Qed.

Lemma credits_stay_bounded_witness :
  credits_bounded_above engine_overrun.
Proof.
  apply credits_stay_bounded. exact reachable_engine_overrun.
Defined.

(** The control channel as construction leaves it: the reply to [Init]
    was counted against its rx_credits, which started at 0. *)
Example control_channel_after_init :
  open_channels engine_constructed !! 0 = Some 0%nat
  /\ D4Channel.tx_credits (chan 0%nat engine_constructed) = 1
  /\ D4Channel.rx_credits (chan 0%nat engine_constructed) = -1.
Proof. vm_compute. repeat split; reflexivity. Qed.

(** Why the calls of [reachable] leave [Exit] out and enter a channel
    once: an [Exit] sent with no control credit takes channel 0's
    tx_credits to -1, and a channel entered a second time has
    rx_credits 2 over an rx_credits_max of 1. *)
Example exit_without_credit :
  let s := state_of (D4_init 1 (link script_init_exit)) in
  D4Channel.tx_credits (chan 0%nat s) = 0
  /\ D4Channel.tx_credits (chan 0%nat (state_of (Exit 1 s))) = -1.
Proof. vm_compute. split; reflexivity. Qed.

Example enter_twice :
  let s := engine_entered 512 1 script_reenter in
  let s' := state_of (channel_enter 1 1%nat (state_of (channel_exit 1 1%nat s))) in
  open_channels s' !! 2 = Some 1%nat
  /\ D4Channel.rx_credits (chan 1%nat s') = 2
  /\ D4Channel.rx_credits_max (chan 1%nat s') = 1.
Proof. vm_compute. repeat split; reflexivity. Qed.

(* ===================================================================== *)
(** ** Further properties: the D4 engine *)
(* ===================================================================== *)

(** *** Packets on the link: framing *)

Lemma u8_cases (x : Z) :
  (0 <= x < 256 /\ u8 x = Ok [byte_of_Z x])
  \/ (~ 0 <= x < 256 /\ u8 x = Raise StructError).
Proof.
  unfold u8.
  destruct (Z.leb_spec 0 x), (Z.ltb_spec x 256); simpl;
    first [left; split; [lia | reflexivity] | right; split; [lia | reflexivity]].
Qed.

Lemma u16be_cases (x : Z) :
  (0 <= x < 65536 /\ u16be x = Ok [byte_of_Z (x / 256); byte_of_Z x])
  \/ (~ 0 <= x < 65536 /\ u16be x = Raise StructError).
Proof.
  unfold u16be.
  destruct (Z.leb_spec 0 x), (Z.ltb_spec x 65536); simpl;
    first [left; split; [lia | reflexivity] | right; split; [lia | reflexivity]].
Qed.

Lemma byte_val_of_Z_mod (z : Z) : byte_val (byte_of_Z z) = z mod 256.
Proof.
  rewrite <- (byte_val_of_Z (z mod 256)) by (apply Z.mod_pos_bound; lia).
  unfold byte_of_Z. rewrite Z.mod_mod by lia. reflexivity.
Qed.

Lemma be16_of_Z (x : Z) :
  0 <= x < 65536 -> be16 (byte_of_Z (x / 256)) (byte_of_Z x) = x.
Proof.
  intros Hx. unfold be16. rewrite (byte_val_of_Z_mod x).
  rewrite (byte_val_of_Z (x / 256))
    by (split; [apply Z.div_pos; lia | apply Z.div_lt_upper_bound; lia]).
  pose proof (Z.div_mod x 256). lia.
Qed.

(** The frame of a packet whose fields fit, and no frame otherwise. *)
Lemma frame_cases (p : D4Packet.t) :
  (packable p
   /\ exists q, D4Packet.psid p = Some q
        /\ frame p
           = Ok ([byte_of_Z q; byte_of_Z (D4Packet.ssid p);
                  byte_of_Z ((6 + len (D4Packet.payload p)) / 256);
                  byte_of_Z (6 + len (D4Packet.payload p));
                  byte_of_Z (D4Packet.credit p); byte_of_Z (D4Packet.control p)]
                 ++ D4Packet.payload p))
  \/ (~ packable p /\ frame p = Raise StructError).
Proof.
  unfold packable, frame, pack_BBHBB, u8_opt.
  pose proof (len_nonneg (D4Packet.payload p)) as Hlen.
  destruct (D4Packet.psid p) as [q|].
  - destruct (u8_cases q) as [[Hq ->]|[Hq ->]];
      [|right; split; [intros ((q' & Hq' & ?) & _); injection Hq' as ->; lia
                      | reflexivity]].
    destruct (u8_cases (D4Packet.ssid p)) as [[Hs ->]|[Hs ->]];
      [|right; split; [intros (_ & ? & _); lia | reflexivity]].
    destruct (u16be_cases (6 + len (D4Packet.payload p))) as [[Hl ->]|[Hl ->]];
      [|right; split; [intros (_ & _ & ? & _); lia | reflexivity]].
    destruct (u8_cases (D4Packet.credit p)) as [[Hc ->]|[Hc ->]];
      [|right; split; [intros (_ & _ & _ & ? & _); lia | reflexivity]].
    destruct (u8_cases (D4Packet.control p)) as [[Hk ->]|[Hk ->]];
      [|right; split; [intros (_ & _ & _ & _ & ?); lia | reflexivity]].
    left. split.
    + split; [exists q; split; [reflexivity | lia]|]. lia.
    + exists q. split; reflexivity.
  - right. split; [|reflexivity]. intros ((q & Hq & _) & _). discriminate.
Qed.

Lemma frame_packable (p : D4Packet.t) :
  (packable p ->
   exists q, D4Packet.psid p = Some q
     /\ frame p
        = Ok ([byte_of_Z q; byte_of_Z (D4Packet.ssid p);
               byte_of_Z ((6 + len (D4Packet.payload p)) / 256);
               byte_of_Z (6 + len (D4Packet.payload p));
               byte_of_Z (D4Packet.credit p); byte_of_Z (D4Packet.control p)]
              ++ D4Packet.payload p))
  /\ (~ packable p -> frame p = Raise StructError).
Proof.
  destruct (frame_cases p) as [[Hp Hfr]|[Hn Hfr]]; split; intros H;
    try assumption; contradiction.
Qed.

Lemma framed_packable (p : D4Packet.t) (fr : bytes) :
  frame p = Ok fr -> packable p.
Proof.
  intros Hfr. destruct (frame_cases p) as [[Hp _]|[_ Hn]]; [exact Hp|].
  rewrite Hn in Hfr. discriminate.
Qed.

Lemma write_packet_frame (c : nat) (p : D4Packet.t) (s : D4) :
  write_packet c p s
  = match frame p with
    | Ok fr => Done tt (upd_sent c p fr s)
    | Raise e => Raised e s
    end.
Proof.
  unfold write_packet, frame, bind.
  destruct (pack_BBHBB _ _ _ _ _); reflexivity.
Qed.

(** X1.  [write_packet] packs the header before it does anything else: a packet
    whose fields fit the header goes out as one frame (the six bytes of
    the header, big endian length, then the payload) and costs the channel
    one credit; a packet with a field out of range (no psid, a field
    outside 0..255, a payload over 65529 bytes) raises [struct.error] with
    nothing written and no credit taken. *)
Theorem write_packet_packs (c : nat) (p : D4Packet.t) (s : D4) :
  (packable p ->
   exists q fr s',
     D4Packet.psid p = Some q
     /\ write_packet c p s = Done tt s'
     /\ map byte_val fr
        = [q; D4Packet.ssid p;
           (6 + len (D4Packet.payload p)) / 256;
           (6 + len (D4Packet.payload p)) mod 256;
           D4Packet.credit p; D4Packet.control p]
          ++ map byte_val (D4Packet.payload p)
     /\ transport.written (transport s')
        = transport.written (transport s) ++ [fr]
     /\ D4Channel.tx_credits (chan c s') = D4Channel.tx_credits (chan c s) - 1
     /\ trace s' = trace s ++ [Sent c p])
  /\ (~ packable p -> write_packet c p s = Raised StructError s).
Proof.
  rewrite write_packet_frame.
  destruct (frame_packable p) as [Hyes Hno]. split.
  - intros Hp. pose proof Hp as ((q0 & Hq0 & Hq0r) & Hs & Hl & Hc & Hk).
    destruct (Hyes Hp) as (q & Hq & ->).
    assert (q0 = q) by congruence. subst q0.
    pose proof (len_nonneg (D4Packet.payload p)) as Hlen.
    match goal with
    | |- context [Done tt (upd_sent c p ?fr s)] =>
        exists q, fr, (upd_sent c p fr s)
    end.
    split; [exact Hq|]. split; [reflexivity|].
    split.
    { rewrite map_app. cbn [map].
      rewrite !byte_val_of_Z_mod.
      rewrite (Z.mod_small q), (Z.mod_small (D4Packet.ssid p)),
        (Z.mod_small (D4Packet.credit p)), (Z.mod_small (D4Packet.control p))
        by lia.
      rewrite (Z.mod_small (_ / 256))
        by (split; [apply Z.div_pos; lia | apply Z.div_lt_upper_bound; lia]).
      reflexivity. }
    split; [reflexivity|]. split; [|reflexivity].
    rewrite chan_upd_sent. destruct (decide (c = c)); [reflexivity|contradiction].
  - intros Hn. rewrite (Hno Hn). reflexivity.
Qed.

Lemma write_packet_packs_witness :
  exists q fr s',
    D4Packet.psid (command_packet D4Command.Init [x10]) = Some q
    /\ write_packet 0%nat (command_packet D4Command.Init [x10])
         (D4_new (link [])) = Done tt s'
    /\ map byte_val fr
       = [q; 0; (6 + 2) / 256; (6 + 2) mod 256; 1; 0] ++ [0; 0x10]
    /\ transport.written (transport s') = [] ++ [fr]
    /\ D4Channel.tx_credits (chan 0%nat s') = 1 - 1
    /\ trace s' = [] ++ [Sent 0%nat (command_packet D4Command.Init [x10])].
Proof.
  apply (proj1 (write_packet_packs 0%nat (command_packet D4Command.Init [x10])
                  (D4_new (link [])))).
  split; [exists 0; split; [reflexivity | lia]|].
  cbn. unfold len. cbn. lia.
Defined.

(** *** Packets on the link: reading *)

(** A read of [n] bytes the link holds takes them from the front of what
    is inbound and writes nothing. *)
Lemma read_inbound (n : nat) (t : transport.Transport) :
  (n <= length (inbound t))%nat ->
  exists t',
    transport.read (Z.of_nat n) t = Some (Ok (take n (inbound t)), t')
    /\ inbound t' = drop n (inbound t)
    /\ transport.written t' = transport.written t.
Proof.
  intros Hn. unfold transport.read, inbound in *.
  replace (Z.of_nat n <? 0) with false by (symmetry; apply Z.ltb_ge; lia).
  rewrite Nat2Z.id.
  replace (length (transport.buffered t ++ transport.incoming t) <? n)%nat
    with false by (symmetry; apply Nat.ltb_ge; exact Hn).
  eexists. split; [reflexivity|]. simpl. split; [|reflexivity].
  rewrite drop_app. reflexivity.
Qed.

Lemma transport_read_inbound (n : nat) (s : D4) :
  (n <= length (inbound (transport s)))%nat ->
  exists t',
    transport_read (Z.of_nat n) s
    = Done (take n (inbound (transport s))) (set_transport t' s)
    /\ inbound t' = drop n (inbound (transport s))
    /\ transport.written t' = transport.written (transport s).
Proof.
  intros Hn. destruct (read_inbound n (transport s) Hn) as (t' & Hr & Hi & Hw).
  exists t'. unfold transport_read. rewrite Hr. auto.
Qed.

(** What [read_next_packet] has done when it returns: one packet taken
    from the link and either queued on the channel the table holds at its
    psid or dropped. *)
Lemma read_next_packet_done (s s' : D4) :
  read_next_packet s = Done tt s' ->
  exists t' p q,
    transport.written t' = transport.written (transport s)
    /\ D4Packet.psid p = Some q
    /\ 0 <= D4Packet.credit p < 256
    /\ ((exists c, open_channels s !! q = Some c
                   /\ s' = upd_delivered c p (set_transport t' s))
        \/ (open_channels s !! q = None
            /\ s' = log (Dropped p) (set_transport t' s))).
Proof.
  unfold read_next_packet, bind, transport_read.
  destruct (transport.read 6 (transport s)) as [[[header|e] t1]|] eqn:H6;
    try discriminate.
  destruct (unpack_BBHBB header) as [[[[[psid ssid] length] credit] control]|e]
    eqn:Hunpack; simpl; [|discriminate].
  destruct (transport.read (length - 6) t1) as [[[payload|e] t2]|] eqn:Hp;
    try discriminate.
  assert (Hcredit : 0 <= credit < 256).
  { unfold unpack_BBHBB in Hunpack.
    destruct header as [|a [|b [|c1 [|c2 [|d [|e0 [|? ?]]]]]]]; try discriminate.
    injection Hunpack as _ _ _ <- _. apply byte_val_range. }
  assert (Hw : transport.written t2 = transport.written (transport s)).
  { rewrite (read_written _ _ _ _ Hp). exact (read_written _ _ _ _ H6). }
  cbn [open_channels set_transport].
  destruct (open_channels s !! psid) as [c|] eqn:Hc; intros Hd;
    injection Hd as <-;
    exists t2, (D4Packet.Build (Some psid) ssid credit control payload), psid;
    (split; [exact Hw|]); (split; [reflexivity|]); (split; [exact Hcredit|]).
  - left. exists c. split; [exact Hc | reflexivity].
  - right. split; [exact Hc | reflexivity].
Qed.

Lemma unpack_frame_header (q ssid n credit control : Z) :
  0 <= q < 256 -> 0 <= ssid < 256 -> 0 <= n < 65536 ->
  0 <= credit < 256 -> 0 <= control < 256 ->
  unpack_BBHBB [byte_of_Z q; byte_of_Z ssid; byte_of_Z (n / 256); byte_of_Z n;
                byte_of_Z credit; byte_of_Z control]
  = Ok (q, ssid, n, credit, control).
Proof.
  intros. unfold unpack_BBHBB. rewrite be16_of_Z by assumption.
  rewrite !byte_val_of_Z by assumption. reflexivity.
Qed.

(** X2.  Round trip over the link.  The frame [write_packet] writes for a
    packet, arriving at an engine, is read back by [read_next_packet] as
    the same packet: it is queued on the channel the table holds at the
    packet's psid, which gains the packet's credit and loses one receive
    credit, or it is dropped when the table holds no such channel; the
    bytes after the frame stay on the link and nothing is written. *)
Theorem read_next_packet_round_trip (p : D4Packet.t) (fr more : bytes)
    (s : D4) :
  frame p = Ok fr ->
  inbound (transport s) = fr ++ more ->
  exists q t',
    D4Packet.psid p = Some q
    /\ inbound t' = more
    /\ transport.written t' = transport.written (transport s)
    /\ read_next_packet s
       = Done tt match open_channels s !! q with
                 | Some c => upd_delivered c p (set_transport t' s)
                 | None => log (Dropped p) (set_transport t' s)
                 end.
Proof.
  intros Hfr Hin.
  destruct (frame_packable p) as [Hyes Hno].
  assert (Hp : packable p).
  { exact (framed_packable p fr Hfr). }
  pose proof Hp as ((q0 & Hq0 & Hq) & Hs & Hl & Hc & Hk).
  destruct (Hyes Hp) as (q & Hpsid & Hfr').
  assert (q0 = q) by congruence. subst q0.
  rewrite Hfr in Hfr'. injection Hfr' as ->.
  pose proof (len_nonneg (D4Packet.payload p)) as Hlen.
  exists q.
  destruct (transport_read_inbound 6 s) as (t1 & Hr1 & Hi1 & Hw1).
  { rewrite Hin. simpl. lia. }
  rewrite Hin in Hr1, Hi1. simpl in Hr1, Hi1.
  rewrite take_0 in Hr1. rewrite drop_0 in Hi1.
  destruct (transport_read_inbound (length (D4Packet.payload p))
              (set_transport t1 s)) as (t2 & Hr2 & Hi2 & Hw2).
  { cbn [transport set_transport]. rewrite Hi1, length_app. lia. }
  cbn [transport set_transport] in Hr2, Hi2, Hw2. rewrite Hi1 in Hr2, Hi2.
  rewrite take_app_length in Hr2. rewrite drop_app_length in Hi2.
  exists t2. split; [exact Hpsid|]. split; [exact Hi2|].
  split; [congruence|].
  unfold read_next_packet, bind.
  change (transport_read 6 s) with (transport_read (Z.of_nat 6) s).
  rewrite Hr1.
  rewrite unpack_frame_header by (unfold len in *; lia).
  unfold lift, ret. cbv beta iota.
  replace (6 + len (D4Packet.payload p) - 6)
    with (Z.of_nat (length (D4Packet.payload p))) by (unfold len; lia).
  rewrite Hr2.
  change (open_channels (set_transport t2 (set_transport t1 s)))
    with (open_channels s).
  destruct p as [psid ssid credit control payload]. simpl in *. subst psid.
  destruct (open_channels s !! q); reflexivity.
Qed.

Lemma read_next_packet_round_trip_witness :
  exists q t',
    D4Packet.psid data_packet_AB = Some q
    /\ inbound t' = [x07]
    /\ transport.written t'
       = transport.written
           (transport (engine_entered 512 1 (data_packet_bytes ++ [x07])))
    /\ read_next_packet (engine_entered 512 1 (data_packet_bytes ++ [x07]))
       = Done tt
           match open_channels
                   (engine_entered 512 1 (data_packet_bytes ++ [x07])) !! q with
           | Some c =>
               upd_delivered c data_packet_AB
                 (set_transport t'
                    (engine_entered 512 1 (data_packet_bytes ++ [x07])))
           | None =>
               log (Dropped data_packet_AB)
                 (set_transport t'
                    (engine_entered 512 1 (data_packet_bytes ++ [x07])))
           end.
Proof.
  apply (read_next_packet_round_trip data_packet_AB data_packet_bytes [x07]
           (engine_entered 512 1 (data_packet_bytes ++ [x07]))).
  - vm_compute. reflexivity.
  - vm_compute. reflexivity.
Defined.

Lemma delivered_to_inbound_cons (c c1 : nat) (p : D4Packet.t)
    (evs : list event) :
  delivered_to c (Delivered c1 p :: evs)
  = (if decide (c1 = c) then [p] else []) ++ delivered_to c evs.
Proof. reflexivity. Qed.

Lemma link_read_refl (s : D4) : link_read [] s s.
Proof.
  unfold link_read. rewrite app_nil_r.
  repeat split; try reflexivity; try constructor.
  - unfold len. simpl. lia.
  - unfold credits_received. simpl. lia.
Qed.

Lemma link_read_trans (evs1 evs2 : list event) (s s1 s2 : D4) :
  link_read evs1 s s1 -> link_read evs2 s1 s2 -> link_read (evs1 ++ evs2) s s2.
Proof.
  intros (Htr1 & Hin1 & Hw1 & Ht1 & Hn1 & Hc1) (Htr2 & Hin2 & Hw2 & Ht2 & Hn2 & Hc2).
  unfold link_read.
  split; [rewrite Htr2, Htr1, app_assoc; reflexivity|].
  split; [apply Forall_app; auto|].
  split; [congruence|]. split; [congruence|]. split; [congruence|].
  intros c. destruct (Hc1 c) as (A1 & A2 & A3). destruct (Hc2 c) as (B1 & B2 & B3).
  split; [congruence|].
  rewrite delivered_to_app, credits_received_app.
  unfold len in *. rewrite length_app. lia.
Qed.

Lemma link_read_popped (c : nat) (rest : list D4Packet.t) (s : D4) :
  link_read [] s (upd_popped c rest s).
Proof.
  unfold link_read. rewrite app_nil_r.
  repeat split; try reflexivity; try constructor;
    rewrite chan_upd_popped; destruct (decide (c = c0)) as [->|];
    try reflexivity; unfold len, credits_received; simpl; lia.
Qed.

Lemma link_read_delivered (c : nat) (p : D4Packet.t)
    (t' : transport.Transport) (s : D4) :
  transport.written t' = transport.written (transport s) ->
  link_read [Delivered c p] s (upd_delivered c p (set_transport t' s)).
Proof.
  intros Hw. unfold link_read.
  split; [reflexivity|]. split; [repeat constructor|].
  split; [exact Hw|]. split; [reflexivity|]. split; [reflexivity|].
  intros c'. rewrite chan_upd_delivered.
  change (chan c' (set_transport t' s)) with (chan c' s).
  unfold credits_received, len. simpl.
  destruct (decide (c = c')) as [->|]; simpl; repeat split; lia.
Qed.

Lemma link_read_dropped (p : D4Packet.t) (t' : transport.Transport) (s : D4) :
  transport.written t' = transport.written (transport s) ->
  link_read [Dropped p] s (log (Dropped p) (set_transport t' s)).
Proof.
  intros Hw. unfold link_read.
  split; [reflexivity|]. split; [repeat constructor|].
  split; [exact Hw|]. split; [reflexivity|]. split; [reflexivity|].
  intros c'. change (chan c' (log _ (set_transport t' s))) with (chan c' s).
  unfold credits_received, len. simpl. repeat split; lia.
Qed.

(** What [read_packet] has done when it returns: it has read packets from
    the link until the queue of its channel held one, and has taken the
    oldest from that queue. *)
Lemma read_packet_done (budget : nat) (c : nat) :
  forall s p s',
    read_packet budget c s = Done p s' ->
    exists evs,
      link_read evs s s'
      /\ D4Channel.rx_queue (chan c s) ++ delivered_to c evs
         = p :: D4Channel.rx_queue (chan c s')
      /\ (forall c', c' <> c ->
            D4Channel.rx_queue (chan c' s')
            = D4Channel.rx_queue (chan c' s) ++ delivered_to c' evs).
Proof.
  assert (Hpop : forall s p rest,
            D4Channel.rx_queue (chan c s) = p :: rest ->
            exists evs,
              link_read evs s (upd_popped c rest s)
              /\ (p :: rest) ++ delivered_to c evs
                 = p :: D4Channel.rx_queue (chan c (upd_popped c rest s))
              /\ (forall c', c' <> c ->
                    D4Channel.rx_queue (chan c' (upd_popped c rest s))
                    = D4Channel.rx_queue (chan c' s) ++ delivered_to c' evs)).
  { intros s p rest Hq. exists [].
    split; [apply link_read_popped|]. simpl. rewrite app_nil_r.
    rewrite chan_upd_popped. destruct (decide (c = c)); [|contradiction].
    split; [reflexivity|].
    intros c' Hne. rewrite app_nil_r, chan_upd_popped.
    destruct (decide (c = c')); [congruence | reflexivity]. }
  induction budget as [|budget IH]; intros s p s'; simpl.
  - destruct (D4Channel.rx_queue (chan c s)) as [|p0 rest] eqn:Hq;
      [discriminate|].
    intros Hd. injection Hd as <- <-. exact (Hpop s p0 rest Hq).
  - destruct (D4Channel.rx_queue (chan c s)) as [|p0 rest] eqn:Hq.
    + unfold bind.
      destruct (read_next_packet s) as [[] s1|e s1|s1] eqn:Hn; try discriminate.
      intros Hd. destruct (IH _ _ _ Hd) as (evs & Hlr & Hq' & Hoth).
      destruct (read_next_packet_done _ _ Hn)
        as (t' & p1 & q & Hw1 & _ & _ & [(c1 & Hc1 & ->)|[Hnone ->]]).
      * exists ([Delivered c1 p1] ++ evs).
        split; [exact (link_read_trans _ _ _ _ _
                         (link_read_delivered c1 p1 t' s Hw1) Hlr)|].
        change ([Delivered c1 p1] ++ evs) with (Delivered c1 p1 :: evs).
        rewrite delivered_to_inbound_cons.
        rewrite chan_upd_delivered in Hq'.
        change (chan c (set_transport t' s)) with (chan c s) in Hq'.
        split.
        { destruct (decide (c1 = c)); simpl in Hq' |- *; rewrite Hq in *;
            exact Hq'. }
        intros c' Hne. rewrite (Hoth c' Hne), chan_upd_delivered.
        change (chan c' (set_transport t' s)) with (chan c' s).
        rewrite delivered_to_inbound_cons.
        destruct (decide (c1 = c')); simpl; [|reflexivity].
        rewrite <- app_assoc. reflexivity.
      * exists ([Dropped p1] ++ evs).
        split; [exact (link_read_trans _ _ _ _ _
                         (link_read_dropped p1 t' s Hw1) Hlr)|].
        split.
        { change (D4Channel.rx_queue (chan c s) ++ delivered_to c evs
                  = p :: D4Channel.rx_queue (chan c s')) in Hq'.
          rewrite Hq in Hq'. exact Hq'. }
        intros c' Hne. exact (Hoth c' Hne).
    + intros Hd. injection Hd as <- <-. exact (Hpop s p0 rest Hq).
Qed.

(** X3.  [read_packet] is first in, first out.  When it returns a packet for a
    channel, that packet is the oldest of those that were queued on the
    channel followed by those delivered to it during the call, and the
    rest of them, in order, is the queue it leaves; the packets delivered
    to the other channels are appended to their queues; only deliveries
    and drops happened, nothing was written to the link and the table is
    as it was. *)
Theorem read_packet_fifo (budget : nat) (c : nat) (s s' : D4)
    (p : D4Packet.t) :
  read_packet budget c s = Done p s' ->
  D4Channel.rx_queue (chan c s) ++ delivered_to c (events_since s s')
  = p :: D4Channel.rx_queue (chan c s')
  /\ (forall c', c' <> c ->
        D4Channel.rx_queue (chan c' s')
        = D4Channel.rx_queue (chan c' s) ++ delivered_to c' (events_since s s'))
  /\ extends (trace s) s'
  /\ Forall is_inbound (events_since s s')
  /\ transport.written (transport s') = transport.written (transport s)
  /\ open_channels s' = open_channels s.
Proof.
  intros Hd.
  destruct (read_packet_done budget c s p s' Hd)
    as (evs & (Htr & Hin & Hw & Ht & _) & Hq & Hoth).
  unfold events_since, extends. rewrite Htr, drop_app_length.
  repeat split; try assumption. exists evs. reflexivity.
Qed.

Lemma read_packet_fifo_witness :
  let s := engine_entered 512 1 data_packet_bytes in
  let s' := state_of (read_packet 1 1%nat s) in
  D4Channel.rx_queue (chan 1%nat s) ++ delivered_to 1%nat (events_since s s')
  = data_packet_AB :: D4Channel.rx_queue (chan 1%nat s')
  /\ (forall c', c' <> 1%nat ->
        D4Channel.rx_queue (chan c' s')
        = D4Channel.rx_queue (chan c' s) ++ delivered_to c' (events_since s s'))
  /\ extends (trace s) s'
  /\ Forall is_inbound (events_since s s')
  /\ transport.written (transport s') = transport.written (transport s)
  /\ open_channels s' = open_channels s.
Proof.
  intros s s'.
  apply (read_packet_fifo 1 1%nat s s' data_packet_AB).
  vm_compute. reflexivity.
Defined.

(** *** The exchange of a command *)

Lemma getitem_lookup (data : bytes) (i v : Z) :
  0 <= i -> getitem data i = Ok v ->
  exists b, data !! Z.to_nat i = Some b /\ byte_val b = v.
Proof.
  intros Hi. unfold getitem.
  replace (i <? 0) with false by (symmetry; apply Z.ltb_ge; lia).
  destruct (_ && _); [|discriminate].
  destruct (data !! Z.to_nat i) as [b|]; [|discriminate].
  intros Hv. injection Hv as <-. exists b. auto.
Qed.

Lemma slice_from_drop {A : Type} (data : list A) (n : nat) :
  (n <= length data)%nat -> slice_from data (Z.of_nat n) = drop n data.
Proof.
  intros Hn. unfold slice_from, slice_bound, len.
  replace (Z.of_nat n <? 0) with false by (symmetry; apply Z.ltb_ge; lia).
  rewrite Z.min_l by lia. rewrite Nat2Z.id. reflexivity.
Qed.

(** What a command has done when it returns. *)
Lemma command_run (budget : nat) (cmd : D4Command.t) (payload : bytes)
    (s s' : D4) (resp : bytes) :
  command budget cmd payload s = Done resp s' ->
  exists c0 fr reply evs,
    open_channels s !! 0 = Some c0
    /\ (is_init_or_exit cmd = false -> D4Channel.tx_credits (chan c0 s) <> 0)
    /\ frame (command_packet cmd payload) = Ok fr
    /\ link_read evs (upd_sent c0 (command_packet cmd payload) fr s) s'
    /\ D4Channel.rx_queue (chan c0 s) ++ delivered_to c0 evs
       = reply :: D4Channel.rx_queue (chan c0 s')
    /\ D4Packet.psid reply = Some 0
    /\ map byte_val (D4Packet.payload reply)
       = Z.lor (D4Command.value cmd) 0x80 :: 0 :: map byte_val resp
    /\ forall c, c <> c0 ->
         D4Channel.rx_queue (chan c s')
         = D4Channel.rx_queue (chan c s) ++ delivered_to c evs.
Proof.
  unfold command. fold (command_packet cmd payload).
  unfold bind at 1.
  destruct ((if is_init_or_exit cmd then ret tt
             else c0 <- lookup_channel 0 ;;
                  tx <- gets (fun s => D4Channel.tx_credits (chan c0 s)) ;;
                  assert (negb (tx =? 0))) s) as [[] s0|e s0|s0] eqn:Hguard;
    try discriminate.
  assert (Hs0 : s0 = s
                /\ (is_init_or_exit cmd = false ->
                    forall c0, open_channels s !! 0 = Some c0 ->
                               D4Channel.tx_credits (chan c0 s) <> 0)).
  { destruct (is_init_or_exit cmd).
    - injection Hguard as <-. split; [reflexivity | discriminate].
    - unfold bind, lookup_channel, gets, assert in Hguard.
      destruct (open_channels s !! 0) as [c|] eqn:Hc; [|discriminate].
      destruct (Z.eqb_spec (D4Channel.tx_credits (chan c s)) 0);
        simpl in Hguard; [discriminate|].
      injection Hguard as <-. split; [reflexivity|].
      intros _ c0 Hc0. congruence. }
  destruct Hs0 as [-> Hcredit]. clear Hguard.
  unfold bind at 1. unfold lookup_channel at 1.
  destruct (open_channels s !! 0) as [c0|] eqn:Hc0; [|discriminate].
  unfold bind at 1. rewrite write_packet_frame.
  destruct (frame (command_packet cmd payload)) as [fr|e] eqn:Hfr;
    [|discriminate].
  unfold bind at 1. unfold lookup_channel at 1.
  change (open_channels (upd_sent c0 (command_packet cmd payload) fr s))
    with (open_channels s).
  rewrite Hc0.
  unfold bind at 1.
  destruct (read_packet budget c0 _) as [res s2|e s2|s2] eqn:Hread;
    try discriminate.
  destruct (read_packet_done _ _ _ _ _ Hread) as (evs & Hlr & Hq & Hoth).
  unfold bind at 1, assert at 1.
  destruct (bool_decide (D4Packet.psid res = Some 0)) eqn:Hpsid;
    [|discriminate].
  apply bool_decide_eq_true in Hpsid.
  unfold bind at 1.
  destruct (getitem (D4Packet.payload res) 0) as [first|e] eqn:Hfirst;
    [|discriminate].
  cbn [lift ret].
  unfold bind at 1.
  destruct ((if first =? 127
             then _ <- lift (getitem (D4Packet.payload res) 3) ;; ret tt
             else ret tt) s2) as [[] s3|e s3|s3] eqn:Herr; try discriminate.
  assert (s3 = s2) as ->.
  { destruct (first =? 127); [|injection Herr as <-; reflexivity].
    unfold bind in Herr.
    destruct (getitem (D4Packet.payload res) 3); simpl in Herr;
      [injection Herr as <-; reflexivity | discriminate]. }
  unfold bind at 1, assert at 1.
  destruct (Z.eqb_spec first (Z.lor (D4Command.value cmd) 128)) as [Hop|];
    [|discriminate].
  unfold bind at 1.
  destruct (getitem (D4Packet.payload res) 1) as [second|e] eqn:Hsecond;
    [|discriminate].
  cbn [lift ret].
  unfold bind at 1, assert at 1.
  destruct (Z.eqb_spec second 0) as [Hz|]; [|discriminate].
  unfold ret. intros Hd. injection Hd as <- <-.
  exists c0, fr, res, evs.
  split; [reflexivity|]. split; [intros Hie; exact (Hcredit Hie c0 eq_refl)|].
  split; [reflexivity|]. split; [exact Hlr|].
  split.
  { rewrite <- Hq. rewrite chan_upd_sent.
    destruct (decide (c0 = c0)); [reflexivity | contradiction]. }
  split; [exact Hpsid|].
  split; [|intros c Hne; rewrite (Hoth c Hne), chan_upd_sent;
           destruct (decide (c0 = c)); [congruence | reflexivity]].
  destruct (getitem_lookup _ _ _ (Z.le_refl 0) Hfirst) as (b0 & Hb0 & Hv0).
  destruct (getitem_lookup _ 1 _ ltac:(lia) Hsecond) as (b1 & Hb1 & Hv1).
  destruct (D4Packet.payload res) as [|x0 [|x1 rest]]; try discriminate.
  simpl in Hb0, Hb1. injection Hb0 as ->. injection Hb1 as ->.
  change 2 with (Z.of_nat 2). rewrite slice_from_drop by (simpl; lia).
  simpl. rewrite drop_0. congruence.
Qed.

Lemma command_done (budget : nat) (cmd : D4Command.t) (payload : bytes)
    (s s' : D4) (resp : bytes) :
  command budget cmd payload s = Done resp s' ->
  exists c0 fr reply evs,
    open_channels s !! 0 = Some c0
    /\ (is_init_or_exit cmd = false -> D4Channel.tx_credits (chan c0 s) <> 0)
    /\ frame (command_packet cmd payload) = Ok fr
    /\ link_read evs (upd_sent c0 (command_packet cmd payload) fr s) s'
    /\ D4Channel.rx_queue (chan c0 s) ++ delivered_to c0 evs
       = reply :: D4Channel.rx_queue (chan c0 s')
    /\ D4Packet.psid reply = Some 0
    /\ map byte_val (D4Packet.payload reply)
       = Z.lor (D4Command.value cmd) 0x80 :: 0 :: map byte_val resp.
Proof.
  intros Hd.
  destruct (command_run _ _ _ _ _ _ Hd)
    as (c0 & fr & reply & evs & H1 & H2 & H3 & H4 & H5 & H6 & H7 & _).
  exists c0, fr, reply, evs. auto 10.
Qed.

Lemma frame_bytes (p : D4Packet.t) (fr : bytes) :
  frame p = Ok fr ->
  exists q,
    D4Packet.psid p = Some q
    /\ map byte_val fr
       = [q; D4Packet.ssid p;
          (6 + len (D4Packet.payload p)) / 256;
          (6 + len (D4Packet.payload p)) mod 256;
          D4Packet.credit p; D4Packet.control p]
         ++ map byte_val (D4Packet.payload p).
Proof.
  intros Hfr. pose proof (framed_packable p fr Hfr) as Hp.
  pose proof Hp as ((q0 & Hq0 & Hq0r) & Hs & Hl & Hc & Hk).
  destruct (proj1 (frame_packable p) Hp) as (q & Hq & Hfr').
  assert (q0 = q) by congruence. subst q0.
  rewrite Hfr in Hfr'. injection Hfr' as ->.
  pose proof (len_nonneg (D4Packet.payload p)) as Hlen.
  exists q. split; [exact Hq|].
  cbn [map app].
  rewrite !byte_val_of_Z_mod.
  rewrite (Z.mod_small q), (Z.mod_small (D4Packet.ssid p)),
    (Z.mod_small (D4Packet.credit p)), (Z.mod_small (D4Packet.control p))
    by lia.
  rewrite (Z.mod_small (_ / 256))
    by (split; [apply Z.div_pos; lia | apply Z.div_lt_upper_bound; lia]).
  reflexivity.
Qed.

Lemma sent_packets_inbound (evs : list event) :
  Forall is_inbound evs -> sent_packets evs = [].
Proof.
  induction 1 as [|e evs He _ IH]; [reflexivity|].
  destruct e; simpl in *; try contradiction; exact IH.
Qed.

Lemma sent_on_inbound (c : nat) (evs : list event) :
  Forall is_inbound evs -> sent_on c evs = [].
Proof.
  induction 1 as [|e evs He _ IH]; [reflexivity|].
  destruct e; simpl in *; try contradiction; exact IH.
Qed.

Lemma D4Command_value_byte (cmd : D4Command.t) :
  byte_val (byte_of_Z (D4Command.value cmd)) = D4Command.value cmd.
Proof. destruct cmd; reflexivity. Qed.

(** The bytes of the frame of a command. *)
Lemma command_frame_bytes (cmd : D4Command.t) (payload fr : bytes) :
  frame (command_packet cmd payload) = Ok fr ->
  map byte_val fr
  = [0; 0; (7 + len payload) / 256; (7 + len payload) mod 256; 1; 0;
     D4Command.value cmd] ++ map byte_val payload.
Proof.
  intros Hfr. destruct (frame_bytes _ _ Hfr) as (q & Hq & ->).
  injection Hq as <-. cbn [command_packet D4Packet.payload D4Packet.ssid
                           D4Packet.credit D4Packet.control map app].
  rewrite D4Command_value_byte.
  replace (6 + len (byte_of_Z (D4Command.value cmd) :: payload))
    with (7 + len payload) by (unfold len; simpl length; lia).
  reflexivity.
Qed.

(** What a command that returned has left of the engine. *)
Lemma command_effect (budget : nat) (cmd : D4Command.t) (payload : bytes)
    (s s' : D4) (resp : bytes) :
  command budget cmd payload s = Done resp s' ->
  exists fr,
    frame (command_packet cmd payload) = Ok fr
    /\ transport.written (transport s')
       = transport.written (transport s) ++ [fr]
    /\ open_channels s' = open_channels s
    /\ next_ref s' = next_ref s
    /\ forall c, static (chan c s') = static (chan c s).
Proof.
  intros Hd.
  destruct (command_done _ _ _ _ _ _ Hd)
    as (c0 & fr & reply & evs & Hc0 & _ & Hfr
        & (Htr & Hin & Hw & Ht & Hn & Hch) & _).
  exists fr. split; [exact Hfr|]. split; [exact Hw|].
  split; [exact Ht|]. split; [exact Hn|].
  intros c. destruct (Hch c) as (Hst & _). rewrite Hst, chan_upd_sent.
  destruct (decide (c0 = c)); reflexivity.
Qed.

(** X4.  One command, one exchange.  A command that returns has written exactly
    one frame, that of a packet on socket 0 with one credit, control 0 and
    the opcode before the payload; it has read packets from the link until
    one stood first in the queue of the channel the table holds at 0; that
    packet has psid 0 and a payload that starts with the opcode with its
    top bit set and a zero byte, and what follows these two bytes is the
    result.  The table is as it was. *)
Theorem command_exchange (budget : nat) (cmd : D4Command.t) (payload : bytes)
    (s s' : D4) (resp : bytes) :
  command budget cmd payload s = Done resp s' ->
  exists c0 fr reply,
    open_channels s !! 0 = Some c0
    /\ frames_since s s' = [fr]
    /\ map byte_val fr
       = [0; 0; (7 + len payload) / 256; (7 + len payload) mod 256; 1; 0;
          D4Command.value cmd] ++ map byte_val payload
    /\ sent_packets (events_since s s') = [command_packet cmd payload]
    /\ sent_on c0 (events_since s s') = [command_packet cmd payload]
    /\ D4Channel.rx_queue (chan c0 s) ++ delivered_to c0 (events_since s s')
       = reply :: D4Channel.rx_queue (chan c0 s')
    /\ D4Packet.psid reply = Some 0
    /\ map byte_val (D4Packet.payload reply)
       = Z.lor (D4Command.value cmd) 0x80 :: 0 :: map byte_val resp
    /\ open_channels s' = open_channels s.
Proof.
  intros Hd.
  destruct (command_done _ _ _ _ _ _ Hd)
    as (c0 & fr & reply & evs & Hc0 & _ & Hfr
        & (Htr & Hin & Hw & Ht & Hn & Hch) & Hq & Hpsid & Hpay).
  exists c0, fr, reply.
  assert (Hev : events_since s s' = Sent c0 (command_packet cmd payload) :: evs).
  { unfold events_since. rewrite Htr. simpl trace.
    rewrite <- app_assoc, drop_app_length. reflexivity. }
  rewrite Hev.
  split; [exact Hc0|].
  split; [unfold frames_since; rewrite Hw; simpl; apply drop_app_length|].
  split; [exact (command_frame_bytes _ _ _ Hfr)|].
  split; [simpl; rewrite (sent_packets_inbound _ Hin); reflexivity|].
  split.
  { simpl. destruct (decide (c0 = c0)); [|contradiction].
    fold (sent_on c0 evs). rewrite (sent_on_inbound _ _ Hin). reflexivity. }
  split; [exact Hq|]. split; [exact Hpsid|]. split; [exact Hpay|].
  exact Ht.
Qed.

Lemma command_exchange_witness :
  let s := engine_constructed_with script_socket in
  let s' := state_of (command 1 D4Command.GetSocketID
                        (bytes_of_string "EPSON-CTRL") s) in
  exists c0 fr reply,
    open_channels s !! 0 = Some c0
    /\ frames_since s s' = [fr]
    /\ map byte_val fr
       = [0; 0; (7 + len (bytes_of_string "EPSON-CTRL")) / 256;
          (7 + len (bytes_of_string "EPSON-CTRL")) mod 256; 1; 0;
          D4Command.value D4Command.GetSocketID]
         ++ map byte_val (bytes_of_string "EPSON-CTRL")
    /\ sent_packets (events_since s s')
       = [command_packet D4Command.GetSocketID (bytes_of_string "EPSON-CTRL")]
    /\ sent_on c0 (events_since s s')
       = [command_packet D4Command.GetSocketID (bytes_of_string "EPSON-CTRL")]
    /\ D4Channel.rx_queue (chan c0 s) ++ delivered_to c0 (events_since s s')
       = reply :: D4Channel.rx_queue (chan c0 s')
    /\ D4Packet.psid reply = Some 0
    /\ map byte_val (D4Packet.payload reply)
       = Z.lor (D4Command.value D4Command.GetSocketID) 0x80 :: 0
         :: map byte_val [x02]
    /\ open_channels s' = open_channels s.
Proof.
  intros s s'.
  apply (command_exchange 1 D4Command.GetSocketID
           (bytes_of_string "EPSON-CTRL") s s' [x02]).
  vm_compute. reflexivity.
Defined.

(** X5.  A command that cannot go out changes nothing.  Without a channel at
    psid 0 in the table it raises [KeyError]; a command other than [Init]
    and [Exit] raises [AssertionError] while the control channel has no
    credit; a payload of more than 65528 bytes, which the length field
    cannot hold, raises [struct.error].  In each case the engine is as it
    was: nothing is written and no credit is taken. *)
Theorem command_refused (budget : nat) (cmd : D4Command.t) (payload : bytes)
    (s : D4) :
  (open_channels s !! 0 = None ->
   command budget cmd payload s = Raised KeyError s)
  /\ (forall c0,
        open_channels s !! 0 = Some c0 ->
        is_init_or_exit cmd = false ->
        D4Channel.tx_credits (chan c0 s) = 0 ->
        command budget cmd payload s = Raised AssertionError s)
  /\ (forall c0,
        open_channels s !! 0 = Some c0 ->
        is_init_or_exit cmd = true \/ D4Channel.tx_credits (chan c0 s) <> 0 ->
        65528 < len payload ->
        command budget cmd payload s = Raised StructError s).
Proof.
  unfold command. fold (command_packet cmd payload).
  split; [|split].
  - intros Hnone. unfold bind, lookup_channel.
    destruct (is_init_or_exit cmd); cbv beta iota; unfold ret;
      rewrite Hnone; reflexivity.
  - intros c0 Hc0 Hcmd Htx. rewrite Hcmd.
    unfold bind, lookup_channel, gets, assert. cbv beta iota.
    rewrite Hc0. cbv beta iota. rewrite Htx. reflexivity.
  - intros c0 Hc0 Hguard Hlen.
    assert (Hfr : frame (command_packet cmd payload) = Raise StructError).
    { apply (proj2 (frame_packable _)). intros (_ & _ & Hl & _).
      cbn [command_packet D4Packet.payload] in Hl.
      unfold len in *. simpl length in Hl. lia. }
    unfold bind at 1.
    assert (Hg : (if is_init_or_exit cmd then ret tt
                  else c1 <- lookup_channel 0 ;;
                       tx <- gets (fun s0 => D4Channel.tx_credits (chan c1 s0)) ;;
                       assert (negb (tx =? 0))) s = Done tt s).
    { destruct (is_init_or_exit cmd) eqn:Hie; [reflexivity|].
      destruct Hguard as [?|Htx]; [discriminate|].
      unfold bind, lookup_channel, gets, assert. cbv beta iota.
      rewrite Hc0. cbv beta iota.
      destruct (Z.eqb_spec (D4Channel.tx_credits (chan c0 s)) 0);
        [contradiction | reflexivity]. }
    rewrite Hg. unfold bind at 1. unfold lookup_channel at 1. rewrite Hc0.
    unfold bind at 1. rewrite write_packet_frame, Hfr. reflexivity.
Qed.

(** A link that answers the mode escape and then nothing: the construction
    has sent [Init] and waits, and the control channel has no credit. *)
Lemma command_refused_witness :
  let s := state_of (D4_init 1 (link (ints [1; 2; 3; 4; 5; 6; 7; 8]))) in
  command 1 D4Command.Credit [] s = Raised AssertionError s.
Proof.
  intros s.
  apply (proj1 (proj2 (command_refused 1 D4Command.Credit [] s)) 0%nat).
  - vm_compute. reflexivity.
  - reflexivity.
  - vm_compute. reflexivity.
Defined.

(** *** Opening and closing a channel *)

Lemma pack_BBHHHH_bytes (a b c d e f : Z) (req : bytes) :
  pack_BBHHHH a b c d e f = Ok req ->
  0 <= a < 256 /\ 0 <= b < 256
  /\ map byte_val req
     = [a; b; c / 256; c mod 256; d / 256; d mod 256; e / 256; e mod 256;
        f / 256; f mod 256].
Proof.
  unfold pack_BBHHHH.
  destruct (u8_cases a) as [[Ha ->]|[_ ->]]; [|discriminate].
  destruct (u8_cases b) as [[Hb ->]|[_ ->]]; [|discriminate].
  destruct (u16be_cases c) as [[Hc ->]|[_ ->]]; [|discriminate].
  destruct (u16be_cases d) as [[Hd ->]|[_ ->]]; [|discriminate].
  destruct (u16be_cases e) as [[He ->]|[_ ->]]; [|discriminate].
  destruct (u16be_cases f) as [[Hf ->]|[_ ->]]; [|discriminate].
  simpl. intros Hreq. injection Hreq as <-.
  split; [exact Ha|]. split; [exact Hb|].
  cbn [map]. rewrite !byte_val_of_Z_mod.
  rewrite (Z.mod_small a), (Z.mod_small b) by lia.
  rewrite !(Z.mod_small (_ / 256))
    by (split; [apply Z.div_pos; lia | apply Z.div_lt_upper_bound; lia]).
  reflexivity.
Qed.

Lemma pack_BBH_bytes (p : option Z) (b c : Z) (req : bytes) :
  pack_BBH p b c = Ok req ->
  exists a, p = Some a /\ 0 <= a < 256 /\ 0 <= b < 256 /\ 0 <= c < 65536
    /\ map byte_val req = [a; b; c / 256; c mod 256].
Proof.
  unfold pack_BBH, u8_opt. destruct p as [a|]; [|discriminate].
  destruct (u8_cases a) as [[Ha ->]|[_ ->]]; [|discriminate].
  destruct (u8_cases b) as [[Hb ->]|[_ ->]]; [|discriminate].
  destruct (u16be_cases c) as [[Hc ->]|[_ ->]]; [|discriminate].
  simpl. intros Hreq. injection Hreq as <-.
  exists a. split; [reflexivity|]. repeat (split; [assumption|]).
  cbn [map]. rewrite !byte_val_of_Z_mod.
  rewrite (Z.mod_small a), (Z.mod_small b) by lia.
  rewrite (Z.mod_small (_ / 256))
    by (split; [apply Z.div_pos; lia | apply Z.div_lt_upper_bound; lia]).
  reflexivity.
Qed.

Lemma pack_BB_bytes (p : option Z) (b : Z) (req : bytes) :
  pack_BB p b = Ok req ->
  exists a, p = Some a /\ 0 <= a < 256 /\ 0 <= b < 256
    /\ map byte_val req = [a; b].
Proof.
  unfold pack_BB, u8_opt. destruct p as [a|]; [|discriminate].
  destruct (u8_cases a) as [[Ha ->]|[_ ->]]; [|discriminate].
  destruct (u8_cases b) as [[Hb ->]|[_ ->]]; [|discriminate].
  simpl. intros Hreq. injection Hreq as <-.
  exists a. split; [reflexivity|]. repeat (split; [assumption|]).
  cbn [map]. rewrite !byte_val_of_Z by assumption. reflexivity.
Qed.

Lemma static_eq (ch ch' : D4Channel.t) :
  static ch' = static ch ->
  D4Channel.ssid ch' = D4Channel.ssid ch
  /\ D4Channel.psid ch' = D4Channel.psid ch
  /\ D4Channel.mtu ch' = D4Channel.mtu ch
  /\ D4Channel.rx_credits_max ch' = D4Channel.rx_credits_max ch.
Proof. unfold static. intros H. injection H as -> -> -> ->. auto. Qed.

(** What [OpenChannel] has done when it returns. *)
Lemma OpenChannel_done (budget : nat) (self : nat) (s s' : D4) :
  OpenChannel budget self s = Done tt s' ->
  exists fr q m,
    let ssid := D4Channel.ssid (chan self s) in
    transport.written (transport s') = transport.written (transport s) ++ [fr]
    /\ map byte_val fr
       = [0; 0; 0; 17; 1; 0; 1; ssid; ssid; 255; 255; 255; 255; 0; 0; 0; 0]
    /\ 0 <= q < 256 /\ 0 <= m < 65536
    /\ open_channels s' = <[q := self]> (open_channels s)
    /\ next_ref s' = next_ref s
    /\ D4Channel.ssid (chan self s') = ssid
    /\ D4Channel.psid (chan self s') = Some q
    /\ D4Channel.mtu (chan self s') = Some m
    /\ D4Channel.rx_credits_max (chan self s')
       = D4Channel.rx_credits_max (chan self s)
    /\ forall c, c <> self -> static (chan c s') = static (chan c s).
Proof.
  unfold OpenChannel, bind, gets.
  destruct (pack_BBHHHH _ _ _ _ _ _) as [req|e] eqn:Hreq; [|discriminate].
  cbn [lift ret].
  destruct (command budget D4Command.OpenChannel req s) as [res s1|e s1|s1]
    eqn:Hcmd; try discriminate.
  destruct (unpack_BBHHH res) as [[[[[q ssid'] m] mc] cr]|e] eqn:Hres;
    [|discriminate].
  cbn [lift ret]. unfold assert.
  destruct (Z.eqb_spec ssid' (D4Channel.ssid (chan self s1))) as [Hssid|];
    [|discriminate].
  cbn [ret modify]. intros Hd. injection Hd as <-.
  destruct (command_effect _ _ _ _ _ _ Hcmd) as (fr & Hfr & Hw & Ht & Hn & Hst).
  destruct (pack_BBHHHH_bytes _ _ _ _ _ _ _ Hreq) as (Hs1 & _ & Hbytes).
  pose proof (command_frame_bytes _ _ _ Hfr) as Hfrb.
  destruct (static_eq _ _ (Hst self)) as (Hssid' & Hpsid' & Hmtu' & Hmax').
  exists fr, q, m. cbv zeta.
  split; [exact Hw|].
  split.
  { rewrite Hfrb, Hbytes.
    replace (len req) with 10
      by (unfold len; rewrite <- (length_map byte_val req), Hbytes; reflexivity).
    reflexivity. }
  unfold unpack_BBHHH in Hres.
  destruct res as [|a [|b [|c1 [|c2 [|d1 [|d2 [|e1 [|e2 [|? ?]]]]]]]]];
    try discriminate.
  injection Hres as <- _ <- _ _.
  split; [apply byte_val_range|]. split; [apply be16_range|].
  cbn [open_channels set_open_channels set_chan next_ref].
  split; [rewrite Ht; reflexivity|]. split; [exact Hn|].
  rewrite !chan_set_open_channels, !chan_set_chan_eq. cbn.
  split; [exact Hssid'|]. split; [reflexivity|]. split; [reflexivity|].
  split; [exact Hmax'|].
  intros c Hne. rewrite chan_set_open_channels, chan_set_chan_ne by congruence.
  apply Hst.
Qed.

(** What [Credit] has done when it returns. *)
Lemma Credit_done (budget : nat) (c : nat) (amount : Z) (s s' : D4) :
  Credit budget c amount s = Done tt s' ->
  exists fr q,
    D4Channel.psid (chan c s) = Some q
    /\ transport.written (transport s') = transport.written (transport s) ++ [fr]
    /\ map byte_val fr
       = [0; 0; 0; 11; 1; 0; 3; q; D4Channel.ssid (chan c s);
          amount / 256; amount mod 256]
    /\ 0 <= amount < 65536
    /\ open_channels s' = open_channels s
    /\ next_ref s' = next_ref s
    /\ forall c', static (chan c' s') = static (chan c' s).
Proof.
  unfold Credit, bind, gets.
  destruct (pack_BBH _ _ _) as [req|e] eqn:Hreq; [|discriminate].
  cbn [lift ret].
  destruct (command budget D4Command.Credit req s) as [res s1|e s1|s1]
    eqn:Hcmd; try discriminate.
  cbn [ret]. intros Hd. injection Hd as <-.
  destruct (command_effect _ _ _ _ _ _ Hcmd) as (fr & Hfr & Hw & Ht & Hn & Hst).
  destruct (pack_BBH_bytes _ _ _ _ Hreq) as (q & Hq & _ & _ & Ha & Hbytes).
  pose proof (command_frame_bytes _ _ _ Hfr) as Hfrb.
  exists fr, q. split; [exact Hq|]. split; [exact Hw|].
  split.
  { rewrite Hfrb, Hbytes.
    replace (len req) with 4
      by (unfold len; rewrite <- (length_map byte_val req), Hbytes; reflexivity).
    reflexivity. }
  auto.
Qed.

(** What [__enter__] has done when it returns. *)
Lemma channel_enter_done (budget : nat) (self : nat) (s s' : D4) :
  channel_enter budget self s = Done tt s' ->
  exists q m fr1 fr2,
    let ssid := D4Channel.ssid (chan self s) in
    let rx_max := D4Channel.rx_credits_max (chan self s) in
    transport.written (transport s')
    = transport.written (transport s) ++ [fr1; fr2]
    /\ map byte_val fr1
       = [0; 0; 0; 17; 1; 0; 1; ssid; ssid; 255; 255; 255; 255; 0; 0; 0; 0]
    /\ map byte_val fr2
       = [0; 0; 0; 11; 1; 0; 3; q; ssid; rx_max / 256; rx_max mod 256]
    /\ 0 <= q < 256 /\ 0 <= m < 65536
    /\ open_channels s' = <[q := self]> (open_channels s)
    /\ D4Channel.ssid (chan self s') = ssid
    /\ D4Channel.psid (chan self s') = Some q
    /\ D4Channel.mtu (chan self s') = Some m
    /\ D4Channel.rx_credits_max (chan self s') = rx_max.
Proof.
  unfold channel_enter. unfold bind at 1.
  destruct (OpenChannel budget self s) as [[] s1|e s1|s1] eqn:Hopen;
    try discriminate.
  unfold bind at 1, gets at 1. unfold bind at 1.
  destruct (Credit budget self _ s1) as [[] s2|e s2|s2] eqn:Hcredit;
    try discriminate.
  unfold modify. intros Hd. injection Hd as <-.
  destruct (OpenChannel_done _ _ _ _ Hopen)
    as (fr1 & q & m & Hw1 & Hb1 & Hq & Hm & Ht1 & _ & Hssid1 & Hpsid1 & Hmtu1
        & Hmax1 & _).
  destruct (Credit_done _ _ _ _ _ Hcredit)
    as (fr2 & q' & Hq' & Hw2 & Hb2 & _ & Ht2 & _ & Hst2).
  assert (q' = q) by congruence. subst q'.
  destruct (static_eq _ _ (Hst2 self)) as (Hssid2 & Hpsid2 & Hmtu2 & Hmax2).
  exists q, m, fr1, fr2. cbv zeta.
  split.
  { change (transport (set_chan self ?ch s2)) with (transport s2).
    rewrite Hw2, Hw1, <- app_assoc. reflexivity. }
  split; [exact Hb1|].
  split; [rewrite Hb2, Hssid1, Hmax1; reflexivity|].
  split; [exact Hq|]. split; [exact Hm|].
  split.
  { change (open_channels (set_chan self ?ch s2)) with (open_channels s2).
    rewrite Ht2, Ht1. reflexivity. }
  rewrite chan_set_chan_eq. cbn.
  split; [congruence|]. split; [congruence|]. split; [congruence|].
  congruence.
Qed.



(** What [CloseChannel] has done when it returns. *)
Lemma CloseChannel_done (budget : nat) (self : nat) (s s' : D4) :
  CloseChannel budget self s = Done tt s' ->
  exists fr q,
    D4Channel.psid (chan self s) = Some q
    /\ transport.written (transport s') = transport.written (transport s) ++ [fr]
    /\ map byte_val fr = [0; 0; 0; 9; 1; 0; 2; q; D4Channel.ssid (chan self s)]
    /\ is_Some (open_channels s !! q)
    /\ open_channels s' = delete q (open_channels s)
    /\ forall c, static (chan c s') = static (chan c s).
Proof.
  unfold CloseChannel, bind, gets.
  destruct (pack_BB _ _) as [req|e] eqn:Hreq; [|discriminate].
  cbn [lift ret].
  destruct (command budget D4Command.CloseChannel req s) as [res s1|e s1|s1]
    eqn:Hcmd; try discriminate.
  destruct (command_effect _ _ _ _ _ _ Hcmd) as (fr & Hfr & Hw & Ht & Hn & Hst).
  destruct (pack_BB_bytes _ _ _ Hreq) as (q & Hq & _ & _ & Hbytes).
  pose proof (command_frame_bytes _ _ _ Hfr) as Hfrb.
  destruct (static_eq _ _ (Hst self)) as (_ & Hpsid & _).
  rewrite Hpsid, Hq.
  destruct (open_channels s1 !! q) as [c|] eqn:Hc; [|discriminate].
  intros Hd. injection Hd as <-.
  exists fr, q. split; [reflexivity|].
  split; [exact Hw|].
  split.
  { rewrite Hfrb, Hbytes.
    replace (len req) with 2
      by (unfold len; rewrite <- (length_map byte_val req), Hbytes; reflexivity).
    reflexivity. }
  split; [rewrite <- Ht, Hc; eauto|].
  split; [cbn; rewrite Ht; reflexivity|].
  exact Hst.
Qed.

(** X7.  Leaving a channel.  When [__exit__] returns it returns False, one
    CloseChannel command went out for the channel's psid and ssid, and the
    table has lost its entry at that psid, whichever channel it held. *)
Theorem channel_exit_closes (budget : nat) (self : nat) (s s' : D4)
    (r : bool) :
  channel_exit budget self s = Done r s' ->
  r = false
  /\ exists q fr,
       D4Channel.psid (chan self s) = Some q
       /\ transport.written (transport s')
          = transport.written (transport s) ++ [fr]
       /\ map byte_val fr
          = [0; 0; 0; 9; 1; 0; 2; q; D4Channel.ssid (chan self s)]
       /\ is_Some (open_channels s !! q)
       /\ open_channels s' = delete q (open_channels s).
Proof.
  unfold channel_exit, bind.
  destruct (CloseChannel budget self s) as [[] s1|e s1|s1] eqn:Hclose;
    try discriminate.
  unfold ret. intros Hd. injection Hd as <- <-.
  split; [reflexivity|].
  destruct (CloseChannel_done _ _ _ _ Hclose)
    as (fr & q & Hq & Hw & Hb & Hin & Ht & _).
  exists q, fr. auto.
Qed.

Lemma channel_exit_closes_witness :
  let s := engine_entered 512 1 script_close in
  let s' := state_of (channel_exit 1 1%nat s) in
  false = false
  /\ exists q fr,
       D4Channel.psid (chan 1%nat s) = Some q
       /\ transport.written (transport s')
          = transport.written (transport s) ++ [fr]
       /\ map byte_val fr
          = [0; 0; 0; 9; 1; 0; 2; q; D4Channel.ssid (chan 1%nat s)]
       /\ is_Some (open_channels s !! q)
       /\ open_channels s' = delete q (open_channels s).
Proof.
  intros s s'.
  apply (channel_exit_closes 1 1%nat s s' false).
  vm_compute. reflexivity.
Defined.

(** X8.  Entering a channel and leaving it again leaves the table without an
    entry at the psid the device gave the channel: the table is restored
    when that psid was free, and it has lost the channel that was there
    otherwise (the control channel, for psid 0). *)
Theorem channel_enter_exit_table (budget budget' : nat) (self : nat)
    (s s1 s2 : D4) (r : bool) :
  channel_enter budget self s = Done tt s1 ->
  channel_exit budget' self s1 = Done r s2 ->
  exists q,
    D4Channel.psid (chan self s1) = Some q
    /\ open_channels s2 = delete q (open_channels s)
    /\ (open_channels s !! q = None -> open_channels s2 = open_channels s).
Proof.
  intros Henter Hexit.
  unfold channel_enter in Henter. unfold bind at 1 in Henter.
  destruct (OpenChannel budget self s) as [[] s0|e s0|s0] eqn:Hopen;
    try discriminate.
  unfold bind at 1, gets at 1 in Henter. unfold bind at 1 in Henter.
  destruct (Credit budget self _ s0) as [[] s0'|e s0'|s0'] eqn:Hcredit;
    try discriminate.
  unfold modify in Henter. injection Henter as <-.
  destruct (OpenChannel_done _ _ _ _ Hopen)
    as (fr1 & q & m & _ & _ & _ & _ & Ht1 & _ & _ & Hpsid1 & _).
  destruct (Credit_done _ _ _ _ _ Hcredit)
    as (fr2 & q' & _ & _ & _ & _ & Ht2 & _ & Hst2).
  destruct (static_eq _ _ (Hst2 self)) as (_ & Hpsid2 & _).
  unfold channel_exit, bind in Hexit.
  destruct (CloseChannel budget' self _) as [[] s3|e s3|s3] eqn:Hclose;
    try discriminate.
  injection Hexit as _ <-.
  destruct (CloseChannel_done _ _ _ _ Hclose)
    as (fr & q3 & Hq3 & _ & _ & _ & Ht3 & _).
  rewrite chan_set_chan_eq in Hq3. cbn in Hq3.
  assert (q3 = q) by congruence. subst q3.
  exists q. rewrite chan_set_chan_eq. cbn.
  split; [congruence|].
  assert (Htab : open_channels s3 = delete q (open_channels s)).
  { rewrite Ht3.
    change (open_channels (set_chan self ?ch s0')) with (open_channels s0').
    rewrite Ht2, Ht1. apply delete_insert_eq. }
  split; [exact Htab|].
  intros Hfree. rewrite Htab. apply delete_id. exact Hfree.
Qed.

Lemma channel_enter_exit_table_witness :
  let s := engine_with_channel script_close in
  let s1 := state_of (channel_enter 1 1%nat s) in
  let s2 := state_of (channel_exit 1 1%nat s1) in
  exists q,
    D4Channel.psid (chan 1%nat s1) = Some q
    /\ open_channels s2 = delete q (open_channels s)
    /\ (open_channels s !! q = None -> open_channels s2 = open_channels s).
Proof.
  intros s s1 s2.
  apply (channel_enter_exit_table 1 1 1%nat s s1 s2 false).
  - vm_compute. reflexivity.
  - vm_compute. reflexivity.
Defined.

(** *** Constructing the engine *)

Lemma credits_received_inbound_only (c c0 : nat) (p : D4Packet.t)
    (evs : list event) :
  credits_received c (Sent c0 p :: evs) = credits_received c evs.
Proof. reflexivity. Qed.

Lemma read_enough (size : Z) (t t' : transport.Transport) (r : result bytes) :
  transport.read size t = Some (r, t') -> 0 <= size ->
  (Z.to_nat size <= length (inbound t))%nat.
Proof.
  unfold transport.read, inbound. intros Hread Hsize.
  replace (size <? 0) with false in Hread by (symmetry; apply Z.ltb_ge; lia).
  destruct (Nat.ltb_spec (length (transport.buffered t ++ transport.incoming t))
              (Z.to_nat size)); [discriminate | assumption].
Qed.

(** What the construction has done when it returns. *)
Lemma D4_init_done (budget : nat) (t : transport.Transport) (s : D4) :
  D4_init budget t = Done tt s ->
  exists fr,
    transport.written (transport s)
    = transport.written t ++ [mode_escape; fr]
    /\ map byte_val fr = [0; 0; 0; 8; 1; 0; 0; 0x10]
    /\ (8 <= length (transport.incoming t))%nat
    /\ D4_init budget (transport.drain t) = Done tt s
    /\ open_channels s = {[ 0 := 0%nat ]}
    /\ next_ref s = 1%nat
    /\ D4Channel.tx_credits (chan 0%nat s) = credits_received 0%nat (trace s)
    /\ D4Channel.rx_credits (chan 0%nat s)
       = - len (delivered_to 0%nat (trace s))
    /\ D4Channel.rx_credits (chan 0%nat s) <= -1.
Proof.
  intros Hinit.
  assert (Hdrain : D4_init budget (transport.drain t) = Done tt s)
    by (rewrite <- Hinit; reflexivity).
  unfold D4_init in Hinit.
  unfold bind at 1, transport_drain, modify in Hinit.
  unfold bind at 1, transport_write, modify in Hinit.
  unfold bind at 1, transport_read in Hinit.
  cbn [transport set_transport] in Hinit.
  destruct (transport.read 8 _) as [[[data|e] t1]|] eqn:Hread;
    try discriminate.
  assert (Hw1 : transport.written t1 = transport.written t ++ [mode_escape]).
  { rewrite (read_written _ _ _ _ Hread). reflexivity. }
  assert (Hlen : (8 <= length (transport.incoming t))%nat).
  { apply read_enough in Hread; [|lia]. exact Hread. }
  set (s0 := set_transport t1 _) in Hinit.
  assert (Hc : chan 0%nat s0 = D4Channel.set_tx_credits 1 (D4Channel.new 0)).
  { unfold chan. simpl heap. rewrite lookup_total_singleton. reflexivity. }
  assert (Htab : open_channels s0 = {[ 0 := 0%nat ]}) by reflexivity.
  assert (Hnext : next_ref s0 = 1%nat) by reflexivity.
  assert (Hwr : transport.written (transport s0) = transport.written t1)
    by reflexivity.
  assert (Htr0 : trace s0 = []) by reflexivity.
  clearbody s0.
  unfold Init, bind in Hinit.
  destruct (command budget D4Command.Init [x10] s0) as [resp s1|e s1|s1]
    eqn:Hcmd; try discriminate.
  unfold assert in Hinit.
  destruct (bool_decide (map byte_val resp = [16])) eqn:Hresp; [|discriminate].
  injection Hinit as <-.
  destruct (command_done _ _ _ _ _ _ Hcmd)
    as (c0 & fr & reply & evs & Hc0 & _ & Hfr
        & (Htr & Hin & Hw & Ht & Hn & Hch) & Hq & _).
  rewrite Htab in Hc0.
  apply lookup_singleton_Some in Hc0. destruct Hc0 as [_ <-].
  exists fr.
  split.
  { rewrite Hw. cbn [transport upd_sent log set_chan set_transport
                      transport.write transport.written].
    rewrite Hwr, Hw1, <- app_assoc. reflexivity. }
  split; [exact (command_frame_bytes _ _ _ Hfr)|].
  split; [exact Hlen|].
  split; [exact Hdrain|].
  split; [rewrite Ht; exact Htab|].
  split; [rewrite Hn; exact Hnext|].
  destruct (Hch 0%nat) as (_ & Hrx & Htx).
  rewrite chan_upd_sent in Hrx, Htx.
  destruct (decide (0%nat = 0%nat)); [|contradiction].
  rewrite Hc in Hrx, Htx, Hq. cbn in Hrx, Htx, Hq.
  assert (Htrace : trace s1
                   = Sent 0%nat (command_packet D4Command.Init [x10]) :: evs).
  { rewrite Htr. simpl trace. rewrite Htr0. reflexivity. }
  rewrite Htrace.
  change (delivered_to 0%nat (Sent 0%nat ?p :: evs)) with (delivered_to 0%nat evs).
  rewrite credits_received_inbound_only.
  split; [lia|]. split; [lia|].
  rewrite Hrx, Hq. unfold len. simpl length. lia.
Qed.

(** X9.  The engine [D4(transport)] leaves when it returns.  It has written the
    mode escape and then the frame of [Init], and nothing else; the reply
    was taken from what the device sent after the drain, behind eight
    bytes that were read and thrown away; the table holds the control
    channel alone, at psid 0.  That channel's tx_credits is what the
    packets delivered to it carried, and its rx_credits is below zero:
    the command gave the peer one credit that was never added to it, and
    each delivery took one. *)
Theorem D4_init_constructs (budget : nat) (t : transport.Transport) (s : D4) :
  D4_init budget t = Done tt s ->
  exists fr,
    transport.written (transport s)
    = transport.written t ++ [mode_escape; fr]
    /\ map byte_val fr = [0; 0; 0; 8; 1; 0; 0; 0x10]
    /\ (8 <= length (transport.incoming t))%nat
    /\ D4_init budget (transport.drain t) = Done tt s
    /\ open_channels s = {[ 0 := 0%nat ]}
    /\ next_ref s = 1%nat
    /\ D4Channel.tx_credits (chan 0%nat s) = credits_received 0%nat (trace s)
    /\ D4Channel.rx_credits (chan 0%nat s)
       = - len (delivered_to 0%nat (trace s))
    /\ D4Channel.rx_credits (chan 0%nat s) <= -1.
Proof.
  apply D4_init_done.
Qed.

Lemma D4_init_constructs_witness :
  exists fr,
    transport.written (transport engine_constructed)
    = transport.written (link script_init) ++ [mode_escape; fr]
    /\ map byte_val fr = [0; 0; 0; 8; 1; 0; 0; 0x10]
    /\ (8 <= length (transport.incoming (link script_init)))%nat
    /\ D4_init 1 (transport.drain (link script_init))
       = Done tt engine_constructed
    /\ open_channels engine_constructed = {[ 0 := 0%nat ]}
    /\ next_ref engine_constructed = 1%nat
    /\ D4Channel.tx_credits (chan 0%nat engine_constructed)
       = credits_received 0%nat (trace engine_constructed)
    /\ D4Channel.rx_credits (chan 0%nat engine_constructed)
       = - len (delivered_to 0%nat (trace engine_constructed))
    /\ D4Channel.rx_credits (chan 0%nat engine_constructed) <= -1.
Proof.
  apply (D4_init_constructs 1 (link script_init) engine_constructed).
  vm_compute. reflexivity.
Defined.

(** *** Channels that were never opened *)

(** X10.  A channel object whose psid was never set (a channel that was not
    entered, and the control channel itself) cannot be used for a Credit
    or CreditRequest command or left: packing its psid raises
    [struct.error] before anything is sent.  Without an mtu a write of
    some data raises [TypeError] at once.  The engine is as it was. *)
Theorem unopened_channel_refused (budget : nat) (c : nat) (s : D4) :
  D4Channel.psid (chan c s) = None ->
  (forall amount, Credit budget c amount s = Raised StructError s)
  /\ (forall amount, CreditRequest budget c amount s = Raised StructError s)
  /\ channel_exit budget c s = Raised StructError s
  /\ (D4Channel.mtu (chan c s) = None ->
      forall b data,
        channel_write (S budget) c (b :: data) s = Raised TypeError s).
Proof.
  intros Hpsid. split; [|split; [|split]].
  - intros amount. apply Credit_unopened. exact Hpsid.
  - intros amount. unfold CreditRequest, bind, gets. rewrite Hpsid. reflexivity.
  - unfold channel_exit, CloseChannel, bind, gets. rewrite Hpsid. reflexivity.
  - intros Hmtu b data. unfold channel_write. simpl write_loop.
    unfold bind, write_pass, bind, gets. rewrite Hmtu. reflexivity.
Qed.

Lemma unopened_channel_refused_witness :
  (forall amount,
     Credit 1 0%nat amount (D4_new (link [])) = Raised StructError (D4_new (link [])))
  /\ (forall amount,
        CreditRequest 1 0%nat amount (D4_new (link []))
        = Raised StructError (D4_new (link [])))
  /\ channel_exit 1 0%nat (D4_new (link [])) = Raised StructError (D4_new (link []))
  /\ (D4Channel.mtu (chan 0%nat (D4_new (link []))) = None ->
      forall b data,
        channel_write 2 0%nat (b :: data) (D4_new (link []))
        = Raised TypeError (D4_new (link []))).
Proof.
  apply (unopened_channel_refused 1 0%nat (D4_new (link []))).
  reflexivity.
Defined.

(** *** D4._get_free_psid *)

Lemma find_range (f : Z -> bool) (n : nat) :
  forall a : nat,
    match List.find f (map Z.of_nat (seq a n)) with
    | Some i =>
        Z.of_nat a <= i < Z.of_nat (a + n) /\ f i = true
        /\ forall j, Z.of_nat a <= j < i -> f j = false
    | None => forall j, Z.of_nat a <= j < Z.of_nat (a + n) -> f j = false
    end.
Proof.
  induction n as [|n IH]; intros a; simpl.
  - intros j Hj. lia.
  - destruct (f (Z.of_nat a)) eqn:Hfa.
    + split; [lia|]. split; [exact Hfa|]. intros j Hj. lia.
    + specialize (IH (S a)).
      destruct (List.find f (map Z.of_nat (seq (S a) n))) as [i|].
      * destruct IH as (Hi & Hfi & Hleast).
        split; [lia|]. split; [exact Hfi|].
        intros j Hj. destruct (Z.eq_dec j (Z.of_nat a)) as [->|];
          [exact Hfa | apply Hleast; lia].
      * intros j Hj. destruct (Z.eq_dec j (Z.of_nat a)) as [->|];
          [exact Hfa | apply IH; lia].
Qed.

(** X11.  [_get_free_psid] answers the smallest psid of 0..255 that the table
    does not hold, and it raises [D4Error] exactly when the table holds
    all 256 of them. *)
Theorem get_free_psid_least (s : D4) :
  match _get_free_psid s with
  | inr i =>
      0 <= i < 256 /\ open_channels s !! i = None
      /\ forall j, 0 <= j < i -> open_channels s !! j <> None
  | inl e =>
      e = MkD4Error "No free PSIDs to allocate to channel open."
      /\ forall j, 0 <= j < 256 -> open_channels s !! j <> None
  end.
Proof.
  unfold _get_free_psid.
  pose proof (find_range (fun i => bool_decide (open_channels s !! i = None))
                256 0) as Hfind.
  cbv beta in Hfind.
  destruct (List.find _ _) as [i|].
  - destruct Hfind as (Hi & Hfree & Hleast).
    split; [lia|]. split; [apply bool_decide_eq_true in Hfree; exact Hfree|].
    intros j Hj. specialize (Hleast j ltac:(lia)).
    apply bool_decide_eq_false in Hleast. exact Hleast.
  - split; [reflexivity|]. intros j Hj. specialize (Hfind j ltac:(lia)).
    apply bool_decide_eq_false in Hfind. exact Hfind.
Qed.

(** *** Making a channel, and entering the backend *)

Lemma encode_ascii_cases (name : string) :
  encode_ascii name = Ok (bytes_of_string name)
  \/ encode_ascii name = Raise UnicodeEncodeError.
Proof. unfold encode_ascii. destruct (forallb _ _); auto. Qed.

(** What [channel] has done when it returns. *)
Lemma channel_done (budget : nat) (name : string) (s s' : D4) (c : nat) :
  channel budget name s = Done c s' ->
  exists fr ssid,
    c = next_ref s
    /\ next_ref s' = S (next_ref s)
    /\ chan c s' = D4Channel.new ssid
    /\ 0 <= ssid < 256
    /\ open_channels s' = open_channels s
    /\ transport.written (transport s')
       = transport.written (transport s) ++ [fr]
    /\ map byte_val fr
       = [0; 0; (7 + len (bytes_of_string name)) / 256;
          (7 + len (bytes_of_string name)) mod 256; 1; 0; 9]
         ++ map byte_val (bytes_of_string name)
    /\ forall c', c' <> c -> static (chan c' s') = static (chan c' s).
Proof.
  unfold channel, GetSocketID. unfold bind at 1. unfold bind at 1.
  destruct (encode_ascii_cases name) as [-> | ->]; [|discriminate].
  cbn [lift ret]. unfold bind at 1.
  destruct (command budget D4Command.GetSocketID (bytes_of_string name) s)
    as [resp s1|e s1|s1] eqn:Hcmd; try discriminate.
  destruct (getitem resp 0) as [ssid|e] eqn:Hssid; [|discriminate].
  cbn [lift ret]. intros Hd. injection Hd as <- <-.
  destruct (command_effect _ _ _ _ _ _ Hcmd) as (fr & Hfr & Hw & Ht & Hn & Hst).
  exists fr, ssid.
  split; [exact Hn|]. split; [cbn; rewrite Hn; reflexivity|].
  split; [unfold chan; cbn [heap]; apply lookup_total_insert_eq|].
  split; [exact (getitem_value _ _ _ Hssid)|].
  split; [exact Ht|]. split; [exact Hw|].
  split; [exact (command_frame_bytes _ _ _ Hfr)|].
  intros c' Hne. rewrite <- Hst. unfold chan at 1. cbn [heap].
  rewrite lookup_total_insert_ne by congruence. reflexivity.
Qed.





(** *** Credit before a write *)

Lemma ensured_in_table (m : gmap Z nat) (self : nat) (q : Z) (s : D4) :
  m !! q = Some self ->
  ensured (fun s => Inv s /\ open_channels s = m) self s ->
  Inv s /\ open_channels s = m /\ 1 <= D4Channel.tx_credits (chan self s).
Proof.
  intros Hq [[[Hs Ht] Htx]|(amount & Ha & s1 & q1 & target & [Hs1 Ht1] & Hq1
                             & Htarget & Hrange & ->)].
  - auto.
  - assert (HJ : CmdStable (fun s => Inv s /\ open_channels s = m)).
    { apply CmdStable_and; [apply Inv_cmd_stable|].
      apply (table_cmd_stable (fun t => t = m)). }
    destruct (cs_granted _ HJ s1 self q1 target amount Hq1 Htarget Hrange
                (conj Hs1 Ht1)) as [Hs' Ht'].
    split; [exact Hs'|]. split; [exact Ht'|].
    rewrite <- Ht1 in Hq.
    destruct (inv_table s1 Hs1 q self Hq) as [Htx Hpsid].
    specialize (Hpsid q1 Hq1). subst q1.
    assert (target = self) by congruence. subst target.
    rewrite chan_upd_granted. destruct (decide (self = self)); [|contradiction].
    simpl. lia.
Qed.

(** X14.  [_ensure_credit] on a channel of the table, in an engine a program can
    hold.  With credit on the channel it returns at once and changes
    nothing.  Without, it returns only after a CreditRequest was granted
    at least one credit; in both cases the channel has credit when it
    returns, and the table is as it was. *)
Theorem ensure_credit_gives_credit (budget : nat) (self : nat) (q : Z)
    (s s' : D4) :
  reachable s ->
  open_channels s !! q = Some self ->
  _ensure_credit budget self s = Done tt s' ->
  1 <= D4Channel.tx_credits (chan self s')
  /\ open_channels s' = open_channels s
  /\ (1 <= D4Channel.tx_credits (chan self s) -> s' = s).
Proof.
  intros Hreach Hq Hd. pose proof (reachable_inv s Hreach) as Hs.
  assert (HJ : CmdStable (fun s0 => Inv s0 /\ open_channels s0 = open_channels s)).
  { apply CmdStable_and; [apply Inv_cmd_stable|].
    apply (table_cmd_stable (fun t => t = open_channels s)). }
  pose proof (ensure_credit_ensures _ HJ budget self s (conj Hs eq_refl)) as He.
  rewrite Hd in He.
  destruct (ensured_in_table _ _ _ _ Hq He) as (_ & Ht & Htx).
  split; [exact Htx|]. split; [exact Ht|].
  intros Hhas. unfold _ensure_credit, bind, gets in Hd.
  destruct (Z.ltb_spec (D4Channel.tx_credits (chan self s)) 1); [lia|].
  injection Hd as <-. reflexivity.
Qed.

(** The entered channel with no credit from [OpenChannel], and a device
    that grants three on request. *)
Lemma ensure_credit_gives_credit_witness :
  let s := run_call 1 (CallEnter 1)
             (run_call 1 (CallChannel "EPSON-CTRL")
                (state_of (D4_init 1 (link (script_open 512 0
                                              ++ script_grant 3))))) in
  let s' := state_of (_ensure_credit 1 1%nat s) in
  1 <= D4Channel.tx_credits (chan 1%nat s')
  /\ open_channels s' = open_channels s
  /\ (1 <= D4Channel.tx_credits (chan 1%nat s) -> s' = s).
Proof.
  intros s s'.
  apply (ensure_credit_gives_credit 1 1%nat 2 s s').
  - apply reachable_call; [apply reachable_call|].
    + apply (reachable_init 1 (link (script_open 512 0 ++ script_grant 3))).
      vm_compute. reflexivity.
    + exact I.
    + split; [vm_compute; lia|]. split; [vm_compute; reflexivity|].
      intros p Hp.
      assert (Htab : open_channels
                       (run_call 1 (CallChannel "EPSON-CTRL")
                          (state_of (D4_init 1 (link (script_open 512 0
                                                        ++ script_grant 3)))))
                     = {[ 0 := 0%nat ]}) by (vm_compute; reflexivity).
      rewrite Htab in Hp. apply lookup_singleton_Some in Hp.
      destruct Hp as [_ Hp]. discriminate Hp.
  - vm_compute. reflexivity.
  - vm_compute. reflexivity.
Defined.

(** *** The table of the engines a program can hold *)

Lemma table_wf_stable : Stable table_wf.
Proof.
  split; [split| |]; intros; assumption.
Qed.

Lemma OpenChannel_table_wf (budget : nat) (self : nat) :
  triple (fun s => table_wf s /\ allocated self s)
         (OpenChannel budget self) (fun _ => table_wf) table_wf.
Proof.
  pose (J := fun s => table_wf s /\ allocated self s).
  assert (HJ : CmdStable J).
  { split; intros; assumption. }
  assert (HJwf : forall s, J s -> table_wf s) by (intros s [Hs _]; exact Hs).
  unfold OpenChannel.
  apply triple_bind with (Q := fun _ => J); [apply triple_gets; auto|].
  intros psid. apply triple_bind with (Q := fun _ => J);
    [apply triple_gets; auto|].
  intros ssid. apply triple_bind with (Q := fun _ => J);
    [apply triple_lift; auto|].
  intros req. apply triple_bind with (Q := fun _ => J).
  { eapply triple_conseq;
      [apply (command_keeps J HJ); reflexivity|auto|auto|auto]. }
  intros res.
  apply triple_bind with
    (Q := fun fields s => J s /\ 0 <= fst (fst (fst (fst fields))) < 256).
  { apply triple_lift; [|auto]. intros fields s Hf Hs. split; [exact Hs|].
    unfold unpack_BBHHH in Hf.
    destruct res as [|a [|b [|c1 [|c2 [|d1 [|d2 [|e1 [|e2 [|? ?]]]]]]]]];
      try discriminate.
    injection Hf as <-. simpl. apply byte_val_range. }
  intros [[[[q ssid'] m] mc] cr]. cbn [fst].
  apply triple_bind with (Q := fun _ s => J s /\ 0 <= q < 256).
  { apply triple_gets. auto. }
  intros own. apply triple_bind with (Q := fun _ s => J s /\ 0 <= q < 256).
  { apply triple_assert; [auto|]. intros s [[Hs _] _]. exact Hs. }
  intros ?. apply triple_modify. intros s [[Hwf Hself] Hq] p c.
  cbn [open_channels set_open_channels set_chan].
  unfold allocated. cbn [next_ref set_open_channels set_chan].
  intros Hp. apply lookup_insert_Some in Hp.
  destruct Hp as [[<- <-]|[_ Hp]]; [split; assumption|].
  exact (Hwf p c Hp).
Qed.

Lemma CloseChannel_table_wf (budget : nat) (self : nat) :
  preserves table_wf (CloseChannel budget self).
Proof.
  assert (HI : CmdStable table_wf) by apply (st_cmd _ table_wf_stable).
  unfold CloseChannel, preserves.
  apply triple_bind with (Q := fun _ => table_wf); [apply triple_gets; auto|].
  intros ch. apply triple_bind with (Q := fun _ => table_wf);
    [apply triple_lift; auto|].
  intros req. apply triple_bind with (Q := fun _ => table_wf).
  { apply command_keeps; [exact HI | reflexivity]. }
  intros ? s Hs.
  destruct (D4Channel.psid (chan self s)) as [q|]; [|exact Hs].
  destruct (open_channels s !! q) as [c|]; [|exact Hs].
  intros p c' Hp. cbn [open_channels set_open_channels] in Hp.
  apply lookup_delete_Some in Hp. destruct Hp as [_ Hp].
  exact (Hs p c' Hp).
Qed.

Lemma channel_table_wf (budget : nat) (name : string) :
  preserves table_wf (channel budget name).
Proof.
  assert (HI : CmdStable table_wf) by apply (st_cmd _ table_wf_stable).
  unfold channel, preserves.
  apply triple_bind with (Q := fun _ => table_wf).
  { apply GetSocketID_keeps. exact HI. }
  intros ssid s Hs p c Hp. cbn [open_channels] in Hp.
  destruct (Hs p c Hp) as [Hrange Halloc].
  split; [exact Hrange|]. unfold allocated in *. cbn [next_ref]. lia.
Qed.

Lemma run_call_table_wf (budget : nat) (c : call) (s : D4) :
  table_wf s -> may_call c s -> table_wf (run_call budget c s).
Proof.
  assert (HI : CmdStable table_wf) by apply (st_cmd _ table_wf_stable).
  intros Hs Hmay.
  destruct c as [name|name|ch amount|ch amount|ch|ch|ch data|ch]; simpl.
  - apply preserves_state_of; [|exact Hs]. apply GetSocketID_keeps, HI.
  - apply preserves_state_of; [|exact Hs]. apply channel_table_wf.
  - apply preserves_state_of; [|exact Hs]. apply Credit_keeps, HI.
  - apply (triple_state_of table_wf (CreditRequest budget ch amount)
             (granted_step table_wf ch) table_wf table_wf s); auto.
    + apply CreditRequest_grants, HI.
    + intros a s'. apply granted_step_keeps, HI.
  - simpl in Hmay. destruct Hmay as [Halloc _].
    unfold channel_enter.
    apply (triple_state_of (fun s => table_wf s /\ allocated ch s) _
             (fun _ => table_wf) table_wf table_wf s); auto.
    eapply triple_bind; [apply OpenChannel_table_wf|]. intros ?.
    apply triple_bind with (Q := fun _ => table_wf);
      [apply triple_gets; auto|].
    intros rx_max. apply triple_bind with (Q := fun _ => table_wf);
      [apply Credit_keeps, HI|].
    intros ?. apply triple_modify. intros s0 Hs0. exact Hs0.
  - unfold channel_exit.
    apply (preserves_state_of table_wf); [|exact Hs].
    apply triple_bind with (Q := fun _ => table_wf);
      [apply CloseChannel_table_wf|].
    intros ?. apply triple_ret. auto.
  - apply preserves_state_of; [|exact Hs].
    apply channel_write_keeps, table_wf_stable.
  - apply preserves_state_of; [|exact Hs].
    apply channel_read_keeps, table_wf_stable.
Qed.

(** X15.  In every engine a program can hold, the psids of the table are bytes
    and the channels it holds are objects the engine has made: the table
    has no entry that the scan of [_get_free_psid] over 0..255 would
    miss, and every packet that [read_next_packet] delivers goes to an
    existing channel. *)
Theorem reachable_table_wf (s : D4) :
  reachable s -> table_wf s.
Proof.
  induction 1 as [budget t s Hinit|budget c s Hreach IH Hmay].
  - destruct (D4_init_done _ _ _ Hinit) as (fr & _ & _ & _ & _ & Ht & Hn & _).
    intros p c Hp. rewrite Ht in Hp. apply lookup_singleton_Some in Hp.
    destruct Hp as [<- <-]. split; [lia|]. unfold allocated. rewrite Hn. lia.
  - apply run_call_table_wf; assumption.
Qed.

Lemma reachable_table_wf_witness : table_wf engine_overrun.
Proof.
  apply (reachable_table_wf engine_overrun).
  exact reachable_engine_overrun.
Defined.

(** *** The queue of a channel across writes and reads *)

Lemma queues_grow_refl (s : D4) : queues_grow [] s s.
Proof.
  unfold queues_grow. rewrite app_nil_r.
  split; [reflexivity|]. split; [reflexivity|].
  intros c _. simpl. rewrite app_nil_r. reflexivity.
Qed.

Lemma queues_grow_trans (evs1 evs2 : list event) (s s1 s2 : D4) :
  queues_grow evs1 s s1 -> queues_grow evs2 s1 s2 ->
  queues_grow (evs1 ++ evs2) s s2.
Proof.
  intros (Htr1 & Ht1 & Hq1) (Htr2 & Ht2 & Hq2). unfold queues_grow.
  split; [rewrite Htr2, Htr1, app_assoc; reflexivity|].
  split; [congruence|].
  intros c Hc. rewrite Hq2 by (rewrite Ht1; exact Hc).
  rewrite (Hq1 c Hc), delivered_to_app, app_assoc. reflexivity.
Qed.

(** A change of state that keeps the table and the queues, and logs
    events other than deliveries. *)
Lemma queues_grow_quiet (evs : list event) (s s' : D4) :
  trace s' = trace s ++ evs ->
  (forall c, delivered_to c evs = []) ->
  open_channels s' = open_channels s ->
  (forall c, D4Channel.rx_queue (chan c s') = D4Channel.rx_queue (chan c s)) ->
  queues_grow evs s s'.
Proof.
  intros Htr Hev Ht Hq. split; [exact Htr|]. split; [exact Ht|].
  intros c _. rewrite Hq, Hev, app_nil_r. reflexivity.
Qed.

Lemma command_grows (budget : nat) (cmd : D4Command.t) (payload : bytes)
    (s s' : D4) (resp : bytes) :
  command budget cmd payload s = Done resp s' ->
  exists evs, queues_grow evs s s'.
Proof.
  intros Hd.
  destruct (command_run _ _ _ _ _ _ Hd)
    as (c0 & fr & reply & evs & Hc0 & _ & _ & (Htr & _ & _ & Ht & _) & _ & _
        & _ & Hoth).
  exists (Sent c0 (command_packet cmd payload) :: evs).
  split; [rewrite Htr; simpl; rewrite <- app_assoc; reflexivity|].
  split; [exact Ht|].
  intros c Hc. apply Hoth. congruence.
Qed.

Lemma Credit_grows (budget : nat) (c : nat) (amount : Z) (s s' : D4) :
  Credit budget c amount s = Done tt s' -> exists evs, queues_grow evs s s'.
Proof.
  unfold Credit, bind, gets.
  destruct (pack_BBH _ _ _) as [req|e]; [|discriminate]. cbn [lift ret].
  destruct (command budget D4Command.Credit req s) as [res s1|e s1|s1]
    eqn:Hcmd; try discriminate.
  cbn [ret]. intros Hd. injection Hd as <-.
  exact (command_grows _ _ _ _ _ _ Hcmd).
Qed.

Lemma CreditRequest_grows (budget : nat) (c : nat) (amount granted : Z)
    (s s' : D4) :
  CreditRequest budget c amount s = Done granted s' ->
  exists evs, queues_grow evs s s'.
Proof.
  unfold CreditRequest, bind, gets.
  destruct (pack_BBH _ _ _) as [req|e]; [|discriminate]. cbn [lift ret].
  destruct (command budget D4Command.CreditRequest req s) as [res s1|e s1|s1]
    eqn:Hcmd; try discriminate.
  destruct (unpack_BBH res) as [[[f1 f2] g]|e]; [|discriminate].
  cbn [lift ret].
  destruct (D4Channel.psid (chan c s1) ≫= _) as [target|]; [|discriminate].
  intros Hd. injection Hd as <- <-.
  destruct (command_grows _ _ _ _ _ _ Hcmd) as (evs & Hg).
  exists (evs ++ [Granted target g]).
  apply (queues_grow_trans _ _ _ s1); [exact Hg|].
  change (queues_grow [Granted target g] s1 (upd_granted target g s1)).
  apply queues_grow_quiet; try reflexivity.
  intros c'. rewrite chan_upd_granted.
  destruct (decide (target = c')); reflexivity.
Qed.

Lemma credit_wait_grows (passes budget : nat) (c : nat) :
  forall s s',
    credit_wait passes budget c s = Done tt s' ->
    exists evs, queues_grow evs s s'.
Proof.
  induction passes as [|passes IH]; intros s s'; simpl; [discriminate|].
  unfold bind.
  destruct (CreditRequest budget c 65535 s) as [g s1|e s1|s1] eqn:Hreq;
    try discriminate.
  destruct (CreditRequest_grows _ _ _ _ _ _ Hreq) as (evs1 & Hg1).
  destruct (g <? 1).
  - intros Hd. destruct (IH _ _ Hd) as (evs2 & Hg2).
    exists (evs1 ++ evs2). exact (queues_grow_trans _ _ _ _ _ Hg1 Hg2).
  - intros Hd. injection Hd as <-. exists evs1. exact Hg1.
Qed.

Lemma ensure_credit_grows (budget : nat) (c : nat) (s s' : D4) :
  _ensure_credit budget c s = Done tt s' -> exists evs, queues_grow evs s s'.
Proof.
  unfold _ensure_credit, bind, gets.
  destruct (_ <? 1).
  - apply credit_wait_grows.
  - intros Hd. injection Hd as <-. exists []. apply queues_grow_refl.
Qed.

Lemma write_pass_grows (budget : nat) (self : nat) (data rest : bytes)
    (s s' : D4) :
  write_pass budget self data s = Done rest s' ->
  exists evs, queues_grow evs s s'.
Proof.
  unfold write_pass. unfold bind at 1, gets at 1.
  destruct (D4Channel.mtu (chan self s)) as [mtu|]; [|discriminate].
  unfold bind at 1, modify at 1. unfold bind at 1.
  match goal with
  | |- context [_ensure_credit budget self ?s1] => set (s1' := s1)
  end.
  destruct (_ensure_credit budget self s1') as [[] s2|e s2|s2] eqn:Hens;
    try discriminate.
  unfold bind at 1. rewrite write_packet_frame.
  destruct (frame _) as [fr|e]; [|discriminate].
  unfold ret. intros Hd. injection Hd as _ <-.
  destruct (ensure_credit_grows _ _ _ _ Hens) as (evs & Hg).
  match goal with
  | |- context [upd_sent self ?p fr s2] => set (pk := p)
  end.
  exists ([] ++ evs ++ [Sent self pk]).
  apply (queues_grow_trans _ _ _ s1').
  { apply queues_grow_quiet; try reflexivity.
    - rewrite app_nil_r. reflexivity.
    - intros c. subst s1'. rewrite chan_set_chan.
      destruct (decide (self = c)) as [->|]; reflexivity. }
  apply (queues_grow_trans _ _ _ s2); [exact Hg|].
  apply queues_grow_quiet; try reflexivity.
  intros c. rewrite chan_upd_sent. destruct (decide (self = c)) as [->|];
    reflexivity.
Qed.

Lemma write_loop_grows (passes budget : nat) (self : nat) :
  forall data s s',
    write_loop passes budget self data s = Done tt s' ->
    exists evs, queues_grow evs s s'.
Proof.
  induction passes as [|passes IH]; intros [|b data] s s'; simpl;
    try discriminate;
    try (intros Hd; injection Hd as <-; exists []; apply queues_grow_refl).
  unfold bind.
  destruct (write_pass budget self (b :: data) s) as [rest s1|e s1|s1] eqn:Hp;
    try discriminate.
  intros Hd. destruct (write_pass_grows _ _ _ _ _ _ Hp) as (evs1 & Hg1).
  destruct (IH _ _ _ Hd) as (evs2 & Hg2).
  exists (evs1 ++ evs2). exact (queues_grow_trans _ _ _ _ _ Hg1 Hg2).
Qed.

(** What [D4Channel.read] has done when it returns, on a channel other
    than the one the table holds at psid 0. *)
Lemma channel_read_done (budget : nat) (self : nat) (s s' : D4)
    (p : D4Packet.t) :
  channel_read budget self s = Done p s' ->
  open_channels s !! 0 <> Some self ->
  exists evs,
    trace s' = trace s ++ evs
    /\ open_channels s' = open_channels s
    /\ D4Channel.rx_queue (chan self s) ++ delivered_to self evs
       = p :: D4Channel.rx_queue (chan self s').
Proof.
  intros Hd Hself. unfold channel_read in Hd.
  unfold bind at 1, gets at 1 in Hd. unfold bind at 1 in Hd.
  destruct ((if 255 <? _ then _ else ret tt) s) as [[] s1|e s1|s1] eqn:Htop;
    try discriminate.
  assert (Hg : exists evs, queues_grow evs s s1).
  { destruct (255 <? _).
    - unfold bind at 1 in Htop.
      destruct (Credit budget self _ s) as [[] s0|e s0|s0] eqn:Hcredit;
        try discriminate.
      unfold modify in Htop. injection Htop as <-.
      destruct (Credit_grows _ _ _ _ _ Hcredit) as (evs & Hg).
      exists (evs ++ []).
      apply (queues_grow_trans _ _ _ s0); [exact Hg|].
      apply queues_grow_quiet; try reflexivity.
      + rewrite app_nil_r. reflexivity.
      + intros c. rewrite chan_set_chan.
        destruct (decide (self = c)) as [->|]; reflexivity.
    - injection Htop as <-. exists []. apply queues_grow_refl. }
  destruct Hg as (evs1 & Htr1 & Ht1 & Hq1).
  destruct (read_packet_done _ _ _ _ _ Hd)
    as (evs2 & (Htr2 & _ & _ & Ht2 & _) & Hq2 & _).
  exists (evs1 ++ evs2).
  split; [rewrite Htr2, Htr1, app_assoc; reflexivity|].
  split; [congruence|].
  rewrite delivered_to_app, app_assoc, <- (Hq1 self Hself). exact Hq2.
Qed.

(** X27.  [D4Channel.read] is first in, first out across its credit
    top-up.  On a channel other than the one the table holds at psid 0,
    the packet it returns is the oldest of those that were queued on the
    channel followed by those delivered to it during the call, and the
    rest is the queue it leaves; the table is as it was.  As long as the
    channel owes the peer no more than 255 credits it writes nothing to
    the link: the Credit command is kept for a larger debt. *)
Theorem channel_read_fifo (budget : nat) (self : nat) (s s' : D4)
    (p : D4Packet.t) :
  channel_read budget self s = Done p s' ->
  open_channels s !! 0 <> Some self ->
  D4Channel.rx_queue (chan self s) ++ delivered_to self (events_since s s')
  = p :: D4Channel.rx_queue (chan self s')
  /\ open_channels s' = open_channels s
  /\ (D4Channel.rx_credits_max (chan self s)
      - D4Channel.rx_credits (chan self s) <= 0xFF ->
      transport.written (transport s') = transport.written (transport s)).
Proof.
  intros Hd Hself.
  destruct (channel_read_done _ _ _ _ _ Hd Hself) as (evs & Htr & Ht & Hq).
  unfold events_since. rewrite Htr, drop_app_length.
  split; [exact Hq|]. split; [exact Ht|].
  intros Hsmall. unfold channel_read in Hd.
  unfold bind at 1, gets at 1 in Hd. unfold bind at 1 in Hd.
  destruct (Z.ltb_spec 255
              (D4Channel.rx_credits_max (chan self s)
               - D4Channel.rx_credits (chan self s))); [lia|].
  cbn [ret] in Hd.
  destruct (read_packet_done _ _ _ _ _ Hd) as (evs2 & (_ & _ & Hw & _) & _).
  exact Hw.
Qed.

Lemma channel_read_fifo_witness :
  let s := engine_entered 512 1 data_packet_bytes in
  let s' := state_of (channel_read 1 1%nat s) in
  D4Channel.rx_queue (chan 1%nat s) ++ delivered_to 1%nat (events_since s s')
  = data_packet_AB :: D4Channel.rx_queue (chan 1%nat s')
  /\ open_channels s' = open_channels s
  /\ (D4Channel.rx_credits_max (chan 1%nat s)
      - D4Channel.rx_credits (chan 1%nat s) <= 0xFF ->
      transport.written (transport s') = transport.written (transport s)).
Proof.
  intros s s'.
  apply (channel_read_fifo 1 1%nat s s' data_packet_AB).
  - vm_compute. reflexivity.
  - vm_compute. discriminate.
Defined.

(** X28.  [D4ControlBackend.send] answers the oldest packet of its
    channel.  When it returns, its result is the payload of the packet
    that stood first among those already queued on the channel and those
    delivered to it while the command was written and the answer read: a
    packet left unread by an earlier call is returned in place of the
    answer to this command.  The table is as it was. *)
Theorem backend_send_oldest (budget : nat) (channel : nat) (command resp : bytes)
    (s s' : D4) :
  backend_send budget channel command s = Done resp s' ->
  open_channels s !! 0 <> Some channel ->
  exists p,
    resp = D4Packet.payload p
    /\ D4Channel.rx_queue (chan channel s)
       ++ delivered_to channel (events_since s s')
       = p :: D4Channel.rx_queue (chan channel s')
    /\ open_channels s' = open_channels s.
Proof.
  intros Hd Hself. unfold backend_send in Hd. unfold bind at 1 in Hd.
  destruct (channel_write budget channel command s) as [[] s1|e s1|s1]
    eqn:Hwrite; try discriminate.
  unfold bind in Hd.
  destruct (channel_read budget channel s1) as [p s2|e s2|s2] eqn:Hread;
    try discriminate.
  injection Hd as <- <-.
  destruct (write_loop_grows _ _ _ _ _ _ Hwrite) as (evs1 & Htr1 & Ht1 & Hq1).
  destruct (channel_read_done _ _ _ _ _ Hread) as (evs2 & Htr2 & Ht2 & Hq2);
    [rewrite Ht1; exact Hself|].
  exists p. split; [reflexivity|].
  unfold events_since. rewrite Htr2, Htr1, <- app_assoc, drop_app_length.
  split; [|congruence].
  rewrite delivered_to_app, app_assoc, <- (Hq1 channel Hself). exact Hq2.
Qed.

(** Two packets for the channel on the link: [send] returns the first
    and leaves the second queued. *)
Lemma backend_send_oldest_witness :
  let s := engine_entered 512 2 (data_packet_bytes ++ data_packet_bytes) in
  let s' := state_of (backend_send 2 1%nat [x01] s) in
  exists p,
    [x41; x42] = D4Packet.payload p
    /\ D4Channel.rx_queue (chan 1%nat s)
       ++ delivered_to 1%nat (events_since s s')
       = p :: D4Channel.rx_queue (chan 1%nat s')
    /\ open_channels s' = open_channels s.
Proof.
  intros s s'.
  apply (backend_send_oldest 2 1%nat [x01] [x41; x42] s s').
  - vm_compute. reflexivity.
  - vm_compute. discriminate.
Defined.

(* ===================================================================== *)
(** ** Further properties: the decoders and the printer facade *)
(* ===================================================================== *)

(** *** The status decoder on encoded payloads *)

Lemma getitem_app_mid (pre : bytes) (b : byte) (post : bytes) :
  getitem (pre ++ b :: post) (len pre) = Ok (byte_val b).
Proof.
  unfold getitem, len.
  replace (Z.of_nat (length pre) <? 0) with false
    by (symmetry; apply Z.ltb_ge; lia).
  replace (0 <=? Z.of_nat (length pre)) with true
    by (symmetry; apply Z.leb_le; lia).
  replace (Z.of_nat (length pre) <? Z.of_nat (length (pre ++ b :: post)))
    with true
    by (symmetry; apply Z.ltb_lt; rewrite length_app; simpl; lia).
  simpl. rewrite Nat2Z.id.
  rewrite lookup_app_r by lia. rewrite Nat.sub_diag. reflexivity.
Qed.

Lemma slice_app_mid {A : Type} (pre mid post : list A) :
  slice (pre ++ mid ++ post) (len pre) (len pre + len mid) = mid.
Proof.
  unfold slice, slice_bound, len.
  replace (Z.of_nat (length pre) <? 0) with false
    by (symmetry; apply Z.ltb_ge; lia).
  replace (Z.of_nat (length pre) + Z.of_nat (length mid) <? 0) with false
    by (symmetry; apply Z.ltb_ge; lia).
  rewrite !length_app.
  rewrite !Z.min_l by lia.
  replace (Z.to_nat (Z.of_nat (length pre) + Z.of_nat (length mid)
                     - Z.of_nat (length pre))) with (length mid) by lia.
  rewrite Nat2Z.id, drop_app_length, take_app_length. reflexivity.
Qed.

Lemma len_app {A : Type} (l1 l2 : list A) : len (l1 ++ l2) = len l1 + len l2.
Proof. unfold len. rewrite length_app. lia. Qed.

Lemma len_encode_entry (e : utils.entry) :
  len (encode_entry e) = 2 + len (snd e).
Proof. destruct e as [[h l] d]. unfold len. simpl. lia. Qed.

Lemma encode_entries_nil (es : list utils.entry) :
  len (encode_entries es) <= 0 -> es = [].
Proof.
  destruct es as [|e rest]; [reflexivity|].
  unfold encode_entries. simpl. rewrite len_app, len_encode_entry.
  pose proof (len_nonneg (snd e)). pose proof (len_nonneg (flat_map encode_entry rest)).
  lia.
Qed.

Lemma yielded_short (h l : Z) (d : bytes) (rest : list utils.entry) :
  len d + len (encode_entries rest) <= 0 ->
  yielded ((h, l, d) :: rest) = [].
Proof.
  intros Hlen. pose proof (len_nonneg d).
  pose proof (len_nonneg (encode_entries rest)).
  rewrite (encode_entries_nil rest) by lia.
  destruct d; [reflexivity|]. unfold len in *. simpl in *. lia.
Qed.

Lemma yielded_long (h l : Z) (d : bytes) (rest : list utils.entry) :
  0 < len d + len (encode_entries rest) ->
  yielded ((h, l, d) :: rest) = (h, l, d) :: yielded rest.
Proof.
  intros Hlen. destruct rest as [|e rest]; [|destruct d; reflexivity].
  destruct d; [|reflexivity]. unfold len in Hlen. simpl in Hlen. lia.
Qed.

(** The loop of the decoder over encoded items, from the offset where they
    start: the length field counts the items alone, so the loop stops two
    bytes early. *)
Lemma entries_encoded (length : Z) :
  forall (es : list utils.entry) (pre post : bytes) (budget : nat),
    Forall well_formed es ->
    len pre + len (encode_entries es) = length + 2 ->
    length - len pre <= Z.of_nat budget ->
    utils.entries budget (pre ++ encode_entries es ++ post) length (len pre)
    = Ok (yielded es).
Proof.
  induction es as [|[[h l] d] rest IH]; intros pre post budget Hwf Hlen Hbud.
  - simpl in Hlen. unfold len at 2 in Hlen. simpl in Hlen.
    destruct budget; simpl; [reflexivity|].
    replace (len pre <? length) with false by (symmetry; apply Z.ltb_ge; lia).
    reflexivity.
  - inversion Hwf as [|? ? Hwf1 Hrest]; subst.
    unfold well_formed in Hwf1. destruct Hwf1 as (Hh & -> & Hl256).
    change (encode_entries ((h, len d, d) :: rest))
      with (encode_entry (h, len d, d) ++ encode_entries rest) in *.
    rewrite len_app, len_encode_entry in Hlen. simpl snd in Hlen.
    pose proof (len_nonneg d) as Hd.
    pose proof (len_nonneg (encode_entries rest)) as Hr.
    assert (Hstop : length <= len pre -> yielded ((h, len d, d) :: rest) = []).
    { intros Hle. apply yielded_short. lia. }
    destruct budget as [|budget]; simpl utils.entries.
    { f_equal. symmetry. apply Hstop. lia. }
    destruct (Z.ltb_spec (len pre) length) as [Hlt|Hge];
      [|f_equal; symmetry; apply Hstop; lia].
    replace (yielded _) with ((h, len d, d) :: yielded rest)
      by (symmetry; apply yielded_long; lia).
    cbn [encode_entry]. rewrite <- !app_assoc. cbn [app].
    rewrite getitem_app_mid. cbn [Py.bind].
    replace (pre ++ byte_of_Z h :: byte_of_Z (len d) :: d ++ encode_entries rest ++ post)
      with ((pre ++ [byte_of_Z h]) ++ byte_of_Z (len d)
              :: d ++ encode_entries rest ++ post)
      by (rewrite <- app_assoc; reflexivity).
    replace (len pre + 1) with (len (pre ++ [byte_of_Z h]))
      by (rewrite len_app; reflexivity).
    rewrite getitem_app_mid. cbn [Py.bind].
    rewrite !byte_val_of_Z by lia.
    replace ((pre ++ [byte_of_Z h]) ++ byte_of_Z (len d)
               :: d ++ encode_entries rest ++ post)
      with ((pre ++ [byte_of_Z h; byte_of_Z (len d)])
              ++ d ++ (encode_entries rest ++ post))
      by (rewrite <- !app_assoc; reflexivity).
    replace (len (pre ++ [byte_of_Z h]) + 1)
      with (len (pre ++ [byte_of_Z h; byte_of_Z (len d)]))
      by (rewrite !len_app; unfold len; cbn [Datatypes.length]; lia).
    rewrite slice_app_mid.
    replace ((pre ++ [byte_of_Z h; byte_of_Z (len d)])
               ++ d ++ encode_entries rest ++ post)
      with ((pre ++ encode_entry (h, len d, d)) ++ encode_entries rest ++ post)
      by (cbn [encode_entry]; rewrite <- !app_assoc; reflexivity).
    replace (len (pre ++ [byte_of_Z h; byte_of_Z (len d)]) + len d)
      with (len (pre ++ encode_entry (h, len d, d)))
      by (rewrite !len_app, len_encode_entry; simpl snd;
          unfold len; cbn [Datatypes.length]; lia).
    rewrite IH; [reflexivity | exact Hrest | |].
    + rewrite len_app, len_encode_entry. simpl snd. lia.
    + rewrite len_app, len_encode_entry. simpl snd. lia.
Qed.

Lemma int_from_little_digits (n : nat) :
  forall x, 0 <= x < 256 ^ Z.of_nat n ->
            int_from_bytes_little (little_digits n x) = x.
Proof.
  induction n as [|n IH]; intros x Hx.
  - simpl in *. lia.
  - rewrite Nat2Z.inj_succ, Z.pow_succ_r in Hx by lia.
    simpl. rewrite byte_val_of_Z_mod.
    rewrite IH by (split; [apply Z.div_pos; lia
                          | apply Z.div_lt_upper_bound; lia]).
    pose proof (Z.div_mod x 256). lia.
Qed.

Lemma length_little_digits (n : nat) (x : Z) : length (little_digits n x) = n.
Proof. revert x. induction n as [|n IH]; intros x; simpl; [|rewrite IH]; reflexivity. Qed.

(** X16.  Round trip of the status TLV format, with its edge.  Items encoded one
    after the other behind the two bytes of their total length are decoded
    as the same items, except that a last item without data is not
    yielded: the loop runs while the offset is below the declared length,
    which counts the items and not the two length bytes before them. *)
Theorem parse_status_struct_round_trip (es : list utils.entry) :
  Forall well_formed es ->
  len (encode_entries es) < 65536 ->
  utils.parse_status_struct (encode_status es) = Ok (yielded es).
Proof.
  intros Hwf Hlen. pose proof (len_nonneg (encode_entries es)) as Hn.
  unfold utils.parse_status_struct, encode_status.
  assert (Hslice : slice (little_digits 2 (len (encode_entries es))
                          ++ encode_entries es) 0 2
                   = little_digits 2 (len (encode_entries es))).
  { pose proof (slice_app_mid [] (little_digits 2 (len (encode_entries es)))
                  (encode_entries es)) as H.
    simpl app in H. exact H. }
  rewrite Hslice, int_from_little_digits by (change (256 ^ Z.of_nat 2) with 65536; lia).
  rewrite len_app.
  replace (len (little_digits 2 (len (encode_entries es)))) with 2
    by (unfold len at 1; rewrite length_little_digits; reflexivity).
  replace (2 + len (encode_entries es) =? len (encode_entries es) + 2)
    with true by (symmetry; apply Z.eqb_eq; lia).
  cbn [negb].
  pose proof (entries_encoded (len (encode_entries es)) es
                (little_digits 2 (len (encode_entries es))) []
                (Z.to_nat (len (encode_entries es))) Hwf) as He.
  rewrite app_nil_r in He.
  replace (len (little_digits 2 (len (encode_entries es)))) with 2 in He
    by (unfold len at 1; rewrite length_little_digits; reflexivity).
  apply He; lia.
Qed.

(** A state item and an empty item behind it: the second is lost. *)
Lemma parse_status_struct_round_trip_witness :
  utils.parse_status_struct (encode_status [(1, 1, [x04]); (0x40, 0, [])])
  = Ok (yielded [(1, 1, [x04]); (0x40, 0, [])]).
Proof.
  apply (parse_status_struct_round_trip [(1, 1, [x04]); (0x40, 0, [])]).
  - repeat constructor; (reflexivity || lia || discriminate).
  - vm_compute. reflexivity.
Defined.

(** *** What Status.from_bytes applies, and what it refuses *)

Lemma getitem_short (data : bytes) (i : Z) :
  len data <= i -> getitem data i = Raise IndexError.
Proof.
  intros Hi. unfold getitem. pose proof (len_nonneg data).
  replace (i <? 0) with false by (symmetry; apply Z.ltb_ge; lia).
  replace (i <? len data) with false by (symmetry; apply Z.ltb_ge; lia).
  rewrite andb_false_r. reflexivity.
Qed.

Lemma InkLevel_from_bytes_cases (entry : bytes) :
  (len entry < 3 /\ InkLevel.from_bytes entry = Raise IndexError)
  \/ (3 <= len entry
      /\ exists c v,
           getitem entry 1 = Ok c /\ getitem entry 2 = Ok v
           /\ InkLevel.from_bytes entry
              = Ok (InkLevel.Build
                      (ConsumableLevel.level (ConsumableLevel.from_int v))
                      (ConsumableLevel.status (ConsumableLevel.from_int v))
                      (InkColor.of_value c))).
Proof.
  destruct (Z.lt_ge_cases (len entry) 3) as [Hlt|Hge].
  - left. split; [exact Hlt|]. unfold InkLevel.from_bytes.
    destruct (Z.lt_ge_cases (len entry) 2) as [H2|H2].
    + rewrite (getitem_short entry 1) by lia. reflexivity.
    + destruct (getitem_in_range entry 1) as (c & Hc & _); [lia|].
      rewrite Hc, (getitem_short entry 2) by lia. reflexivity.
  - right. split; [exact Hge|].
    destruct (getitem_in_range entry 1) as (c & Hc & _); [lia|].
    destruct (getitem_in_range entry 2) as (v & Hv & _); [lia|].
    exists c, v. unfold InkLevel.from_bytes. rewrite Hc, Hv. auto.
Qed.

(** X17.  An ink field needs its three bytes: [InkLevel.from_bytes] raises
    [IndexError] on a shorter field, and on any other it answers the
    colour of the second byte with the level and status
    [ConsumableLevel.from_int] gives for the third, a level of 1 to 100
    when the status is OKAY, 0 when EMPTY and -1 otherwise. *)
Theorem InkLevel_from_bytes_field (entry : bytes) :
  (len entry < 3 -> InkLevel.from_bytes entry = Raise IndexError)
  /\ (3 <= len entry ->
      exists c v,
        getitem entry 1 = Ok c /\ getitem entry 2 = Ok v
        /\ InkLevel.from_bytes entry
           = Ok (InkLevel.Build (ConsumableLevel.level (ConsumableLevel.from_int v))
                   (ConsumableLevel.status (ConsumableLevel.from_int v))
                   (InkColor.of_value c)))
  /\ (forall l,
        InkLevel.from_bytes entry = Ok l ->
        3 <= len entry
        /\ match InkLevel.status l with
           | ConsumableStatus.OKAY => 1 <= InkLevel.level l <= 100
           | ConsumableStatus.EMPTY => InkLevel.level l = 0
           | _ => InkLevel.level l = -1
           end).
Proof.
  destruct (InkLevel_from_bytes_cases entry)
    as [[Hlt Hr]|[Hge (c & v & Hc & Hv & Heq)]].
  - split; [intros _; exact Hr|]. split; [lia|]. intros l Hl. congruence.
  - split; [lia|]. split; [intros _; eauto|].
    intros l Hl. split; [exact Hge|].
    rewrite Heq in Hl. injection Hl as <-. simpl.
    unfold ConsumableLevel.from_int.
    destruct (Z.eqb_spec v 110); [reflexivity|].
    destruct (Z.eqb_spec v 105); [reflexivity|].
    destruct (Z.ltb_spec v 0); [reflexivity|].
    destruct (Z.ltb_spec 100 v); [reflexivity|]. simpl.
    destruct (Z.eqb_spec v 0); simpl; lia.
Qed.

Lemma InkLevel_from_bytes_field_witness :
  exists c v,
    getitem [x03; x01; x32] 1 = Ok c /\ getitem [x03; x01; x32] 2 = Ok v
    /\ InkLevel.from_bytes [x03; x01; x32]
       = Ok (InkLevel.Build (ConsumableLevel.level (ConsumableLevel.from_int v))
               (ConsumableLevel.status (ConsumableLevel.from_int v))
               (InkColor.of_value c)).
Proof.
  apply (proj1 (proj2 (InkLevel_from_bytes_field [x03; x01; x32]))).
  vm_compute. discriminate.
Defined.

Lemma ink_levels_returns (windows : list bytes) :
  returns (Status.ink_levels windows) <-> Forall (fun w => 3 <= len w) windows.
Proof.
  unfold returns. induction windows as [|w ws IH]; simpl.
  - split; [constructor | eauto].
  - destruct (InkLevel_from_bytes_cases w)
      as [[Hlt ->]|[Hge (c & v & _ & _ & ->)]]; simpl.
    + split; [intros (a & Ha); discriminate|].
      intros H. inversion H; subst. lia.
    + split.
      * intros (a & Ha). constructor; [exact Hge|]. apply IH.
        destruct (Status.ink_levels ws); [eauto | discriminate].
      * intros H. inversion H as [|? ? _ Hws]; subst.
        apply IH in Hws. destruct Hws as (ls & ->). simpl. eauto.
Qed.

(** The fields the windows of an ink item cut out: all of the field size,
    but a shorter last one when the data does not divide. *)
Lemma ink_windows_long (data : bytes) (size : Z) :
  0 < size ->
  forall (budget : nat) (i : Z),
    0 <= i -> len data - i <= Z.of_nat budget ->
    Forall (fun w => 3 <= len w) (Status.ink_windows budget data size i)
    <-> (len data - i <= 0
         \/ (3 <= size
             /\ ((len data - i) mod size = 0 \/ 3 <= (len data - i) mod size))).
Proof.
  intros Hsize. induction budget as [|budget IH]; intros i Hi Hbud.
  - simpl. split; [intros _; left; lia | constructor].
  - simpl. destruct (Z.ltb_spec i (len data)) as [Hlt|Hge].
    + assert (Hw : len (slice data i (i + size)) = Z.min size (len data - i))
        by (apply len_slice; lia).
      specialize (IH (i + size) ltac:(lia) ltac:(lia)).
      split.
      * intros H. inversion H as [|? ? Hw3 Hrest]; subst.
        rewrite Hw in Hw3. apply IH in Hrest. right.
        destruct (Z.le_gt_cases (len data - i) size) as [Hle|Hgt].
        -- destruct (Z.eq_dec (len data - i) size) as [Heq|Hne].
           ++ rewrite Heq, Z.mod_same by lia. lia.
           ++ rewrite Z.mod_small by lia. lia.
        -- destruct Hrest as [Hrest|(H3 & Hmod)]; [lia|].
           replace ((len data - (i + size)) mod size)
             with ((len data - i) mod size) in Hmod
             by (replace (len data - i) with (len data - (i + size) + 1 * size)
                   by lia; apply Z.mod_add; lia).
           auto.
      * intros [Hle|(H3 & Hmod)]; [lia|].
        constructor.
        -- rewrite Hw.
           destruct (Z.le_gt_cases (len data - i) size) as [Hle|Hgt]; [|lia].
           destruct (Z.eq_dec (len data - i) size) as [Heq|Hne]; [lia|].
           rewrite Z.mod_small in Hmod by lia. lia.
        -- apply IH.
           destruct (Z.le_gt_cases (len data - i) size) as [Hle|Hgt];
             [left; lia|].
           right. split; [exact H3|].
           replace ((len data - (i + size)) mod size)
             with ((len data - i) mod size)
             by (replace (len data - i) with (len data - (i + size) + 1 * size)
                   by lia; apply Z.mod_add; lia).
           exact Hmod.
    + split; [intros _; left; lia | constructor].
Qed.

Lemma getitem_head (b : byte) (rest : bytes) :
  getitem (b :: rest) 0 = Ok (byte_val b).
Proof. exact (getitem_app_mid [] b rest). Qed.

Lemma getitem_head_returns (data : bytes) :
  returns (getitem data 0) <-> len data <> 0.
Proof.
  unfold returns. destruct data as [|b rest].
  - split; [intros (a & Ha); discriminate | intros H; contradiction].
  - rewrite getitem_head. split; [intros _; discriminate | eauto].
Qed.

(** Whether an item is applied does not depend on the fields read so
    far. *)
Lemma apply_entry_returns (st : Status.t) (e : utils.entry) :
  returns (Status.apply_entry st e) <-> entry_ok e = true.
Proof.
  destruct e as [[h pl] d]. unfold Status.apply_entry, entry_ok.
  assert (Hhead : forall (A : Type) (k : Z -> A),
            returns (let* v := getitem d 0 in Ok (k v))
            <-> negb (len d =? 0) = true).
  { intros A k. rewrite negb_true_iff, Z.eqb_neq, <- getitem_head_returns.
    unfold returns. destruct (getitem d 0); simpl; split; eauto;
      intros (a & Ha); discriminate. }
  destruct (Z.eqb_spec h 1); [apply Hhead|].
  destruct (Z.eqb_spec h 2); [apply Hhead|].
  destruct (Z.eqb_spec h 6); [apply Hhead|].
  destruct (Z.eqb_spec h 13); [apply Hhead|].
  cbn [orb].
  destruct (Z.eqb_spec h 15).
  - destruct d as [|size fields].
    { split; [intros (a & Ha); discriminate | discriminate]. }
    rewrite getitem_head. cbn [Py.bind].
    pose proof (byte_val_range size) as Hs.
    destruct (Z.eqb_spec (byte_val size) 0) as [H0|H0]; cbn [negb andb].
    { split; [intros (a & Ha); discriminate | discriminate]. }
    pose proof (ink_windows_long (size :: fields) (byte_val size) ltac:(lia)
                  (length (size :: fields)) 1 ltac:(lia)) as Hwin.
    replace (len (size :: fields) - 1) with (len fields) in Hwin
      by (unfold len; simpl length; lia).
    specialize (Hwin ltac:(unfold len; simpl length; lia)).
    pose proof (ink_levels_returns
                  (Status.ink_windows (length (size :: fields)) (size :: fields)
                     (byte_val size) 1)) as Hlev.
    rewrite Hwin in Hlev. clear Hwin.
    assert (Hbool : (len fields =? 0)
                    || (3 <=? byte_val size)
                       && ((len fields mod byte_val size =? 0)
                           || (3 <=? len fields mod byte_val size)) = true
                    <-> (len fields <= 0
                         \/ 3 <= byte_val size
                            /\ (len fields mod byte_val size = 0
                                \/ 3 <= len fields mod byte_val size))).
    { pose proof (len_nonneg fields).
      rewrite orb_true_iff, andb_true_iff, orb_true_iff, Z.eqb_eq, Z.leb_le,
        Z.eqb_eq, Z.leb_le. intuition lia. }
    rewrite Hbool, <- Hlev. unfold returns.
    destruct (Status.ink_levels _); simpl; split; eauto;
      intros (a & Ha); discriminate.
  - destruct (h =? 64); split; unfold returns; eauto.
Qed.

Lemma apply_entries_returns (es : list utils.entry) :
  forall st,
    returns (Status.apply_entries st es) <-> forallb entry_ok es = true.
Proof.
  induction es as [|e es IH]; intros st; simpl.
  - split; [reflexivity | unfold returns; eauto].
  - rewrite andb_true_iff, <- (apply_entry_returns st e).
    destruct (Status.apply_entry st e) as [st1|err]; simpl.
    + rewrite (IH st1). unfold returns. split; [|tauto].
      intros H. split; [eauto | exact H].
    + unfold returns. split; [intros (a & Ha); discriminate|].
      intros [(a & Ha) _]. discriminate.
Qed.

(** X18.  When [Status.from_bytes] returns.  It returns exactly when the length
    check passes and every item the decoder yields can be applied: the
    items of tags 0x01, 0x02, 0x06 and 0x0D have at least one byte of
    data, and an ink item (0x0F) has a field size other than zero and
    only fields of three bytes or more, a shorter last one included.  It
    raises for any other payload. *)
Theorem Status_from_bytes_returns (data : bytes) :
  (exists st, Status.from_bytes data = Ok st)
  <-> exists es,
        utils.parse_status_struct data = Ok es
        /\ forallb entry_ok es = true.
Proof.
  unfold Status.from_bytes.
  destruct (utils.parse_status_struct data) as [es|e]; simpl.
  - pose proof (apply_entries_returns es Status.initial) as Hret.
    unfold returns in Hret. split.
    + intros H. exists es. split; [reflexivity | apply Hret; exact H].
    + intros (es' & Hes & H). injection Hes as <-. apply Hret. exact H.
  - split; [intros (st & H); discriminate | intros (es & H & _); discriminate].
Qed.

(** An ink item whose field size is 2: the field has no level byte. *)
Example Status_from_bytes_short_ink :
  Status.from_bytes [x05; x00; x0f; x03; x02; x01; x32] = Raise IndexError
  /\ Status.from_bytes [x05; x00; x0f; x03; x00; x01; x32]
     = Raise Status.range_step_zero.
Proof. split; reflexivity. Qed.

(** *** The unknown tags of a status *)

Ltac unknown_tag Hk :=
  repeat match goal with
         | H : context [?h =? ?k] |- _ =>
             let E := fresh "E" in
             destruct (Z.eqb_spec h k) as [E|E];
               [exfalso; apply Hk; rewrite E; simpl; tauto|]
         end.

Lemma apply_entries_other (es : list utils.entry) (h : Z) :
  ~ In h known_tags ->
  forall st st',
    Status.apply_entries st es = Ok st' ->
    Status.other st' !! h
    = match last_data h es with
      | Some d => Some d
      | None => Status.other st !! h
      end.
Proof.
  intros Hh. induction es as [|[[h0 pl] d] es IH]; intros st st' Happ.
  - simpl in Happ. injection Happ as <-. reflexivity.
  - cbn [Status.apply_entries] in Happ.
    destruct (Status.apply_entry st (h0, pl, d)) as [st1|] eqn:He;
      [|discriminate].
    cbn [Py.bind] in Happ. rewrite (IH _ _ Happ). cbn [last_data].
    destruct (last_data h es); [reflexivity|].
    destruct (Z.eqb_spec h0 h) as [->|Hne].
    + unfold Status.apply_entry in He. unknown_tag Hh.
      injection He as <-. simpl. apply lookup_insert_eq.
    + destruct (in_dec Z.eq_dec h0 known_tags) as [Hk|Hk].
      * destruct (apply_entry_fields _ _ _ He) as (_ & _ & _ & _ & _ & _ & H7).
        rewrite (H7 Hk). reflexivity.
      * unfold Status.apply_entry in He. unknown_tag Hk.
        injection He as <-. simpl. apply lookup_insert_ne. exact Hne.
Qed.

(** X19.  The map [other] of a decoded status holds, for every tag the decoder
    does not know, the data of the last item with that tag, and nothing
    for a tag that no item carries; the six known tags never enter it. *)
Theorem Status_from_bytes_other (data : bytes) (st : Status.t) :
  Status.from_bytes data = Ok st ->
  exists es,
    utils.parse_status_struct data = Ok es
    /\ (forall h, ~ In h known_tags -> Status.other st !! h = last_data h es)
    /\ (forall h, In h known_tags -> Status.other st !! h = None).
Proof.
  unfold Status.from_bytes. intros Hst.
  destruct (utils.parse_status_struct data) as [es|] eqn:Hes; [|discriminate].
  simpl in Hst. exists es. split; [reflexivity|]. split.
  - intros h Hh. rewrite (apply_entries_other es h Hh _ _ Hst).
    destruct (last_data h es); [reflexivity|]. apply lookup_empty.
  - intros h Hh.
    assert (Hgen : forall es st0 st1,
              Status.apply_entries st0 es = Ok st1 ->
              Status.other st0 !! h = None -> Status.other st1 !! h = None).
    { clear -Hh. induction es as [|[[h0 pl] d] es IH]; intros st0 st1 Happ H0.
      - simpl in Happ. injection Happ as <-. exact H0.
      - cbn [Status.apply_entries] in Happ.
        destruct (Status.apply_entry st0 (h0, pl, d)) as [st2|] eqn:He;
          [|discriminate].
        cbn [Py.bind] in Happ. apply (IH _ _ Happ).
        destruct (in_dec Z.eq_dec h0 known_tags) as [Hk|Hk].
        + destruct (apply_entry_fields _ _ _ He) as (_ & _ & _ & _ & _ & _ & H7).
          rewrite (H7 Hk). exact H0.
        + unfold Status.apply_entry in He. unknown_tag Hk.
          injection He as <-. simpl. rewrite lookup_insert_ne; [exact H0|].
          intros ->. contradiction. }
    apply (Hgen es _ _ Hst). apply lookup_empty.
Qed.

(** Two items of the unknown tag 0x19: the second wins. *)
Lemma Status_from_bytes_other_witness :
  exists es,
    utils.parse_status_struct
      [x06; x00; x19; x01; x0a; x19; x01; x0b] = Ok es
    /\ (forall h, ~ In h known_tags ->
          Status.other
            (Status.Build PrinterState.IDLE PrinterError.NONE PaperPath.UNKNOWN
               [] (ConsumableLevel.Build (-1) ConsumableStatus.UNKNOWN)
               EmptyString {[ 0x19 := [x0b] ]}) !! h
          = last_data h es)
    /\ (forall h, In h known_tags ->
          Status.other
            (Status.Build PrinterState.IDLE PrinterError.NONE PaperPath.UNKNOWN
               [] (ConsumableLevel.Build (-1) ConsumableStatus.UNKNOWN)
               EmptyString {[ 0x19 := [x0b] ]}) !! h
          = None).
Proof.
  apply (Status_from_bytes_other [x06; x00; x19; x01; x0a; x19; x01; x0b]).
  vm_compute. reflexivity.
Defined.

(** *** The fields of a decoded status *)

Lemma getitem_head_value (d : bytes) (v : Z) :
  getitem d 0 = Ok v -> v = head_value d.
Proof.
  destruct d as [|b rest]; [discriminate|].
  rewrite getitem_head. intros Hv. injection Hv as <-. reflexivity.
Qed.

Lemma apply_entry_last (st st' : Status.t) (h pl : Z) (d : bytes) :
  Status.apply_entry st (h, pl, d) = Ok st' ->
  Status.state st'
  = (if h =? 0x01 then PrinterState.of_value (head_value d)
     else Status.state st)
  /\ Status.error st'
     = (if h =? 0x02 then PrinterError.of_value (head_value d)
        else Status.error st)
  /\ Status.source st'
     = (if h =? 0x06 then PaperPath.of_value (3 - head_value d)
        else Status.source st)
  /\ Status.maintenance_box st'
     = (if h =? 0x0D then ConsumableLevel.from_int (head_value d)
        else Status.maintenance_box st)
  /\ Status.serial st'
     = (if h =? 0x40 then str_of_bytes d else Status.serial st)
  /\ (if h =? 0x0F
      then Status.ink_levels
             (Status.ink_windows (length d) d (head_value d) 1)
           = Ok (Status.levels st')
      else Status.levels st' = Status.levels st).
Proof.
  unfold Status.apply_entry. intros Happ.
  destruct (Z.eqb_spec h 1) as [->|];
    [result_cases; apply getitem_head_value in E; subst; simpl; auto 10|].
  destruct (Z.eqb_spec h 2) as [->|];
    [result_cases; apply getitem_head_value in E; subst; simpl; auto 10|].
  destruct (Z.eqb_spec h 6) as [->|];
    [result_cases; apply getitem_head_value in E; subst; simpl; auto 10|].
  destruct (Z.eqb_spec h 13) as [->|];
    [result_cases; apply getitem_head_value in E; subst; simpl; auto 10|].
  destruct (Z.eqb_spec h 15) as [->|].
  { destruct (getitem d 0) as [size|] eqn:E; [|discriminate].
    apply getitem_head_value in E. subst size. cbn [Py.bind] in Happ.
    destruct (head_value d =? 0); [discriminate|].
    destruct (Status.ink_levels _) as [ls|] eqn:Hls; [|discriminate].
    cbn [Py.bind] in Happ. injection Happ as <-. simpl. auto 10. }
  destruct (Z.eqb_spec h 64) as [->|];
    [injection Happ as <-; simpl; auto 10|].
  injection Happ as <-. simpl. auto 10.
Qed.

Lemma last_data_cons (t h pl : Z) (d : bytes) (es : list utils.entry) :
  last_data t ((h, pl, d) :: es)
  = match last_data t es with
    | Some d' => Some d'
    | None => if h =? t then Some d else None
    end.
Proof. reflexivity. Qed.

Lemma apply_entries_last (es : list utils.entry) :
  forall st st',
    Status.apply_entries st es = Ok st' ->
    Status.state st'
    = match last_data 0x01 es with
      | Some d => PrinterState.of_value (head_value d)
      | None => Status.state st
      end
    /\ Status.error st'
       = match last_data 0x02 es with
         | Some d => PrinterError.of_value (head_value d)
         | None => Status.error st
         end
    /\ Status.source st'
       = match last_data 0x06 es with
         | Some d => PaperPath.of_value (3 - head_value d)
         | None => Status.source st
         end
    /\ Status.maintenance_box st'
       = match last_data 0x0D es with
         | Some d => ConsumableLevel.from_int (head_value d)
         | None => Status.maintenance_box st
         end
    /\ Status.serial st'
       = match last_data 0x40 es with
         | Some d => str_of_bytes d
         | None => Status.serial st
         end
    /\ match last_data 0x0F es with
       | Some d =>
           Status.ink_levels
             (Status.ink_windows (length d) d (head_value d) 1)
           = Ok (Status.levels st')
       | None => Status.levels st' = Status.levels st
       end.
Proof.
  induction es as [|[[h pl] d] es IH]; intros st st' Happ.
  - simpl in Happ. injection Happ as <-. simpl. auto 10.
  - cbn [Status.apply_entries] in Happ.
    destruct (Status.apply_entry st (h, pl, d)) as [st1|] eqn:He;
      [|discriminate].
    cbn [Py.bind] in Happ.
    destruct (IH _ _ Happ) as (B1 & B2 & B3 & B4 & B5 & B6).
    destruct (apply_entry_last _ _ _ _ _ He) as (A1 & A2 & A3 & A4 & A5 & A6).
    rewrite !last_data_cons.
    repeat split.
    + rewrite B1. destruct (last_data 1 es); [reflexivity|].
      rewrite A1. destruct (h =? 1); reflexivity.
    + rewrite B2. destruct (last_data 2 es); [reflexivity|].
      rewrite A2. destruct (h =? 2); reflexivity.
    + rewrite B3. destruct (last_data 6 es); [reflexivity|].
      rewrite A3. destruct (h =? 6); reflexivity.
    + rewrite B4. destruct (last_data 13 es); [reflexivity|].
      rewrite A4. destruct (h =? 13); reflexivity.
    + rewrite B5. destruct (last_data 64 es); [reflexivity|].
      rewrite A5. destruct (h =? 64); reflexivity.
    + destruct (last_data 15 es); [exact B6|].
      destruct (h =? 15); [|congruence].
      rewrite B6. exact A6.
Qed.

(** X20.  The fields of a decoded status.  Each field is read from the last
    item that carries its tag and has its default when no item does: the
    state, the error, the paper source (3 less the byte) and the
    maintenance box from the first byte of the data of tags 0x01, 0x02,
    0x06 and 0x0D; the serial, for tag 0x40, is the text Python prints for
    the bytes of the data, [b'...'] with its quotes, not the decoded
    text; the levels, for tag 0x0F, are the ink fields of the data, cut
    by the field size in its first byte. *)
Theorem Status_from_bytes_fields (data : bytes) (st : Status.t) :
  Status.from_bytes data = Ok st ->
  exists es,
    utils.parse_status_struct data = Ok es
    /\ Status.state st
       = match last_data 0x01 es with
         | Some d => PrinterState.of_value (head_value d)
         | None => PrinterState.IDLE
         end
    /\ Status.error st
       = match last_data 0x02 es with
         | Some d => PrinterError.of_value (head_value d)
         | None => PrinterError.NONE
         end
    /\ Status.source st
       = match last_data 0x06 es with
         | Some d => PaperPath.of_value (3 - head_value d)
         | None => PaperPath.UNKNOWN
         end
    /\ Status.maintenance_box st
       = match last_data 0x0D es with
         | Some d => ConsumableLevel.from_int (head_value d)
         | None => ConsumableLevel.Build (-1) ConsumableStatus.UNKNOWN
         end
    /\ Status.serial st
       = match last_data 0x40 es with
         | Some d => str_of_bytes d
         | None => EmptyString
         end
    /\ match last_data 0x0F es with
       | Some d =>
           Status.ink_levels
             (Status.ink_windows (length d) d (head_value d) 1)
           = Ok (Status.levels st)
       | None => Status.levels st = []
       end.
Proof.
  unfold Status.from_bytes. intros Hst.
  destruct (utils.parse_status_struct data) as [es|] eqn:Hes; [|discriminate].
  simpl in Hst. exists es. split; [reflexivity|].
  exact (apply_entries_last es _ _ Hst).
Qed.

(** A status with two state items, a serial and one ink field. *)
Lemma Status_from_bytes_fields_witness :
  exists es,
    utils.parse_status_struct
      [x10; x00; x01; x01; x02; x01; x01; x04; x40; x02; x41; x42;
       x0f; x04; x03; x00; x01; x32] = Ok es
    /\ PrinterState.IDLE
       = match last_data 0x01 es with
         | Some d => PrinterState.of_value (head_value d)
         | None => PrinterState.IDLE
         end
    /\ PrinterError.NONE
       = match last_data 0x02 es with
         | Some d => PrinterError.of_value (head_value d)
         | None => PrinterError.NONE
         end
    /\ PaperPath.UNKNOWN
       = match last_data 0x06 es with
         | Some d => PaperPath.of_value (3 - head_value d)
         | None => PaperPath.UNKNOWN
         end
    /\ ConsumableLevel.Build (-1) ConsumableStatus.UNKNOWN
       = match last_data 0x0D es with
         | Some d => ConsumableLevel.from_int (head_value d)
         | None => ConsumableLevel.Build (-1) ConsumableStatus.UNKNOWN
         end
    /\ "b'AB'"%string
       = match last_data 0x40 es with
         | Some d => str_of_bytes d
         | None => EmptyString
         end
    /\ match last_data 0x0F es with
       | Some d =>
           Status.ink_levels
             (Status.ink_windows (length d) d (head_value d) 1)
           = Ok [InkLevel.Build 50 ConsumableStatus.OKAY InkColor.CYAN]
       | None => [InkLevel.Build 50 ConsumableStatus.OKAY InkColor.CYAN] = []
       end.
Proof.
  apply (Status_from_bytes_fields
           [x10; x00; x01; x01; x02; x01; x01; x04; x40; x02; x41; x42;
            x0f; x04; x03; x00; x01; x32]
           (Status.Build PrinterState.IDLE PrinterError.NONE PaperPath.UNKNOWN
              [InkLevel.Build 50 ConsumableStatus.OKAY InkColor.CYAN]
              (ConsumableLevel.Build (-1) ConsumableStatus.UNKNOWN)
              "b'AB'" ∅)).
  vm_compute. reflexivity.
Defined.

(** *** printer.Printer: the queries *)

Lemma startswith_app (p rest : bytes) : startswith (p ++ rest) p = true.
Proof.
  induction p as [|b p IH]; simpl; [reflexivity|].
  rewrite Z.eqb_refl. exact IH.
Qed.

Lemma byte_val_inj (a b : byte) : byte_val a = byte_val b -> a = b.
Proof.
  unfold byte_val. intros H. apply N2Z.inj in H.
  apply (f_equal Byte.of_N) in H. rewrite !Byte.of_to_N in H.
  injection H as ->. reflexivity.
Qed.

Lemma startswith_prefix (data p : bytes) :
  startswith data p = true -> exists rest, data = p ++ rest.
Proof.
  revert data. induction p as [|b p IH]; intros data H.
  - exists data. reflexivity.
  - destruct data as [|d data]; [discriminate|]. simpl in H.
    apply andb_prop in H. destruct H as [Hb Hp].
    apply Z.eqb_eq, byte_val_inj in Hb. subst d.
    destruct (IH _ Hp) as (rest & ->). exists rest. reflexivity.
Qed.

Lemma slice_from_app {A : Type} (p rest : list A) :
  slice_from (p ++ rest) (len p) = rest.
Proof.
  unfold len. rewrite slice_from_drop by (rewrite length_app; lia).
  apply drop_app_length.
Qed.

Section GetStatus.
Context {B : Type} `{ControlBackend B}.

Lemma send_command_status (b : B) :
  printer.send_command (bytes_of_string "st") [x01] b = send status_request b.
Proof. reflexivity. Qed.

(** X21.  [get_status] sends the backend one frame, [st 01 00 01], whatever
    comes back.  An answer that starts with [@BDC ST2\r\n] is decoded from
    the byte after that header on; any other answer raises [ValueError]
    with the answer and the header in its message; what the backend raises
    is raised. *)
Theorem get_status_exchange (b : B) :
  map byte_val status_request = [0x73; 0x74; 1; 0; 1]
  /\ snd (printer.get_status b) = snd (send status_request b)
  /\ (forall payload b',
        send status_request b = (Ok (printer.status_expected ++ payload), b') ->
        printer.get_status b = (Status.from_bytes payload, b'))
  /\ (forall response b',
        send status_request b = (Ok response, b') ->
        (forall payload, response <> printer.status_expected ++ payload) ->
        printer.get_status b
        = (Raise (ValueError
                    ("Unknown response " ++ str_of_bytes response
                     ++ " for command " ++ str_of_bytes printer.status_expected)),
           b'))
  /\ (forall e b',
        send status_request b = (Raise e, b') ->
        printer.get_status b = (Raise e, b')).
Proof.
  split; [reflexivity|].
  unfold printer.get_status. cbv zeta. rewrite send_command_status.
  destruct (send status_request b) as [[response|e] b1] eqn:Hsend.
  - split.
    { destruct (negb _); reflexivity. }
    split; [|split].
    + intros payload b' Heq.
      assert (Hr : response = printer.status_expected ++ payload) by congruence.
      assert (Hb : b1 = b') by congruence. subst response b1.
      rewrite startswith_app. cbn [negb]. rewrite slice_from_app. reflexivity.
    + intros r b' Heq Hno. injection Heq as <- <-.
      destruct (startswith response printer.status_expected) eqn:Hsw.
      * destruct (startswith_prefix _ _ Hsw) as (rest & ->).
        exfalso. exact (Hno rest eq_refl).
      * reflexivity.
    + intros e b' Heq. discriminate.
  - split; [reflexivity|]. split; [|split].
    + intros payload b' Heq. discriminate.
    + intros r b' Heq. discriminate.
    + intros e' b' Heq. injection Heq as <- <-. reflexivity.
Qed.

End GetStatus.

(** A backend that answers the status of the decoder's witness. *)
Lemma get_status_exchange_witness :
  printer.get_status
    [Ok (printer.status_expected ++ [x03; x00; x01; x01; x02])]
  = (Status.from_bytes [x03; x00; x01; x01; x02], []).
Proof.
  apply (proj1 (proj2 (proj2 (get_status_exchange
           [Ok (printer.status_expected ++ [x03; x00; x01; x01; x02])])))).
  reflexivity.
Defined.

(** *** int(data, base=16) *)

Lemma hex_value_cases (b : byte) :
  (48 <= byte_val b <= 57 /\ hex_value b = Some (byte_val b - 48))
  \/ (97 <= byte_val b <= 102 /\ hex_value b = Some (byte_val b - 87))
  \/ (65 <= byte_val b <= 70 /\ hex_value b = Some (byte_val b - 55))
  \/ ((byte_val b < 48 \/ 57 < byte_val b < 65 \/ 70 < byte_val b < 97
       \/ 102 < byte_val b)
      /\ hex_value b = None).
Proof.
  unfold hex_value. cbv zeta.
  destruct (Z.leb_spec 48 (byte_val b)); destruct (Z.leb_spec (byte_val b) 57);
    cbn [andb]; try (left; split; [lia | reflexivity]);
    destruct (Z.leb_spec 97 (byte_val b));
    destruct (Z.leb_spec (byte_val b) 102);
    cbn [andb]; try (right; left; split; [lia | reflexivity]);
    destruct (Z.leb_spec 65 (byte_val b));
    destruct (Z.leb_spec (byte_val b) 70);
    cbn [andb]; try (right; right; left; split; [lia | reflexivity]);
    right; right; right; split; (lia || reflexivity).
Qed.

Lemma hex_value_range (b : byte) (d : Z) :
  hex_value b = Some d -> 0 <= d < 16.
Proof.
  destruct (hex_value_cases b) as [[Hr ->]|[[Hr ->]|[[Hr ->]|[Hr ->]]]];
    intros H; try discriminate; injection H as <-; lia.
Qed.

Lemma hex_digits_bound (data : bytes) :
  forall acc u v rest,
    0 <= acc ->
    hex_digits acc u data = Some (v, rest) ->
    0 <= v < (acc + 1) * 16 ^ len data.
Proof.
  induction data as [|b data IH]; intros acc u v rest Hacc; simpl.
  - destruct u; [discriminate|]. intros H. injection H as <- _.
    change (16 ^ len []) with 1. lia.
  - assert (Hpow : 16 ^ len (b :: data) = 16 * 16 ^ len data).
    { unfold len. simpl length. rewrite Nat2Z.inj_succ, Z.pow_succ_r by lia.
      reflexivity. }
    assert (Hpos : 0 < 16 ^ len data) by (apply Z.pow_pos_nonneg; [lia | apply len_nonneg]).
    rewrite Hpow.
    destruct (hex_value b) as [d|] eqn:Hd.
    + apply hex_value_range in Hd. intros H.
      apply IH in H; [|lia]. nia.
    + destruct (byte_val b =? underscore).
      * destruct u; [discriminate|]. intros H. apply IH in H; [|lia]. nia.
      * destruct u; [discriminate|]. intros H. injection H as <- _. nia.
Qed.

Lemma len_lstrip (data : bytes) : len (lstrip data) <= len data.
Proof.
  induction data as [|b data IH]; simpl; [lia|].
  destruct (is_space b); [|lia]. unfold len in *. simpl length. lia.
Qed.

(** What [int] has read when it returns: a sign and a run of digits that
    is shorter than the literal when the sign was written. *)
Lemma int_base16_digits (data : bytes) (v : Z) :
  int_base16 data = Ok v ->
  exists sign s v' rest,
    hex_digits 0 false s = Some (v', rest)
    /\ v = sign * v'
    /\ 0 < len s
    /\ ((sign = 1 /\ len s <= len data) \/ (sign = -1 /\ len s < len data)).
Proof.
  unfold int_base16. pose proof (len_lstrip data) as Hstrip.
  set (s0 := lstrip data) in *. clearbody s0.
  assert (Hsign : exists sign s1,
            (match s0 with
             | b :: rest =>
                 if byte_val b =? 43 then (1, rest)
                 else if byte_val b =? 45 then (-1, rest) else (1, s0)
             | [] => (1, s0)
             end) = (sign, s1)
            /\ ((sign = 1 /\ len s1 <= len data)
                \/ (sign = -1 /\ len s1 < len data))).
  { destruct s0 as [|b rest]; [exists 1, []; split; [reflexivity|left; auto]|].
    assert (len rest < len data) by (unfold len in *; simpl length in *; lia).
    destruct (byte_val b =? 43); [exists 1, rest; split; [reflexivity|left; lia]|].
    destruct (byte_val b =? 45);
      [exists (-1), rest; split; [reflexivity|right; lia]|].
    exists 1, (b :: rest). split; [reflexivity|left; auto]. }
  destruct Hsign as (sign & s1 & -> & Hs1).
  set (s2 := match s1 with
             | b0 :: b1 :: rest =>
                 if (byte_val b0 =? 48)
                    && ((byte_val b1 =? 120) || (byte_val b1 =? 88))
                 then match rest with
                      | u :: rest' =>
                          if byte_val u =? underscore then rest' else rest
                      | [] => rest
                      end
                 else s1
             | _ => s1
             end).
  assert (Hs2 : len s2 <= len s1).
  { subst s2. destruct s1 as [|b0 [|b1 rest]]; try lia.
    destruct (_ && _); [|lia].
    destruct rest as [|u rest']; [unfold len; simpl length; lia|].
    destruct (byte_val u =? underscore); unfold len; simpl length; lia. }
  clearbody s2.
  destruct s2 as [|b r]; [discriminate|].
  destruct (hex_value b); [|discriminate].
  destruct (hex_digits 0 false (b :: r)) as [[v' rest]|] eqn:Hd; [|discriminate].
  destruct (lstrip rest); [|discriminate].
  intros Hv. injection Hv as <-.
  exists sign, (b :: r), v', rest. split; [exact Hd|]. split; [reflexivity|].
  split; [unfold len; simpl length; lia|].
  destruct Hs1 as [[-> Hl]|[-> Hl]]; [left | right]; split; (reflexivity || lia).
Qed.

Lemma int_base16_bound (data : bytes) (v : Z) (n : Z) :
  int_base16 data = Ok v -> len data <= n ->
  - 16 ^ (n - 1) < v < 16 ^ n.
Proof.
  intros Hv Hn.
  destruct (int_base16_digits data v Hv)
    as (sign & s & v' & rest & Hd & -> & Hs0 & Hs).
  apply hex_digits_bound in Hd; [|lia].
  destruct Hs as [[-> Hl]|[-> Hl]].
  - assert (16 ^ len s <= 16 ^ n) by (apply Z.pow_le_mono_r; lia).
    assert (0 < 16 ^ (n - 1)) by (apply Z.pow_pos_nonneg; lia).
    lia.
  - assert (16 ^ len s <= 16 ^ (n - 1)) by (apply Z.pow_le_mono_r; lia).
    assert (0 < 16 ^ n) by (apply Z.pow_pos_nonneg; lia).
    lia.
Qed.

(** Two digits of base 16 read as the byte they write. *)
Lemma int_base16_pair (h l : byte) (a b : Z) :
  hex_value h = Some a -> hex_value l = Some b ->
  int_base16 [h; l] = Ok (16 * a + b).
Proof.
  intros Hh Hl. unfold int_base16, lstrip, is_space.
  assert (Hhv : (48 <= byte_val h <= 57) \/ (97 <= byte_val h <= 102)
                \/ (65 <= byte_val h <= 70)).
  { destruct (hex_value_cases h) as [[Hr _]|[[Hr _]|[[Hr _]|[_ Hn]]]];
      try lia. congruence. }
  assert (Hlv : (48 <= byte_val l <= 57) \/ (97 <= byte_val l <= 102)
                \/ (65 <= byte_val l <= 70)).
  { destruct (hex_value_cases l) as [[Hr _]|[[Hr _]|[[Hr _]|[_ Hn]]]];
      try lia. congruence. }
  cbv zeta.
  replace (byte_val h =? 32) with false by (symmetry; apply Z.eqb_neq; lia).
  replace ((9 <=? byte_val h) && (byte_val h <=? 13)) with false
    by (symmetry; apply andb_false_iff; right; apply Z.leb_gt; lia).
  cbn [orb].
  replace (byte_val h =? 43) with false by (symmetry; apply Z.eqb_neq; lia).
  replace (byte_val h =? 45) with false by (symmetry; apply Z.eqb_neq; lia).
  replace (byte_val l =? 120) with false by (symmetry; apply Z.eqb_neq; lia).
  replace (byte_val l =? 88) with false by (symmetry; apply Z.eqb_neq; lia).
  rewrite andb_false_r.
  rewrite Hh. cbn [hex_digits]. rewrite Hh, Hl. cbn [lstrip].
  f_equal. lia.
Qed.

(** *** printer.Printer: reading and writing the EEPROM *)

Lemma factory_frame_fits (model payload code : bytes) (a : Z) :
  printer.action_code a = Ok code -> length code = 3%nat ->
  len model + 3 + len payload < 65536 ->
  printer.factory_frame model a payload
  = Ok (factory_request model code payload).
Proof.
  intros Hcode Hlen Hfit. unfold printer.factory_frame, printer.command_frame.
  rewrite Hcode. cbn [Py.bind].
  assert (Hl : len (model ++ code ++ payload) = len model + 3 + len payload).
  { rewrite !len_app. unfold len at 2. rewrite Hlen. lia. }
  rewrite to_bytes_little_fits.
  - rewrite Hl. reflexivity.
  - rewrite Hl. pose proof (len_nonneg model). pose proof (len_nonneg payload).
    change (256 ^ Z.of_nat 2) with 65536. lia.
Qed.

Lemma little_digits_2 (x : Z) :
  0 <= x < 65536 -> map byte_val (little_digits 2 x) = [x mod 256; x / 256].
Proof.
  intros Hx. simpl. rewrite !byte_val_of_Z_mod.
  rewrite (Z.mod_small (x / 256))
    by (split; [apply Z.div_pos; lia | apply Z.div_lt_upper_bound; lia]).
  reflexivity.
Qed.

Lemma to_bytes_little_cases (x : Z) (n : nat) :
  (0 <= x < 256 ^ Z.of_nat n /\ to_bytes_little x n = Ok (little_digits n x))
  \/ (~ 0 <= x < 256 ^ Z.of_nat n /\ to_bytes_little x n = Raise OverflowError).
Proof.
  unfold to_bytes_little.
  destruct (Z.leb_spec 0 x), (Z.ltb_spec x (256 ^ Z.of_nat n)); cbn [andb];
    first [left; split; [lia | reflexivity] | right; split; [lia | reflexivity]].
Qed.

Section ReadEeprom.
Context {B : Type} `{ControlBackend B}.

Lemma read_eeprom_value (device : Device) (address v : Z) (b b' : B) :
  printer.read_eeprom device address b = (Ok v, b') -> -15 <= v <= 255.
Proof.
  unfold printer.read_eeprom.
  destruct (to_bytes_little address 2) as [a|e]; [|discriminate].
  destruct (printer.send_factory_command _ _ _ _) as [[response|e] b1];
    [|discriminate].
  destruct (negb _); [discriminate|].
  intros Hv. assert (Hi : int_base16 (slice response 16 18) = Ok v) by congruence.
  assert (Hlen : len (slice response 16 18) <= 2).
  { unfold slice, slice_bound, len. rewrite length_take.
    change (18 <? 0) with false. change (16 <? 0) with false. cbv iota. lia. }
  pose proof (int_base16_bound _ _ 2 Hi Hlen) as Hb.
  change (16 ^ (2 - 1)) with 16 in Hb. change (16 ^ 2) with 256 in Hb. lia.
Qed.

(** X22.  [read_eeprom].  An address outside 0..65535 raises [OverflowError]
    and reaches no backend.  Any other address sends one frame: [||], the
    length, the model, the action code [41 BE A0] and the address, little
    endian.  When the answer starts with [@BDC PS\r\n] and carries two
    digits of base 16 at offsets 16 and 17, the value returned is the byte
    they write.  Whatever the answer, a value returned lies between -15
    and 255: [int] accepts a sign, so the result need not be a byte. *)
Theorem read_eeprom_exchange (device : Device) (address : Z) (b : B) :
  len (model device) + 5 < 65536 ->
  (~ 0 <= address < 65536 ->
   printer.read_eeprom device address b = (Raise OverflowError, b))
  /\ (0 <= address < 65536 ->
      map byte_val (read_request device address)
      = [0x7c; 0x7c; (len (model device) + 5) mod 256;
         (len (model device) + 5) / 256]
        ++ map byte_val (model device)
        ++ [0x41; 0xBE; 0xA0; address mod 256; address / 256]
      /\ snd (printer.read_eeprom device address b)
         = snd (send (read_request device address) b)
      /\ (forall pre h l rest b' x y,
            send (read_request device address) b
            = (Ok (printer.eeprom_expected ++ pre ++ [h; l] ++ rest), b') ->
            length pre = 7%nat ->
            hex_value h = Some x -> hex_value l = Some y ->
            printer.read_eeprom device address b = (Ok (16 * x + y), b')))
  /\ (forall v b',
        printer.read_eeprom device address b = (Ok v, b') -> -15 <= v <= 255).
Proof.
  intros Hmodel. pose proof (len_nonneg (model device)) as Hm.
  split; [|split]; [| |intros v b'; apply read_eeprom_value].
  - intros Hout. unfold printer.read_eeprom.
    destruct (to_bytes_little_cases address 2) as [[Hin _]|[_ ->]];
      [|reflexivity].
    change (256 ^ Z.of_nat 2) with 65536 in Hin. contradiction.
  - intros Hin.
    assert (Hframe : printer.factory_frame (model device) 0x41
                       (little_digits 2 address)
                     = Ok (read_request device address)).
    { apply factory_frame_fits; [reflexivity | reflexivity |].
      unfold len at 2. rewrite length_little_digits. lia. }
    split.
    { unfold read_request, factory_request.
      replace (len (little_digits 2 address)) with 2
        by (unfold len; rewrite length_little_digits; reflexivity).
      replace (len (model device) + 3 + 2) with (len (model device) + 5) by lia.
      rewrite !map_app, !little_digits_2 by lia.
      reflexivity. }
    unfold printer.read_eeprom.
    destruct (to_bytes_little_cases address 2) as [[_ ->]|[Hout _]];
      [|change (256 ^ Z.of_nat 2) with 65536 in Hout; contradiction].
    unfold printer.send_factory_command. rewrite Hframe.
    destruct (send (read_request device address) b) as [[response|e] b1].
    + split; [destruct (negb _); reflexivity|].
      intros pre h l rest b' x y Heq Hpre Hx Hy.
      assert (Hr : response
                   = printer.eeprom_expected ++ pre ++ [h; l] ++ rest)
        by congruence.
      assert (Hb : b1 = b') by congruence. subst response b1.
      rewrite startswith_app. cbn [negb].
      replace (slice (printer.eeprom_expected ++ pre ++ [h; l] ++ rest) 16 18)
        with [h; l].
      * rewrite (int_base16_pair h l x y Hx Hy). reflexivity.
      * pose proof (slice_app_mid (printer.eeprom_expected ++ pre) [h; l] rest)
          as Hs.
        rewrite <- !app_assoc in Hs.
        replace (len (printer.eeprom_expected ++ pre)) with 16 in Hs
          by (rewrite len_app; unfold len; rewrite Hpre; reflexivity).
        symmetry. exact Hs.
    + split; [reflexivity|]. intros pre h l rest b' x y Heq. discriminate.
Qed.

End ReadEeprom.

(** A device that answers [EE:0010A5;]: the byte read is 0xA5. *)
Lemma read_eeprom_exchange_witness :
  printer.read_eeprom
    {| model := [x4c; x4a]; key := []; counters := []; reset := [] |} 0x10
    [Ok (printer.eeprom_expected ++ bytes_of_string "EE:0010"
         ++ [x41; x35] ++ bytes_of_string ";")]
  = (Ok (16 * 10 + 5), []).
Proof.
  destruct (read_eeprom_exchange
              {| model := [x4c; x4a]; key := []; counters := []; reset := [] |}
              0x10
              [Ok (printer.eeprom_expected ++ bytes_of_string "EE:0010"
                   ++ [x41; x35] ++ bytes_of_string ";")])
    as (_ & Hin & _); [vm_compute; reflexivity|].
  destruct Hin as (_ & _ & Hval); [lia|].
  apply (Hval (bytes_of_string "EE:0010") x41 x35 (bytes_of_string ";") []
           10 5); reflexivity.
Defined.

(** A signed answer: [int] reads [-f] as -15, and [read_eeprom_multiple]
    cannot make a byte of it. *)
Example read_eeprom_negative :
  let device := {| model := [x4c; x4a]; key := []; counters := [];
                   reset := [] |} in
  let answer := Ok (printer.eeprom_expected ++ bytes_of_string "EE:0010-f;") in
  fst (printer.read_eeprom device 0x10 [answer]) = Ok (-15)
  /\ fst (printer.read_eeprom_multiple device [0x10] [answer])
     = Raise (ValueError "bytes must be in range(0, 256)").
Proof. vm_compute. split; reflexivity. Qed.

Section WriteEeprom.
Context {B : Type} `{ControlBackend B}.

(** X23.  [write_eeprom].  With an address in 0..65535 and a value in 0..255 it
    sends one frame and answers what the backend answers: [||], the
    length, the model, the action code [42 BD 21], the address little
    endian, the value and the key of the device.  With an address or a
    value out of range it raises [OverflowError] and reaches no backend. *)
Theorem write_eeprom_exchange (device : Device) (address value : Z) (b : B) :
  len (model device) + len (key device) + 6 < 65536 ->
  (0 <= address < 65536 -> 0 <= value < 256 ->
   printer.write_eeprom device address value b
   = send (write_request device address value) b
   /\ map byte_val (write_request device address value)
      = [0x7c; 0x7c; (len (model device) + len (key device) + 6) mod 256;
         (len (model device) + len (key device) + 6) / 256]
        ++ map byte_val (model device)
        ++ [0x42; 0xBD; 0x21; address mod 256; address / 256; value]
        ++ map byte_val (key device))
  /\ (~ (0 <= address < 65536 /\ 0 <= value < 256) ->
      printer.write_eeprom device address value b = (Raise OverflowError, b)).
Proof.
  intros Hfit. pose proof (len_nonneg (model device)) as Hm.
  pose proof (len_nonneg (key device)) as Hk.
  unfold printer.write_eeprom, printer.write_eeprom_frame.
  destruct (to_bytes_little_cases address 2) as [[Ha ->]|[Ha ->]];
    change (256 ^ Z.of_nat 2) with 65536 in Ha; cbn [Py.bind];
    [|split; [intros; contradiction | reflexivity]].
  destruct (to_bytes_little_cases value 1) as [[Hv ->]|[Hv ->]];
    change (256 ^ Z.of_nat 1) with 256 in Hv; cbn [Py.bind];
    [|split; [intros; contradiction | reflexivity]].
  split; [|intros Hn; exfalso; apply Hn; auto].
  intros _ _.
  assert (Hpl : len (little_digits 2 address ++ little_digits 1 value
                     ++ key device) = 3 + len (key device)).
  { rewrite !len_app. unfold len at 1 2. rewrite !length_little_digits. lia. }
  rewrite (factory_frame_fits _ _ [x42; xbd; x21]);
    [|reflexivity|reflexivity|rewrite Hpl; lia].
  split; [reflexivity|].
  unfold write_request, factory_request. rewrite Hpl.
  rewrite !map_app, !little_digits_2 by lia.
  replace (len (model device) + 3 + (3 + len (key device)))
    with (len (model device) + len (key device) + 6) by lia.
  cbn [map little_digits app]. rewrite byte_val_of_Z by lia. reflexivity.
Qed.

End WriteEeprom.

Lemma write_eeprom_exchange_witness :
  printer.sent
    (snd (printer.write_eeprom (B := printer.Logged (list (result bytes)))
            {| model := [x4c]; key := [x6b]; counters := []; reset := [] |}
            0x10 0
            {| printer.inner := [Ok []]; printer.sent := [] |}))
  = [write_request
       {| model := [x4c]; key := [x6b]; counters := []; reset := [] |} 0x10 0].
Proof.
  rewrite (proj1 (proj1 (write_eeprom_exchange
                           (B := printer.Logged (list (result bytes)))
             {| model := [x4c]; key := [x6b]; counters := []; reset := [] |}
             0x10 0 {| printer.inner := [Ok []]; printer.sent := [] |}
             ltac:(vm_compute; reflexivity))
             ltac:(lia) ltac:(lia))).
  reflexivity.
Defined.

(** *** printer.Printer: the waste counters *)

Lemma bytes_of_ints_length (vs : list Z) (bs : bytes) :
  bytes_of_ints vs = Ok bs -> length bs = length vs.
Proof.
  revert bs. induction vs as [|v vs IH]; intros bs; simpl.
  - intros H. injection H as <-. reflexivity.
  - destruct (_ && _); [|discriminate].
    destruct (bytes_of_ints vs) as [r|]; [|discriminate]. simpl.
    intros H. injection H as <-. simpl. rewrite (IH r eq_refl). reflexivity.
Qed.

Lemma int_from_bytes_little_bound (bs : bytes) :
  0 <= int_from_bytes_little bs < 256 ^ len bs.
Proof.
  induction bs as [|b bs IH]; simpl.
  - change (256 ^ len []) with 1. lia.
  - replace (len (b :: bs)) with (Z.succ (len bs))
      by (unfold len; simpl length; lia).
    rewrite Z.pow_succ_r by apply len_nonneg.
    pose proof (byte_val_range b). lia.
Qed.

Section Waste.
Context {B : Type} `{ControlBackend B}.

Lemma factory_frame_request (model payload fr : bytes) (a : Z) (code : bytes) :
  printer.action_code a = Ok code -> length code = 3%nat ->
  printer.factory_frame model a payload = Ok fr ->
  fr = factory_request model code payload.
Proof.
  intros Hcode Hlen. unfold printer.factory_frame, printer.command_frame.
  rewrite Hcode. cbn [Py.bind].
  assert (Hl : len (model ++ code ++ payload) = len model + 3 + len payload).
  { rewrite !len_app. unfold len at 2. rewrite Hlen. lia. }
  destruct (to_bytes_little_cases (len (model ++ code ++ payload)) 2)
    as [[_ ->]|[_ ->]]; [|discriminate].
  cbn [Py.bind]. intros Hfr. injection Hfr as <-. rewrite Hl. reflexivity.
Qed.

Lemma read_eeprom_logged (device : Device) (address v : Z)
    (s s' : printer.Logged B) :
  printer.read_eeprom device address s = (Ok v, s') ->
  printer.sent s' = printer.sent s ++ [read_request device address].
Proof.
  unfold printer.read_eeprom.
  destruct (to_bytes_little_cases address 2) as [[_ ->]|[_ ->]];
    [|discriminate].
  unfold printer.send_factory_command.
  destruct (printer.factory_frame (model device) 65 (little_digits 2 address))
    as [fr|e] eqn:Hfr; [|discriminate].
  apply (factory_frame_request _ _ _ _ [x41; xbe; xa0]) in Hfr;
    [|reflexivity|reflexivity].
  subst fr. fold (read_request device address).
  cbn [send printer.Logged_backend].
  destruct (send (read_request device address) (printer.inner s))
    as [[response|e] b1]; [|discriminate].
  destruct (negb _); [discriminate|].
  intros Hs. injection Hs as _ <-. reflexivity.
Qed.

Lemma read_eeprom_each_logged (device : Device) (addresses : list Z) :
  forall (s s' : printer.Logged B) (vs : list Z),
    printer.read_eeprom_each device addresses s = (Ok vs, s') ->
    length vs = length addresses
    /\ printer.sent s'
       = printer.sent s ++ map (read_request device) addresses.
Proof.
  induction addresses as [|a rest IH]; intros s s' vs; simpl.
  - intros Hs. injection Hs as <- <-. rewrite app_nil_r. auto.
  - destruct (printer.read_eeprom device a s) as [[v|e] s1] eqn:Hr;
      [|discriminate].
    destruct (printer.read_eeprom_each device rest s1) as [[vs1|e] s2] eqn:Hrest;
      [|discriminate].
    intros Hs. injection Hs as <- <-.
    destruct (IH _ _ _ Hrest) as [Hlen Hsent].
    rewrite Hsent, (read_eeprom_logged _ _ _ _ _ Hr), <- app_assoc.
    simpl. auto.
Qed.


End Waste.


(** *** utils.parse_identifier *)

Lemma split_cons (sep : ascii) (s : string) :
  exists hd tl, split sep s = hd :: tl.
Proof.
  destruct s as [|c rest]; simpl; [eauto|].
  destruct (Ascii.eqb c sep); [eauto|].
  destruct (split sep rest); eauto.
Qed.

Lemma length_split (sep : ascii) (s : string) :
  length (split sep s) = S (occurrences sep s).
Proof.
  induction s as [|c rest IH]; simpl; [reflexivity|].
  destruct (Ascii.eqb c sep); simpl; [rewrite IH; reflexivity|].
  destruct (split sep rest) as [|hd tl]; simpl in *; [discriminate IH | exact IH].
Qed.

Lemma split_app (sep : ascii) (f rest : string) :
  Forall (fun c => c <> sep) (list_ascii_of_string f) ->
  split sep (f ++ String sep rest) = f :: split sep rest.
Proof.
  induction f as [|c f IH]; simpl; intros Hf.
  - rewrite Ascii.eqb_refl. reflexivity.
  - inversion Hf as [|? ? Hc Hrest]; subst.
    apply Ascii.eqb_neq in Hc. rewrite Hc, (IH Hrest). reflexivity.
Qed.

Lemma split_none (sep : ascii) (f : string) :
  Forall (fun c => c <> sep) (list_ascii_of_string f) ->
  split sep f = [f].
Proof.
  induction f as [|c f IH]; simpl; intros Hf; [reflexivity|].
  inversion Hf as [|? ? Hc Hrest]; subst.
  apply Ascii.eqb_neq in Hc. rewrite Hc, (IH Hrest). reflexivity.
Qed.

Lemma list_ascii_app (a b : string) :
  list_ascii_of_string (a ++ b) = list_ascii_of_string a ++ list_ascii_of_string b.
Proof. induction a as [|c a IH]; simpl; [reflexivity | rewrite IH; reflexivity]. Qed.

Lemma plain_no (s : string) (sep : ascii) :
  plain s -> sep = ";"%char \/ sep = ":"%char ->
  Forall (fun c => c <> sep) (list_ascii_of_string s).
Proof.
  intros Hs Hsep. eapply Forall_impl; [exact Hs|].
  intros c [H1 H2]. destruct Hsep; subst; assumption.
Qed.

(** The fields of a rendered identifier. *)
Lemma split_render (items : list (string * string)) :
  Forall (fun kv => plain (fst kv) /\ plain (snd kv)) items ->
  split ";" (render_identifier items) = map render_field items ++ [EmptyString].
Proof.
  induction 1 as [|[k v] rest [Hk Hv] Hrest IH]; simpl; [reflexivity|].
  change (";" ++ render_identifier rest)%string
    with (String ";" (render_identifier rest)).
  rewrite split_app, IH; [reflexivity|].
  unfold render_field. simpl fst. simpl snd.
  rewrite list_ascii_app. apply Forall_app. split.
  - apply plain_no; auto.
  - simpl. constructor; [discriminate|]. apply plain_no; auto.
Qed.

Lemma split_field (k v : string) :
  plain k -> plain v -> split ":" (render_field (k, v)) = [k; v].
Proof.
  intros Hk Hv. unfold render_field. simpl fst. simpl snd.
  change (k ++ ":" ++ v)%string with (k ++ String ":" v)%string.
  rewrite split_app by (apply plain_no; auto).
  rewrite split_none by (apply plain_no; auto). reflexivity.
Qed.

Lemma render_field_nonempty (kv : string * string) :
  String.eqb (render_field kv) EmptyString = false.
Proof.
  destruct kv as [k v]. unfold render_field. simpl.
  destruct k; reflexivity.
Qed.

Lemma dict_update_pairs (items : list (string * string)) :
  forall (i : nat) (d : dict),
    dict_update i (map (fun kv => [fst kv; snd kv]) items) d
    = Ok (fold_left (fun d kv => dict_set (fst kv) (snd kv) d) items d).
Proof.
  induction items as [|[k v] rest IH]; intros i d; simpl; [reflexivity|].
  apply IH.
Qed.

Lemma dict_set_fresh (k v : string) (d : dict) :
  ~ In k (map fst d) -> dict_set k v d = d ++ [(k, v)].
Proof.
  induction d as [|[k' v'] d IH]; simpl; intros Hk; [reflexivity|].
  destruct (String.eqb_spec k k') as [->|_]; [exfalso; auto|].
  rewrite IH by tauto. reflexivity.
Qed.

Lemma dict_of_distinct (items : list (string * string)) :
  forall d,
    NoDup (map fst (d ++ items)) ->
    fold_left (fun d kv => dict_set (fst kv) (snd kv) d) items d = d ++ items.
Proof.
  induction items as [|[k v] rest IH]; intros d Hnd; simpl.
  - rewrite app_nil_r. reflexivity.
  - rewrite dict_set_fresh.
    + rewrite IH; rewrite <- app_assoc; [reflexivity | exact Hnd].
    + rewrite map_app in Hnd. simpl in Hnd.
      apply NoDup_app in Hnd. destruct Hnd as (_ & Hdis & _).
      intros Hin. apply list_elem_of_In in Hin.
      apply (Hdis k Hin). apply elem_of_cons. left. reflexivity.
Qed.

(** X25.  Round trip of the identifier format.  Keys and values that hold
    neither [;] nor [:], written as [key:value;] one after the other, are
    parsed back as the dict the pairs make when set in order: a key that
    occurs twice keeps its first place and its last value, and distinct
    keys give back the very list of pairs. *)
Theorem parse_identifier_round_trip (items : list (string * string)) :
  Forall (fun kv => plain (fst kv) /\ plain (snd kv)) items ->
  utils.parse_identifier (render_identifier items) = Ok (dict_of items)
  /\ (NoDup (map fst items) -> dict_of items = items).
Proof.
  intros Hplain. split.
  - unfold utils.parse_identifier. rewrite (split_render items Hplain).
    rewrite List.filter_app. simpl List.filter. rewrite app_nil_r.
    assert (Hfilter : List.filter (fun e => negb (String.eqb e EmptyString))
                        (map render_field items)
                      = map render_field items).
    { clear. induction items as [|kv rest IH]; simpl; [reflexivity|].
      rewrite render_field_nonempty. simpl. rewrite IH. reflexivity. }
    rewrite Hfilter, map_map.
    assert (Hsplit : map (fun kv => split ":" (render_field kv)) items
                     = map (fun kv => [fst kv; snd kv]) items).
    { clear -Hplain. induction Hplain as [|[k v] rest [Hk Hv] _ IH]; simpl;
        [reflexivity|].
      rewrite (split_field k v Hk Hv), IH. reflexivity. }
    rewrite Hsplit. apply dict_update_pairs.
  - intros Hnd. unfold dict_of. rewrite dict_of_distinct; [reflexivity|].
    exact Hnd.
Qed.

Lemma parse_identifier_round_trip_witness :
  utils.parse_identifier
    (render_identifier [("MFG"%string, "EPSON"%string);
                        ("MDL"%string, "L3150 Series"%string)])
  = Ok (dict_of [("MFG"%string, "EPSON"%string);
                 ("MDL"%string, "L3150 Series"%string)]).
Proof.
  refine (proj1 (parse_identifier_round_trip
                   [("MFG"%string, "EPSON"%string);
                    ("MDL"%string, "L3150 Series"%string)] _)).
  repeat constructor; simpl; discriminate.
Defined.

Lemma dict_update_returns (items : list (list string)) :
  forall (i : nat) (d : dict),
    returns (dict_update i items d) <-> Forall (fun e => length e = 2%nat) items.
Proof.
  unfold returns. induction items as [|e rest IH]; intros i d; simpl.
  - split; [constructor | eauto].
  - destruct e as [|k [|v [|x e]]];
      try (split; [intros (a & Ha); discriminate
                  | intros Hall; inversion Hall; subst; discriminate]).
    rewrite IH. split; [intros Hall; constructor; auto|].
    intros Hall. inversion Hall; subst. assumption.
Qed.

(** X26.  When [parse_identifier] returns: exactly when every field between
    semicolons is empty or holds one colon.  Any other field raises the
    [ValueError] of [dict]. *)
Theorem parse_identifier_returns (identifier : string) :
  returns (utils.parse_identifier identifier)
  <-> Forall (fun field => field = EmptyString
                           \/ occurrences ":" field = 1%nat)
             (split ";" identifier).
Proof.
  unfold utils.parse_identifier. rewrite dict_update_returns.
  generalize (split ";" identifier) as fields.
  induction fields as [|f fields IH]; simpl.
  - split; constructor.
  - destruct (String.eqb_spec f EmptyString) as [->|Hne]; simpl.
    + rewrite IH. split; [intros Hall; constructor; auto|].
      intros Hall. inversion Hall; subst. assumption.
    + split.
      * intros Hall. inversion Hall as [|? ? Hlen Hrest]; subst.
        rewrite length_split in Hlen. constructor; [right; lia|].
        apply IH. exact Hrest.
      * intros Hall. inversion Hall as [|? ? [Hf|Hocc] Hrest]; subst;
          [contradiction|].
        constructor; [rewrite length_split; lia|]. apply IH. exact Hrest.
Qed.
